(** * gnome-to-v4l2loopback: the frame pipeline of [src/main.c]

    A shallow embedding of the C code that turns screen-cast frames into
    packed YUV 4:2:2 and writes them to a V4L2 loopback device, with the
    properties of its specification proved (or refuted) on that embedding.

    Conventions of the embedding.
    - [uint32_t] values are integers in [Z]; every [uint32_t] product or sum
      the source computes is wrapped with [wrap32].
    - [int] values are integers in [Z]; the model is exact as long as the C
      value fits in 32 bits (signed overflow is undefined in C).
    - a buffer whose bounds matter is a [list Z] of bytes accessed with
      [load] and [store], which answer [OutOfBounds] outside the buffer; a
      [const uint8_t *] read by code whose property is not about bounds is
      the total map from byte offset to byte that it denotes ([pointer]).
    - results of system and library calls ([malloc], [write], [ioctl],
      [mmap], the GL import) are inputs of the model. *)

From Stdlib Require Import String Ascii Floats ZArith List Bool Lia.
Import ListNotations.
Local Open Scope Z_scope.

(* ================================================================== *)
(** * Part I. The embedding *)
(* ================================================================== *)

(** ** Machine arithmetic *)

(** Arithmetic on [uint32_t] is modulo 2^32. *)
Definition wrap32 (z : Z) : Z := z mod 2 ^ 32.

(** Storing an [int] into a [uint8_t] keeps the low eight bits. *)
Definition u8 (z : Z) : Z := z mod 256.

(** Passing a [uint32_t] where an [int] is expected: the value modulo 2^32
    taken in [-2^31, 2^31), as the compilers for Linux define the
    conversion. *)
Definition int_of_uint32 (u : Z) : Z :=
  let w := wrap32 u in
  if w <? 2 ^ 31 then w else w - 2 ^ 32.

(** [for (i = lo; i < hi; i += step)] with a positive constant [step] and a
    body that does not assign [i]: the values [i] takes, in order. *)
Definition for_range (lo hi step : Z) : list Z :=
  map (fun k => lo + step * Z.of_nat k)
      (seq 0 (Z.to_nat ((hi - lo + step - 1) / step))).

(** ** Buffers *)

(** The result of code that reads or writes a sized buffer: a value, or an
    access outside the buffer (undefined behaviour in C). *)
Inductive outcome (A : Type) : Type :=
| Ok (a : A)
| OutOfBounds.
Arguments Ok {A} a.
Arguments OutOfBounds {A}.

Definition obind {A B} (a : outcome A) (f : A -> outcome B) : outcome B :=
  match a with
  | Ok x => f x
  | OutOfBounds => OutOfBounds
  end.

Notation "'do' x <- a ; b" := (obind a (fun x => b))
  (at level 10, x pattern, a at level 100, b at level 200).

(** [buf[off]] for a buffer of [length buf] bytes. *)
Definition load (buf : list Z) (off : Z) : outcome Z :=
  if off <? 0 then OutOfBounds
  else match nth_error buf (Z.to_nat off) with
       | Some v => Ok v
       | None => OutOfBounds
       end.

Fixpoint replace_nth (n : nat) (v : Z) (buf : list Z) : list Z :=
  match buf, n with
  | [], _ => []
  | _ :: tl, O => v :: tl
  | hd :: tl, S n' => hd :: replace_nth n' v tl
  end.

(** [buf[off] = v]. *)
Definition store (buf : list Z) (off v : Z) : outcome (list Z) :=
  if (0 <=? off) && (off <? Z.of_nat (length buf))
  then Ok (replace_nth (Z.to_nat off) v buf)
  else OutOfBounds.

(** A sequence of byte stores, in program order. *)
Fixpoint store_all (buf : list Z) (ws : list (Z * Z)) : outcome (list Z) :=
  match ws with
  | [] => Ok buf
  | (off, v) :: ws' => do buf' <- store buf off v; store_all buf' ws'
  end.

(** The bytes a read-only pointer denotes, by offset. *)
Definition pointer := Z -> Z.

(** ** Pixel formats *)

(** [(spa_format == 15 || spa_format == 16) ? 3 : 4], as computed in
    [on_stream_param_changed], [on_stream_process] and
    [validate_frame_data]; 15 is SPA_VIDEO_FORMAT_RGB and 16 is
    SPA_VIDEO_FORMAT_BGR. *)
Definition bytes_per_pixel (spa_format : Z) : Z :=
  if (spa_format =? 15) || (spa_format =? 16) then 3 else 4.

(** ** Stride resolution ([on_stream_process], "Get stride from the chunk") *)

(** The fields of [struct spa_chunk] the code reads: [offset] and [size] are
    [uint32_t], [stride] is [int32_t]. *)
Record spa_chunk := {
  chunk_offset : Z;
  chunk_size : Z;
  chunk_stride : Z
}.

(** [uint32_t min_stride = data->width * bytes_per_pixel;] *)
Definition min_stride (width spa_format : Z) : Z :=
  wrap32 (width * bytes_per_pixel spa_format).

(** The value of [actual_stride] after the "Validate stride" step. *)
Definition actual_stride (width height spa_format : Z) (chunk : spa_chunk) : Z :=
  let min_stride := min_stride width spa_format in
  let actual_stride :=
    if chunk_stride chunk >? 0 then chunk_stride chunk
    else if (height >? 0) && (chunk_size chunk >? 0)
         then chunk_size chunk / height
         else min_stride in
  if actual_stride <? min_stride then min_stride else actual_stride.

(** ** Stride depadding ([create_packed_buffer]) *)

(** The stores of [memcpy(dst + dst_off, src + src_off, n)]. *)
Definition memcpy_writes (src : pointer) (dst_off src_off n : Z) : list (Z * Z) :=
  map (fun i => (dst_off + i, src (src_off + i))) (for_range 0 n 1).

(** [create_packed_buffer].  [malloc_ok] is whether [malloc(packed_size)]
    returned a buffer ([malloc] leaves its bytes indeterminate; they start
    as 0 here).  The result is the content of the returned buffer, [None]
    being the NULL return. *)
Definition create_packed_buffer (malloc_ok : bool) (src : pointer)
    (width height src_stride bytes_per_pixel : Z) : outcome (option (list Z)) :=
  let packed_stride := wrap32 (width * bytes_per_pixel) in
  let packed_size := wrap32 (packed_stride * height) in
  if negb malloc_ok then Ok None
  else
    do packed <-
      store_all (repeat 0 (Z.to_nat packed_size))
        (flat_map (fun y => memcpy_writes src (wrap32 (y * packed_stride))
                                          (wrap32 (y * src_stride)) packed_stride)
                  (for_range 0 height 1));
    Ok (Some packed).

(** ** BGRx to YUYV ([convert_bgrx_to_yuyv]) *)

(** [(v < 0) ? 0 : ((v > 255) ? 255 : v)] *)
Definition clamp255 (v : Z) : Z :=
  if v <? 0 then 0 else if v >? 255 then 255 else v.

(** The colour bytes [px[0]], [px[1]], [px[2]] of the pixel at [px]. *)
Definition load_bgr (src : list Z) (px : Z) : outcome (Z * Z * Z) :=
  do b <- load src px;
  do g <- load src (px + 1);
  do r <- load src (px + 2);
  Ok (b, g, r).

(** One iteration of the inner loop: the four values stored through
    [dst_row], in order.  [>>] on [int] is the arithmetic shift and [/] on
    [int] truncates. *)
Definition bgrx_pair (src : list Z) (src_row x width : Z) : outcome (Z * Z * Z * Z) :=
  do p0 <- load_bgr src (src_row + x * 4);
  let '(b0, g0, r0) := p0 in
  do p1 <- (if x + 1 <? width then load_bgr src (src_row + (x + 1) * 4)
            else Ok (b0, g0, r0));
  let '(b1, g1, r1) := p1 in
  let y0 := Z.shiftr (77 * r0 + 150 * g0 + 29 * b0) 8 in
  let y1 := Z.shiftr (77 * r1 + 150 * g1 + 29 * b1) 8 in
  let ravg := Z.quot (r0 + r1) 2 in
  let gavg := Z.quot (g0 + g1) 2 in
  let bavg := Z.quot (b0 + b1) 2 in
  let u := Z.shiftr (-38 * ravg - 74 * gavg + 112 * bavg) 8 + 128 in
  let v := Z.shiftr (112 * ravg - 94 * gavg - 18 * bavg) 8 + 128 in
  Ok (u8 (clamp255 y0), u8 (clamp255 u), u8 (clamp255 y1), u8 (clamp255 v)).

(** The inner loop over [xs], the values of [x]; [dst_row] is the running
    output pointer, as an offset into [dst].  The result lists the stores
    [*dst_row++ = ...] in program order. *)
Fixpoint bgrx_cols (src : list Z) (src_row width : Z) (xs : list Z) (dst_row : Z)
    : outcome (list (Z * Z)) :=
  match xs with
  | [] => Ok []
  | x :: xs' =>
      do q <- bgrx_pair src src_row x width;
      let '(y0, u, y1, v) := q in
      do rest <- bgrx_cols src src_row width xs' (dst_row + 4);
      Ok ((dst_row, y0) :: (dst_row + 1, u) :: (dst_row + 2, y1) :: (dst_row + 3, v) :: rest)
  end.

(** The body of the outer loop for row [y]: [src_row = src + y * src_stride]
    ([uint32_t] arithmetic), [dst_row = dst + y * width * 2]. *)
Definition bgrx_row (src : list Z) (width src_stride y : Z) : outcome (list (Z * Z)) :=
  bgrx_cols src (wrap32 (y * src_stride)) width (for_range 0 width 2) (y * width * 2).

Fixpoint bgrx_rows (src : list Z) (width src_stride : Z) (ys : list Z)
    : outcome (list (Z * Z)) :=
  match ys with
  | [] => Ok []
  | y :: ys' =>
      do row <- bgrx_row src width src_stride y;
      do rest <- bgrx_rows src width src_stride ys';
      Ok (row ++ rest)
  end.

(** Every store [convert_bgrx_to_yuyv] performs, in program order, as
    (offset into [dst], byte). *)
Definition bgrx_stores (src : list Z) (width height src_stride : Z)
    : outcome (list (Z * Z)) :=
  bgrx_rows src width src_stride (for_range 0 height 1).

(** [convert_bgrx_to_yuyv(src, dst, width, height, src_stride)]: the content
    of [dst] afterwards. *)
Definition convert_bgrx_to_yuyv (src dst : list Z) (width height src_stride : Z)
    : outcome (list Z) :=
  do ws <- bgrx_stores src width height src_stride;
  store_all dst ws.

(** *** The conversion in the words of the specification

    These two definitions follow the specification (section 4.3), not the
    code: they are what [bgrx_pair] is compared with. *)

(** "clamped to [0,255]" *)
Definition clamp_byte (v : Z) : Z := Z.max 0 (Z.min 255 v).

(** For a pair of (B, G, R) samples: luma [(77R + 150G + 29B) >> 8] of each,
    chroma from the average of the pair,
    [U = ((-38 Ravg - 74 Gavg + 112 Bavg) >> 8) + 128] and
    [V = ((112 Ravg - 94 Gavg - 18 Bavg) >> 8) + 128], packed as
    [Y0, U, Y1, V]. *)
Definition yuyv_of_pair (p0 p1 : Z * Z * Z) : Z * Z * Z * Z :=
  let '(b0, g0, r0) := p0 in
  let '(b1, g1, r1) := p1 in
  let ravg := (r0 + r1) / 2 in
  let gavg := (g0 + g1) / 2 in
  let bavg := (b0 + b1) / 2 in
  (clamp_byte (Z.shiftr (77 * r0 + 150 * g0 + 29 * b0) 8),
   clamp_byte (Z.shiftr (-38 * ravg - 74 * gavg + 112 * bavg) 8 + 128),
   clamp_byte (Z.shiftr (77 * r1 + 150 * g1 + 29 * b1) 8),
   clamp_byte (Z.shiftr (112 * ravg - 94 * gavg - 18 * bavg) 8 + 128)).

(** The byte of a buffer at an offset inside it. *)
Definition byte_at (buf : list Z) (off : Z) : Z := nth (Z.to_nat off) buf 0.

(** The (B, G, R) sample of the BGRx pixel at column [x] of the row that
    starts at [row_start]. *)
Definition bgr_sample (src : list Z) (row_start x : Z) : Z * Z * Z :=
  (byte_at src (row_start + 4 * x),
   byte_at src (row_start + 4 * x + 1),
   byte_at src (row_start + 4 * x + 2)).

(** "4 bytes per 2 horizontal pixels: [Y0, U, Y1, V]": the stores for pair
    [k] (columns [2k] and [2k + 1]) of the row that starts at [row_start] in
    the source and at [dst_row] in the destination.  "The last unpaired
    column is processed by duplicating its own sample as its own
    pair-partner." *)
Definition yuyv_pair_stores (src : list Z) (width row_start dst_row k : Z)
    : list (Z * Z) :=
  let '(y0, u, y1, v) :=
    yuyv_of_pair (bgr_sample src row_start (2 * k))
      (if 2 * k + 1 <? width then bgr_sample src row_start (2 * k + 1)
       else bgr_sample src row_start (2 * k)) in
  let d := dst_row + 4 * k in
  [(d, y0); (d + 1, u); (d + 2, y1); (d + 3, v)].

(** The stores for row [y], pair after pair. *)
Definition yuyv_row_stores (src : list Z) (width src_stride y : Z) : list (Z * Z) :=
  flat_map (yuyv_pair_stores src width (y * src_stride) (y * width * 2))
           (for_range 0 ((width + 1) / 2) 1).

(** ** Frame validity filter ([validate_frame_data]) *)

(** [pixel[0] != 0 || pixel[1] != 0 || pixel[2] != 0] *)
Definition non_black_at (data : pointer) (pixel : Z) : bool :=
  negb (data pixel =? 0) || negb (data (pixel + 1) =? 0) || negb (data (pixel + 2) =? 0).

(** [data + (y * stride + x * bytes_per_pixel)] as an offset: [y * stride]
    and the sum are [uint32_t]. *)
Definition pixel_offset (stride bytes_per_pixel x y : Z) : Z :=
  wrap32 (wrap32 (y * stride) + x * bytes_per_pixel).

(** The inner loop
    [for (x = 0; x < width && total_pixels_checked < 1000; x += x_step)]
    from the values [xs] that [x] has still to take: the loop is left when
    they are used up or when the second condition fails. *)
Fixpoint validate_cols (data : pointer) (stride bytes_per_pixel y : Z) (xs : list Z)
    (non_black_count total_pixels_checked : Z) : Z * Z :=
  match xs with
  | [] => (non_black_count, total_pixels_checked)
  | x :: xs' =>
      if total_pixels_checked <? 1000 then
        let pixel := pixel_offset stride bytes_per_pixel x y in
        let non_black_count :=
          if non_black_at data pixel then non_black_count + 1 else non_black_count in
        validate_cols data stride bytes_per_pixel y xs'
          non_black_count (total_pixels_checked + 1)
      else (non_black_count, total_pixels_checked)
  end.

(** The outer loop
    [for (y = 0; y < height && total_pixels_checked < 1000; y += y_step)]
    from the values [ys] that [y] has still to take; [xs] are the values of
    [x] in every run of the inner loop. *)
Fixpoint validate_rows (data : pointer) (stride bytes_per_pixel : Z) (xs ys : list Z)
    (non_black_count total_pixels_checked : Z) : Z * Z :=
  match ys with
  | [] => (non_black_count, total_pixels_checked)
  | y :: ys' =>
      if total_pixels_checked <? 1000 then
        let '(non_black_count, total_pixels_checked) :=
          validate_cols data stride bytes_per_pixel y xs
            non_black_count total_pixels_checked in
        validate_rows data stride bytes_per_pixel xs ys'
          non_black_count total_pixels_checked
      else (non_black_count, total_pixels_checked)
  end.

(** [int y_step = height > 100 ? height / 100 : 1;] *)
Definition y_step (height : Z) : Z := if height >? 100 then Z.quot height 100 else 1.

(** [int x_step = width > 10 ? width / 10 : 1;] *)
Definition x_step (width : Z) : Z := if width >? 10 then Z.quot width 10 else 1.

(** [non_black_count] and [total_pixels_checked] when the loops are left. *)
Definition validate_counts (data : pointer) (width height spa_format stride : Z) : Z * Z :=
  validate_rows data stride (bytes_per_pixel spa_format)
    (for_range 0 width (x_step width)) (for_range 0 height (y_step height)) 0 0.

(** [(double)n] for an [int] counter [n >= 0]. *)
Definition double_of_int (n : Z) : float := PrimFloat.of_uint63 (Uint63.of_Z n).

(** [(double)non_black_count / total_pixels_checked > 0.01] in IEEE 754
    binary64.  The literal is the binary64 value nearest to 0.01; 0/0 is a
    NaN, which no comparison accepts. *)
Definition ratio_above_one_percent (non_black_count total_pixels_checked : Z) : bool :=
  PrimFloat.ltb 0x1.47ae147ae147bp-7%float
    (PrimFloat.div (double_of_int non_black_count) (double_of_int total_pixels_checked)).

(** [validate_frame_data(data, width, height, spa_format, stride)] *)
Definition validate_frame_data (data : pointer) (width height spa_format stride : Z) : bool :=
  let '(non_black_count, total_pixels_checked) :=
    validate_counts data width height spa_format stride in
  ratio_above_one_percent non_black_count total_pixels_checked.

(** *** The filter in the words of the specification

    These definitions follow the specification (section 4.4), not the code:
    they are what [validate_frame_data] is compared with. *)

(** "a regular grid (row step = height>100 ? height/100 : 1; column step =
    width>10 ? width/10 : 1)": the (column, row) positions, row by row. *)
Definition sample_grid (width height : Z) : list (Z * Z) :=
  flat_map (fun y => map (fun x => (x, y))
                         (for_range 0 width (if 10 <? width then width / 10 else 1)))
           (for_range 0 height (if 100 <? height then height / 100 else 1)).

(** "Sample up to 1,000 pixels" *)
Definition sampled_pixels (width height : Z) : list (Z * Z) :=
  firstn 1000 (sample_grid width height).

(** "A pixel counts as non-black if any of its first three color bytes is
    non-zero"; the pixel's bytes are those the code addresses for (x, y). *)
Definition is_non_black (data : pointer) (stride bytes_per_pixel : Z) (p : Z * Z) : bool :=
  existsb (fun i => negb (data (pixel_offset stride bytes_per_pixel (fst p) (snd p) + i) =? 0))
          [0; 1; 2].

(** The number of non-black pixels among [ps]. *)
Definition non_black_pixels (data : pointer) (stride bytes_per_pixel : Z)
    (ps : list (Z * Z)) : Z :=
  Z.of_nat (length (filter (is_non_black data stride bytes_per_pixel) ps)).

(** *** The rounding of the ratio, by enumeration *)

(** The counters the loops can produce. *)
Definition counter_values : list Z := map Z.of_nat (seq 0 (Z.to_nat 1001)).

(** The binary64 comparison of [validate_frame_data] against the exact one,
    for every pair of counters taken from [values]. *)
Definition ratio_table (values : list Z) : bool :=
  forallb (fun t =>
    forallb (fun n =>
      (t <? n) ||
      Bool.eqb (ratio_above_one_percent n t) (t <? 100 * n))
      values)
    values.

(** ** Pipeline state ([struct app_data] and the statics of [on_stream_process]) *)

(** The fields of [struct app_data] that the two stream callbacks read or
    write.  Pointers are kept as what the code tests of them. *)
Record app_data := {
  loop : bool;                     (* data->loop != NULL *)
  portal_session : option bool;    (* NULL, or portal_session->session_active *)
  v4l2_fd : Z;
  width : Z;
  height : Z;
  stride : Z;
  spa_format : Z;
  format_set : bool;
  color_bars_mode : bool;
  frame_skip_count : Z;
  conversion_buffer : bool;        (* data->conversion_buffer != NULL *)
  conversion_buffer_size : Z;
  gl_import : bool;                (* gl_ctx && gl_has_dma_buf_import_support(gl_ctx) *)
  gl_buffer : bool;                (* data->gl_buffer != NULL *)
  gl_buffer_size : Z
}.

(** [app_data] together with [static int write_error_count] of
    [on_stream_process]. *)
Record pipeline := {
  data : app_data;
  write_error_count : Z
}.

(** ** Format negotiation ([on_stream_param_changed]) *)

Inductive spa_param := SPA_PARAM_EnumFormat | SPA_PARAM_Format | SPA_PARAM_Buffers | SPA_PARAM_other.

(** What [spa_format_video_raw_parse] leaves in [info]. *)
Record spa_video_info_raw := {
  info_format : Z;
  info_width : Z;
  info_height : Z
}.

(** One call of [on_stream_param_changed]: its arguments and the results of
    the calls it makes. *)
Record param_event := {
  id : spa_param;
  param : option (option spa_video_info_raw);
      (* None: param == NULL; Some None: spa_format_video_raw_parse < 0 *)
  ioctl_ok : bool;      (* ioctl(VIDIOC_S_FMT) >= 0 *)
  realloc_ok : bool     (* realloc(conversion_buffer, ...) != NULL *)
}.

Definition on_stream_param_changed (d : app_data) (e : param_event) : app_data :=
  match param e with
  | None => d
  | Some parsed =>
      match id e with
      | SPA_PARAM_Format =>
          match parsed with
          | None => d
          | Some info =>
              let dimensions_changed :=
                negb (width d =? info_width info) || negb (height d =? info_height info) in
              let d1 :=
                {| loop := loop d;
                   portal_session := portal_session d;
                   v4l2_fd := v4l2_fd d;
                   width := info_width info;
                   height := info_height info;
                   stride := wrap32 (info_width info * bytes_per_pixel (info_format info));
                   spa_format := info_format info;
                   format_set := format_set d;
                   color_bars_mode := color_bars_mode d;
                   frame_skip_count := frame_skip_count d;
                   conversion_buffer := conversion_buffer d;
                   conversion_buffer_size := conversion_buffer_size d;
                   gl_import := gl_import d;
                   gl_buffer := gl_buffer d;
                   gl_buffer_size := gl_buffer_size d |} in
              if (negb (format_set d) || dimensions_changed) && (v4l2_fd d >=? 0) then
                if negb (ioctl_ok e) then d1
                else
                  {| loop := loop d1;
                     portal_session := portal_session d1;
                     v4l2_fd := v4l2_fd d1;
                     width := width d1;
                     height := height d1;
                     stride := stride d1;
                     spa_format := spa_format d1;
                     format_set := true;
                     color_bars_mode := color_bars_mode d1;
                     frame_skip_count := 0;
                     conversion_buffer := realloc_ok e;
                     conversion_buffer_size := wrap32 (width d1 * height d1) * 2;
                     gl_import := gl_import d1;
                     gl_buffer := gl_buffer d1;
                     gl_buffer_size := gl_buffer_size d1 |}
              else d1
          end
      | _ => d
      end
  end.

(** ** Frame delivery ([on_stream_process]) *)

Inductive spa_data_type := SPA_DATA_MemPtr | SPA_DATA_MemFd | SPA_DATA_DmaBuf | SPA_DATA_other.

(** One call of [on_stream_process]: the buffer the stream hands over and
    the results of the calls made while it is handled (each is used only
    if the call is reached). *)
Record frame := {
  dequeued : bool;          (* pw_stream_dequeue_buffer() != NULL *)
  d_type : spa_data_type;   (* buf->datas[0].type *)
  d_mappable : bool;        (* d->flags & SPA_DATA_FLAG_MAPPABLE *)
  d_data_null : bool;       (* d->data + d->chunk->offset == NULL *)
  chunk : spa_chunk;        (* d->chunk *)
  pixels : pointer;         (* the bytes at frame_data *)
  gl_realloc_ok : bool;     (* realloc(gl_buffer, required_size) != NULL *)
  gl_import_ok : bool;      (* gl_import_dma_buffer(...) *)
  mmap_ok : bool;           (* mmap(...) != MAP_FAILED *)
  conv_malloc_ok : bool;    (* malloc(conversion_buffer_size) != NULL *)
  packed_malloc_ok : bool;  (* the malloc of create_packed_buffer != NULL *)
  write_result : Z          (* write(v4l2_fd, conversion_buffer, ...) *)
}.

(** The converter functions the [switch (data->spa_format)] calls. *)
Inductive converter :=
| rgba32_to_yuyv | bgrx_to_yuyv | xrgb_to_yuyv | xbgr_to_yuyv
| bgra_to_yuyv | argb_to_yuyv | rgb24_to_yuyv.

(** The cases of the [switch]; [None] is its [default:]. *)
Definition select_converter (spa_format : Z) : option converter :=
  if (spa_format =? 7) || (spa_format =? 11) then Some rgba32_to_yuyv
  else if spa_format =? 8 then Some bgrx_to_yuyv
  else if spa_format =? 9 then Some xrgb_to_yuyv
  else if spa_format =? 10 then Some xbgr_to_yuyv
  else if spa_format =? 12 then Some bgra_to_yuyv
  else if spa_format =? 13 then Some argb_to_yuyv
  else if spa_format =? 14 then Some xbgr_to_yuyv
  else if (spa_format =? 15) || (spa_format =? 16) then Some rgb24_to_yuyv
  else None.

(** How the handling of a delivered buffer ended. *)
Inductive disposition :=
| NoBuffer                (* nothing to dequeue *)
| Dropped                 (* no frame data: goto done / cleanup_map *)
| Skipped                 (* frame_skip_count < 5 *)
| NoSink                  (* v4l2_fd < 0 *)
| NoConversionBuffer      (* the on-demand malloc failed *)
| ColorBars               (* color_bars_mode *)
| Invalid                 (* validate_frame_data said false *)
| Unsupported             (* default: of the switch, no converter called *)
| Converted (c : converter) (packed : bool) (conversion_stride : Z).

(** What one call did to the outside: how it ended, whether [write] was
    called on the sink, whether [pw_main_loop_quit] was called. *)
Record effects := {
  ended : disposition;
  wrote : bool;
  quit : bool
}.

Definition set_gl_buffer (d : app_data) (ok : bool) (size : Z) : app_data :=
  {| loop := loop d; portal_session := portal_session d; v4l2_fd := v4l2_fd d;
     width := width d; height := height d; stride := stride d;
     spa_format := spa_format d; format_set := format_set d;
     color_bars_mode := color_bars_mode d; frame_skip_count := frame_skip_count d;
     conversion_buffer := conversion_buffer d;
     conversion_buffer_size := conversion_buffer_size d;
     gl_import := gl_import d; gl_buffer := ok; gl_buffer_size := size |}.

Definition set_stride (d : app_data) (s : Z) : app_data :=
  {| loop := loop d; portal_session := portal_session d; v4l2_fd := v4l2_fd d;
     width := width d; height := height d; stride := s;
     spa_format := spa_format d; format_set := format_set d;
     color_bars_mode := color_bars_mode d; frame_skip_count := frame_skip_count d;
     conversion_buffer := conversion_buffer d;
     conversion_buffer_size := conversion_buffer_size d;
     gl_import := gl_import d; gl_buffer := gl_buffer d;
     gl_buffer_size := gl_buffer_size d |}.

Definition set_frame_skip_count (d : app_data) (n : Z) : app_data :=
  {| loop := loop d; portal_session := portal_session d; v4l2_fd := v4l2_fd d;
     width := width d; height := height d; stride := stride d;
     spa_format := spa_format d; format_set := format_set d;
     color_bars_mode := color_bars_mode d; frame_skip_count := n;
     conversion_buffer := conversion_buffer d;
     conversion_buffer_size := conversion_buffer_size d;
     gl_import := gl_import d; gl_buffer := gl_buffer d;
     gl_buffer_size := gl_buffer_size d |}.

Definition set_conversion_buffer (d : app_data) (ok : bool) (size : Z) : app_data :=
  {| loop := loop d; portal_session := portal_session d; v4l2_fd := v4l2_fd d;
     width := width d; height := height d; stride := stride d;
     spa_format := spa_format d; format_set := format_set d;
     color_bars_mode := color_bars_mode d; frame_skip_count := frame_skip_count d;
     conversion_buffer := ok; conversion_buffer_size := size;
     gl_import := gl_import d; gl_buffer := gl_buffer d;
     gl_buffer_size := gl_buffer_size d |}.

(** From the dequeued buffer to [frame_data]: the updated state and whether
    there is frame data to go on with ([false] covers [goto done] and the
    NULL test that goes to [cleanup_map]). *)
Definition acquire (d : app_data) (f : frame) : app_data * bool :=
  match d_type f with
  | SPA_DATA_MemPtr => (d, negb (d_data_null f))
  | SPA_DATA_MemFd => (d, mmap_ok f)
  | SPA_DATA_DmaBuf =>
      if gl_import d then
        let required_size := wrap32 (width d * height d * 4) in
        let realloc := negb (gl_buffer d) || (gl_buffer_size d <? required_size) in
        if realloc && negb (gl_realloc_ok f) then
          (set_gl_buffer d false required_size, false)
        else
          let d := if realloc then set_gl_buffer d true required_size else d in
          if gl_import_ok f then (d, true)
          else (d, d_mappable f && mmap_ok f)
      else (d, d_mappable f && mmap_ok f)
  | SPA_DATA_other => (d, false)
  end.

(** The code after the [switch]: [written] is -1 unless a [case] assigned
    the result of [write] to it.  The result is the new
    [write_error_count] and whether [pw_main_loop_quit] is called. *)
Definition handle_written (d : app_data) (write_error_count written : Z) : Z * bool :=
  if written <? 0 then
    let write_error_count := write_error_count + 1 in
    match portal_session d with
    | Some false => (write_error_count, loop d)
    | _ =>
        if write_error_count >=? 5 then (write_error_count, loop d)
        else (write_error_count, false)
    end
  else if written >? 0 then (0, false)
  else (write_error_count, false).

(** A call that ends without touching the sink or the error counter. *)
Definition let_go (d : app_data) (write_error_count : Z) (e : disposition)
    : pipeline * effects :=
  ({| data := d; write_error_count := write_error_count |},
   {| ended := e; wrote := false; quit := false |}).

(** From "Check if we need to create a packed buffer" to the end of the
    screen-capture branch: the packed copy, the [switch] and the handling
    of [written]. *)
Definition convert_and_write (d : app_data) (write_error_count actual_stride : Z)
    (f : frame) : pipeline * effects :=
  let expected_stride := wrap32 (width d * bytes_per_pixel (spa_format d)) in
  let packed := (actual_stride >? expected_stride) && packed_malloc_ok f in
  let conversion_stride := if packed then expected_stride else actual_stride in
  let converter := select_converter (spa_format d) in
  let written :=
    match converter with
    | Some _ => write_result f
    | None => -1
    end in
  let '(count, quit) := handle_written d write_error_count written in
  ({| data := d; write_error_count := count |},
   {| ended := match converter with
               | Some c => Converted c packed conversion_stride
               | None => Unsupported
               end;
      wrote := match converter with Some _ => true | None => false end;
      quit := quit |}).

(** The body of [if (data->v4l2_fd >= 0)].  [validate_frame_data] takes the
    width and the height as [int]. *)
Definition to_sink (d : app_data) (write_error_count actual_stride : Z) (f : frame)
    : pipeline * effects :=
  let on_demand := negb (conversion_buffer d) && negb (color_bars_mode d) in
  let d :=
    if on_demand
    then set_conversion_buffer d (conv_malloc_ok f) (wrap32 (width d * height d * 2))
    else d in
  if on_demand && negb (conv_malloc_ok f) then let_go d write_error_count NoConversionBuffer
  else if color_bars_mode d then
    ({| data := d; write_error_count := write_error_count |},
     {| ended := ColorBars; wrote := true; quit := false |})
  else if negb (validate_frame_data (pixels f)
                  (int_of_uint32 (width d)) (int_of_uint32 (height d))
                  (spa_format d) actual_stride)
  then let_go d write_error_count Invalid
  else convert_and_write d write_error_count actual_stride f.

Definition on_stream_process (p : pipeline) (f : frame) : pipeline * effects :=
  if negb (dequeued f) then let_go (data p) (write_error_count p) NoBuffer
  else
    let '(d, have_frame) := acquire (data p) f in
    if negb have_frame then let_go d (write_error_count p) Dropped
    else
      let actual_stride := actual_stride (width d) (height d) (spa_format d) (chunk f) in
      let d := set_stride d actual_stride in
      if frame_skip_count d <? 5 then
        let_go (set_frame_skip_count d (frame_skip_count d + 1)) (write_error_count p) Skipped
      else if negb (v4l2_fd d >=? 0) then let_go d (write_error_count p) NoSink
      else to_sink d (write_error_count p) actual_stride f.

(** ** Runs of the stream callbacks *)

Inductive event :=
| Param (e : param_event)
| Process (f : frame).

Definition step (p : pipeline) (ev : event) : pipeline * option effects :=
  match ev with
  | Param e =>
      ({| data := on_stream_param_changed (data p) e;
          write_error_count := write_error_count p |}, None)
  | Process f => let '(p', fx) := on_stream_process p f in (p', Some fx)
  end.

(** The callbacks run one after the other on the loop's thread; the result
    lists what each did, in order. *)
Fixpoint run (p : pipeline) (evs : list event) : pipeline * list (option effects) :=
  match evs with
  | [] => (p, [])
  | ev :: evs' =>
      let '(p1, fx) := step p ev in
      let '(p2, fxs) := run p1 evs' in
      (p2, fx :: fxs)
  end.

(** A run of [on_stream_process] alone, one call per delivered buffer. *)
Fixpoint process_all (p : pipeline) (fs : list frame) : pipeline * list effects :=
  match fs with
  | [] => (p, [])
  | f :: fs' =>
      let '(p1, fx) := on_stream_process p f in
      let '(p2, fxs) := process_all p1 fs' in
      (p2, fx :: fxs)
  end.

(** The handling of [written] over the frames that reach it, given the
    value of [written] for each: the final [write_error_count] and, for
    each frame, whether [pw_main_loop_quit] was called. *)
Fixpoint handle_all_written (d : app_data) (write_error_count : Z) (ws : list Z)
    : Z * list bool :=
  match ws with
  | [] => (write_error_count, [])
  | written :: ws' =>
      let '(count, q) := handle_written d write_error_count written in
      let '(count', qs) := handle_all_written d count ws' in
      (count', q :: qs)
  end.

(** What [on_stream_process] never assigns: the loop, the session, the sink
    descriptor, the negotiated format and the mode. *)
Definition same_stream (d d' : app_data) : Prop :=
  loop d' = loop d /\ portal_session d' = portal_session d /\
  v4l2_fd d' = v4l2_fd d /\ width d' = width d /\ height d' = height d /\
  spa_format d' = spa_format d /\ format_set d' = format_set d /\
  color_bars_mode d' = color_bars_mode d.

(** [struct app_data data = {0}] of [main], then the sink opened as [fd],
    the GL capability found, the portal session created and the loop
    created by [on_pipewire_ready]. *)
Definition started (fd : Z) (gl : bool) : pipeline :=
  {| data :=
       {| loop := true; portal_session := Some true; v4l2_fd := fd;
          width := 0; height := 0; stride := 0; spa_format := 0;
          format_set := false; color_bars_mode := false; frame_skip_count := 0;
          conversion_buffer := false; conversion_buffer_size := 0;
          gl_import := gl; gl_buffer := false; gl_buffer_size := 0 |};
     write_error_count := 0 |}.

(** ** Sample inputs *)

(** A format event the stream accepts: [id == SPA_PARAM_Format], a pod that
    parses to [width] x [height] in [format], and a sink and an allocator
    that accept the change. *)
Definition negotiate (width height format : Z) : param_event :=
  {| id := SPA_PARAM_Format;
     param := Some (Some {| info_format := format; info_width := width;
                            info_height := height |});
     ioctl_ok := true;
     realloc_ok := true |}.

(** A buffer of plain memory in which every byte is [value], with no stride
    declared, handed over when every call succeeds and [write] returns
    [written]. *)
Definition plain_frame (value written : Z) : frame :=
  {| dequeued := true;
     d_type := SPA_DATA_MemPtr;
     d_mappable := false;
     d_data_null := false;
     chunk := {| chunk_offset := 0; chunk_size := 0; chunk_stride := 0 |};
     pixels := fun _ => value;
     gl_realloc_ok := true;
     gl_import_ok := true;
     mmap_ok := true;
     conv_malloc_ok := true;
     packed_malloc_ok := true;
     write_result := written |}.

(** What a call did, for comparison. *)
Definition summary (fx : effects) : disposition * bool * bool :=
  (ended fx, wrote fx, quit fx).

(** ** Process entry ([main]) *)

(** The state of the argument loop of [main]. *)
Record options := {
  opt_color_bars : bool;    (* data.color_bars_mode *)
  opt_debug : bool;         (* debug_enabled *)
  v4l2_device : string
}.

(** [argv[i][0] != '-'] *)
Definition not_dash_first (arg : string) : bool :=
  match arg with
  | String c _ => negb (Ascii.eqb c "-"%char)
  | EmptyString => true
  end.

(** The loop [for (int i = 1; i < argc; i++)] over the arguments still to
    read: [inr code] is a [return code;] from inside the loop. *)
Fixpoint parse_args (args : list string) (o : options) : options + Z :=
  match args with
  | [] => inl o
  | arg :: rest =>
      if String.eqb arg "--color-bars"%string || String.eqb arg "-c"%string then
        parse_args rest {| opt_color_bars := true; opt_debug := opt_debug o;
                           v4l2_device := v4l2_device o |}
      else if String.eqb arg "--debug"%string || String.eqb arg "-v"%string then
        parse_args rest {| opt_color_bars := opt_color_bars o; opt_debug := true;
                           v4l2_device := v4l2_device o |}
      else if String.eqb arg "--help"%string || String.eqb arg "-h"%string then inr 0
      else if not_dash_first arg then
        parse_args rest {| opt_color_bars := opt_color_bars o; opt_debug := opt_debug o;
                           v4l2_device := arg |}
      else inr 1
  end.

(** The results of the calls [main] makes after the argument loop, for a
    run of [main] that returns (the color-bars loop is left only by a
    failing [write]). *)
Record startup := {
  getenv_debug : bool;        (* getenv("DEBUG") || getenv("GNOME_V4L2_DEBUG") *)
  open_fd : Z;                (* open(v4l2_device, O_RDWR) *)
  querycap_ok : bool;         (* ioctl(VIDIOC_QUERYCAP) >= 0 *)
  bars_malloc_ok : bool;      (* malloc of the color-bars buffer *)
  portal_setup : Z;           (* setup_pipewire_via_portal(&data) *)
  portal_ready : bool         (* data.portal_ready && data.loop afterwards *)
}.

(** Where a returning run of [main] leaves for its [return]. *)
Inductive main_path :=
| ReturnInArguments           (* return 0 / return 1 of the argument loop *)
| SinkOpenFailed              (* setup_v4l2_device < 0: goto cleanup *)
| QueryCapFailed              (* goto cleanup *)
| ColorBarsNoBuffer           (* goto cleanup *)
| ColorBarsWriteFailed        (* break out of while (1) *)
| PortalSetupFailed           (* goto cleanup *)
| PortalNotReady              (* portal loop left without a stream *)
| MainLoopReturned.           (* pw_main_loop_run returned *)

(** The path [main] takes after the argument loop, up to [cleanup:]. *)
Definition main_startup (o : options) (env : startup) : main_path :=
  if open_fd env <? 0 then SinkOpenFailed
  else if opt_color_bars o then
    if negb (querycap_ok env) then QueryCapFailed
    else if negb (bars_malloc_ok env) then ColorBarsNoBuffer
    else ColorBarsWriteFailed
  else if portal_setup env <? 0 then PortalSetupFailed
  else if portal_ready env then MainLoopReturned
  else PortalNotReady.

(** [main(argc, argv)]: the path taken and the value returned.  [argv]
    starts with the program name.  Every path through [cleanup:] ends in the
    one [return 0;] below the label. *)
Definition main (argv : list string) (env : startup) : main_path * Z :=
  match parse_args (tl argv)
          {| opt_color_bars := false; opt_debug := getenv_debug env;
             v4l2_device := "/dev/video0"%string |} with
  | inr code => (ReturnInArguments, code)
  | inl o => (main_startup o env, 0)
  end.

(* ================================================================== *)
(** * Part I, continued. More of the code *)
(* ================================================================== *)

(** ** Reading the converted buffer *)

(** Byte [j] (0 to 3) of the four bytes [Y0, U, Y1, V] of a pair. *)
Definition yuyv_byte (q : Z * Z * Z * Z) (j : Z) : Z :=
  let '(y0, u, y1, v) := q in
  if j =? 0 then y0 else if j =? 1 then u else if j =? 2 then y1 else v.

(** ** Test pattern ([generate_color_bars_yuyv], [generate_color_bars_xrgb32]) *)

(** [int bar = x / bar_width; if (bar >= 8) bar = 7;] for a [bar_width]
    that is not 0. *)
Definition bar_of (bar_width x : Z) : Z :=
  let bar := Z.quot x bar_width in
  if bar >=? 8 then 7 else bar.

(** [uint8_t colors[8][4]] of [generate_color_bars_yuyv]: (Y, U, Y, V) of
    white, yellow, cyan, green, magenta, red, blue, black. *)
Definition colors_yuyv : list (Z * Z * Z * Z) :=
  [(235, 128, 235, 128); (210, 16, 210, 146); (170, 166, 170, 16); (145, 54, 145, 34);
   (106, 202, 106, 222); (81, 90, 81, 240); (41, 240, 41, 110); (16, 128, 16, 128)].

(** One iteration of the inner loop of [generate_color_bars_yuyv]: the four
    stores at [dst_idx = (y * width + x) * 2], or [None] for the integer
    division by a [bar_width] of 0. *)
Definition bars_pair_yuyv (bar_width width y x : Z) : option (list (Z * Z)) :=
  if bar_width =? 0 then None
  else
    let bar := bar_of bar_width x in
    let dst_idx := (y * width + x) * 2 in
    let '(c0, c1, c2, c3) := nth (Z.to_nat bar) colors_yuyv (0, 0, 0, 0) in
    Some [(dst_idx + 0, c0); (dst_idx + 1, c1); (dst_idx + 2, c2); (dst_idx + 3, c3)].

(** The inner loop [for (int x = 0; x < width; x += 2)] over the values
    [xs] of [x]. *)
Fixpoint bars_cols_yuyv (bar_width width y : Z) (xs : list Z) : option (list (Z * Z)) :=
  match xs with
  | [] => Some []
  | x :: xs' =>
      match bars_pair_yuyv bar_width width y x with
      | None => None
      | Some ws =>
          match bars_cols_yuyv bar_width width y xs' with
          | None => None
          | Some rest => Some (ws ++ rest)
          end
      end
  end.

(** The outer loop [for (int y = 0; y < height; y++)] over the values [ys]
    of [y]. *)
Fixpoint bars_rows_yuyv (bar_width width : Z) (xs ys : list Z) : option (list (Z * Z)) :=
  match ys with
  | [] => Some []
  | y :: ys' =>
      match bars_cols_yuyv bar_width width y xs with
      | None => None
      | Some ws =>
          match bars_rows_yuyv bar_width width xs ys' with
          | None => None
          | Some rest => Some (ws ++ rest)
          end
      end
  end.

(** [generate_color_bars_yuyv(dst, width, height)]: [None] when it divides
    by zero, else the content of [dst] afterwards or a store outside it.
    [int bar_width = width / 8;] truncates. *)
Definition generate_color_bars_yuyv (dst : list Z) (width height : Z)
    : option (outcome (list Z)) :=
  match bars_rows_yuyv (Z.quot width 8) width (for_range 0 width 2) (for_range 0 height 1) with
  | None => None
  | Some ws => Some (store_all dst ws)
  end.

(** [uint32_t colors[8]] of [generate_color_bars_xrgb32]. *)
Definition colors_xrgb32 : list Z :=
  [0xFFFFFFFF; 0xFFFFFF00; 0xFF00FFFF; 0xFF00FF00;
   0xFFFF00FF; 0xFFFF0000; 0xFF0000FF; 0xFF000000].

(** The inner loop of [generate_color_bars_xrgb32], [x] stepping by 1: one
    32-bit store per pixel, at pixel index [y * width + x] of [dst] seen as
    an array of [uint32_t]. *)
Fixpoint bars_cols_xrgb32 (bar_width width y : Z) (xs : list Z) : option (list (Z * Z)) :=
  match xs with
  | [] => Some []
  | x :: xs' =>
      if bar_width =? 0 then None
      else
        match bars_cols_xrgb32 bar_width width y xs' with
        | None => None
        | Some rest =>
            Some ((y * width + x, nth (Z.to_nat (bar_of bar_width x)) colors_xrgb32 0) :: rest)
        end
  end.

Fixpoint bars_rows_xrgb32 (bar_width width : Z) (xs ys : list Z) : option (list (Z * Z)) :=
  match ys with
  | [] => Some []
  | y :: ys' =>
      match bars_cols_xrgb32 bar_width width y xs with
      | None => None
      | Some ws =>
          match bars_rows_xrgb32 bar_width width xs ys' with
          | None => None
          | Some rest => Some (ws ++ rest)
          end
      end
  end.

(** [generate_color_bars_xrgb32(dst, width, height)], [dst] being the
    buffer as 32-bit pixels. *)
Definition generate_color_bars_xrgb32 (dst : list Z) (width height : Z)
    : option (outcome (list Z)) :=
  match bars_rows_xrgb32 (Z.quot width 8) width (for_range 0 width 1) (for_range 0 height 1) with
  | None => None
  | Some ws => Some (store_all dst ws)
  end.

(** ** Strided copy ([copy_frame_data_with_stride]) *)

(** [copy_frame_data_with_stride(dst, src, width, height, src_stride,
    dst_stride)]: the content of [dst] afterwards.  All four numbers are
    [uint32_t]; [copy_width] is [width] or [dst_stride], whichever is
    smaller, in bytes. *)
Definition copy_frame_data_with_stride (dst : list Z) (src : pointer)
    (width height src_stride dst_stride : Z) : outcome (list Z) :=
  let copy_width := if width <? dst_stride then width else dst_stride in
  store_all dst
    (flat_map (fun y => memcpy_writes src (wrap32 (y * dst_stride))
                                      (wrap32 (y * src_stride)) copy_width)
              (for_range 0 height 1)).

(** ** Observations on runs *)

(** Whether a call ended in the frame-skip branch. *)
Definition is_skipped (fx : effects) : bool :=
  match ended fx with
  | Skipped => true
  | _ => false
  end.

(** The scratch buffer agrees with the negotiated geometry: once a format
    is set, [conversion_buffer] is allocated with
    [conversion_buffer_size == width * height * 2] as
    [on_stream_param_changed] computes it. *)
Definition scratch_matches_geometry (d : app_data) : Prop :=
  format_set d = true ->
  conversion_buffer d = true /\
  conversion_buffer_size d = wrap32 (width d * height d) * 2.

(** A callback invocation in which the sink accepts any format it is asked
    to take and the scratch buffer can be reallocated. *)
Definition sink_accepts (ev : event) : Prop :=
  match ev with
  | Param e => ioctl_ok e = true /\ realloc_ok e = true
  | Process _ => True
  end.

(** ** Observations on the argument loop *)

(** The branch of the [if] chain in the argument loop of [main] that an
    argument takes. *)
Inductive arg_class := ColorBarsFlag | DebugFlag | HelpFlag | DevicePath | UnknownOption.

Definition classify (arg : string) : arg_class :=
  if String.eqb arg "--color-bars"%string || String.eqb arg "-c"%string then ColorBarsFlag
  else if String.eqb arg "--debug"%string || String.eqb arg "-v"%string then DebugFlag
  else if String.eqb arg "--help"%string || String.eqb arg "-h"%string then HelpFlag
  else if not_dash_first arg then DevicePath
  else UnknownOption.

Definition is_class (c : arg_class) (arg : string) : bool :=
  match classify arg, c with
  | ColorBarsFlag, ColorBarsFlag | DebugFlag, DebugFlag | HelpFlag, HelpFlag
  | DevicePath, DevicePath | UnknownOption, UnknownOption => true
  | _, _ => false
  end.

(** The options after arguments none of which leaves the loop: a flag is
    set if it was set before or is among them, and the device is the last
    device path among them, if any. *)
Definition options_after (args : list string) (o : options) : options :=
  {| opt_color_bars := opt_color_bars o || existsb (is_class ColorBarsFlag) args;
     opt_debug := opt_debug o || existsb (is_class DebugFlag) args;
     v4l2_device := last (filter (is_class DevicePath) args) (v4l2_device o) |}.

(** ** The GL import path ([gl_handler.c]) *)

(** What the GL code acquires and has to give back. *)
Inductive gl_resource :=
| CtxMemory       (* calloc / free *)
| EglDisplay      (* eglInitialize / eglTerminate *)
| EglSurface      (* eglCreatePbufferSurface / eglDestroySurface *)
| EglContext      (* eglCreateContext / eglDestroyContext *)
| GlFramebuffer   (* glGenFramebuffers / glDeleteFramebuffers *)
| EglImage        (* eglCreateImageKHR / eglDestroyImageKHR *)
| GlTexture.      (* glGenTextures / glDeleteTextures *)

(** The calls that took effect, in order. *)
Inductive gl_call :=
| Acquire (r : gl_resource)
| Release (r : gl_resource)
| MakeCurrent (context : bool)      (* eglMakeCurrent with the context, or with EGL_NO_CONTEXT *)
| BindFramebuffer (own : bool)      (* glBindFramebuffer(ctx->framebuffer), or (0) *)
| ReadPixels (width height : Z).    (* glReadPixels(0, 0, width, height, GL_RGBA, ...) *)

(** The fields of [struct gl_context] that the code branches on. *)
Record gl_context := {
  has_dma_buf_import : bool;
  framebuffer : Z
}.

(** The results of the calls [gl_context_create] makes. *)
Record gl_create_env := {
  calloc_ok : bool;
  get_display_ok : bool;          (* eglGetDisplay != EGL_NO_DISPLAY *)
  initialize_ok : bool;           (* eglInitialize *)
  dma_buf_import_ext : bool;      (* check_egl_extension(EGL_EXT_image_dma_buf_import) *)
  choose_config_ok : bool;        (* eglChooseConfig && num_configs != 0 *)
  create_surface_ok : bool;       (* eglCreatePbufferSurface != EGL_NO_SURFACE *)
  create_context_ok : bool;       (* eglCreateContext != EGL_NO_CONTEXT *)
  make_current_ok : bool;         (* eglMakeCurrent *)
  proc_addresses_ok : bool;       (* the three eglGetProcAddress results are non-NULL *)
  gen_framebuffer : Z             (* the name glGenFramebuffers stores, 0 if none *)
}.

(** [gl_context_create()]: the context, or [None] for NULL, and the calls
    made. *)
Definition gl_context_create (env : gl_create_env) : option gl_context * list gl_call :=
  if negb (calloc_ok env) then (None, [])
  else
    let t := [Acquire CtxMemory] in
    if negb (get_display_ok env) then (None, t ++ [Release CtxMemory])
    else if negb (initialize_ok env) then (None, t ++ [Release CtxMemory])
    else
      let t := t ++ [Acquire EglDisplay] in
      if negb (choose_config_ok env) then
        (None, t ++ [Release EglDisplay; Release CtxMemory])
      else if negb (create_surface_ok env) then
        (None, t ++ [Release EglDisplay; Release CtxMemory])
      else
        let t := t ++ [Acquire EglSurface] in
        if negb (create_context_ok env) then
          (None, t ++ [Release EglSurface; Release EglDisplay; Release CtxMemory])
        else
          let t := t ++ [Acquire EglContext] in
          if negb (make_current_ok env) then
            (None, t ++ [Release EglContext; Release EglSurface; Release EglDisplay;
                         Release CtxMemory])
          else
            let t := t ++ [MakeCurrent true] in
            if negb (proc_addresses_ok env) then
              (None, t ++ [MakeCurrent false; Release EglContext; Release EglSurface;
                           Release EglDisplay; Release CtxMemory])
            else
              (Some {| has_dma_buf_import := dma_buf_import_ext env;
                       framebuffer := gen_framebuffer env |},
               t ++ (if gen_framebuffer env =? 0 then [] else [Acquire GlFramebuffer])).

(** [gl_context_destroy(ctx)]; [None] is a NULL [ctx]. *)
Definition gl_context_destroy (ctx : option gl_context) : list gl_call :=
  match ctx with
  | None => []
  | Some ctx =>
      [MakeCurrent true]
      ++ (if framebuffer ctx =? 0 then [] else [Release GlFramebuffer])
      ++ [MakeCurrent false; Release EglContext; Release EglSurface; Release EglDisplay;
          Release CtxMemory]
  end.

(** The results of the calls [gl_import_dma_buffer] makes. *)
Record gl_import_env := {
  import_make_current_ok : bool;  (* eglMakeCurrent *)
  create_image_ok : bool;         (* eglCreateImageKHR != EGL_NO_IMAGE_KHR *)
  image_target_ok : bool;         (* glGetError() == GL_NO_ERROR after glEGLImageTargetTexture2DOES *)
  framebuffer_complete : bool;    (* glCheckFramebufferStatus == GL_FRAMEBUFFER_COMPLETE *)
  read_pixels_ok : bool           (* glGetError() == GL_NO_ERROR after glReadPixels *)
}.

(** [gl_import_dma_buffer(ctx, dma_fd, width, height, stride, offset,
    fourcc, out_buffer, out_buffer_size)]: the value returned and the calls
    made.  [out_buffer] is whether the pointer is non-NULL; [stride],
    [offset] and [fourcc] only go into the attribute list. *)
Definition gl_import_dma_buffer (ctx : option gl_context) (dma_fd width height : Z)
    (out_buffer : bool) (out_buffer_size : Z) (env : gl_import_env) : bool * list gl_call :=
  match ctx with
  | None => (false, [])
  | Some ctx =>
      if negb (has_dma_buf_import ctx) || (dma_fd <? 0) || negb out_buffer then (false, [])
      else if negb (import_make_current_ok env) then (false, [])
      else
        let t := [MakeCurrent true] in
        if negb (create_image_ok env) then (false, t)
        else
          let t := t ++ [Acquire EglImage; Acquire GlTexture] in
          let cleanup := [Release GlTexture; Release EglImage] in
          if negb (image_target_ok env) then (false, t ++ cleanup)
          else
            let t := t ++ [BindFramebuffer true] in
            let cleanup := BindFramebuffer false :: cleanup in
            if negb (framebuffer_complete env) then (false, t ++ cleanup)
            else
              let expected_size := wrap32 (width * height * 4) in
              if out_buffer_size <? expected_size then (false, t ++ cleanup)
              else
                let t := t ++ [ReadPixels width height] in
                if negb (read_pixels_ok env) then (false, t ++ cleanup)
                else (true, t ++ cleanup)
  end.

(** [gl_has_dma_buf_import_support(ctx)] *)
Definition gl_has_dma_buf_import_support (ctx : option gl_context) : bool :=
  match ctx with
  | None => false
  | Some ctx => has_dma_buf_import ctx
  end.

Definition gl_resource_eqb (a b : gl_resource) : bool :=
  match a, b with
  | CtxMemory, CtxMemory | EglDisplay, EglDisplay | EglSurface, EglSurface
  | EglContext, EglContext | GlFramebuffer, GlFramebuffer | EglImage, EglImage
  | GlTexture, GlTexture => true
  | _, _ => false
  end.

(** The resources held after the calls [t], most recent first, starting
    from [held]; [None] if a call releases anything but the most recently
    acquired resource still held. *)
Fixpoint held_after (t : list gl_call) (held : list gl_resource) : option (list gl_resource) :=
  match t with
  | [] => Some held
  | Acquire r :: t' => held_after t' (r :: held)
  | Release r :: t' =>
      match held with
      | r' :: held' => if gl_resource_eqb r r' then held_after t' held' else None
      | [] => None
      end
  | _ :: t' => held_after t' held
  end.

(** The framebuffer binding after the calls [t]: [true] for the context's
    own framebuffer, [false] for the default one. *)
Fixpoint bound_after (t : list gl_call) (bound : bool) : bool :=
  match t with
  | [] => bound
  | BindFramebuffer own :: t' => bound_after t' own
  | _ :: t' => bound_after t' bound
  end.

(** ** The portal handshake ([portal.c] and the portal callbacks of [main.c]) *)

Module Portal.

(** The fields the handshake reads and writes: of [PortalSession], of the
    data attached to [session->portal_proxy], and of [struct app_data]. *)
Record state := {
  (* g_object_get_data(G_OBJECT(session->portal_proxy), ...) != NULL *)
  create_session_callback : bool;
  select_sources_callback : bool;
  start_session_callback : bool;
  (* PortalSession *)
  session_handle : bool;          (* session->session_handle != NULL *)
  node_id : Z;
  pipewire_fd : Z;
  session_active : bool;
  main_loop_quit : bool;          (* portal_quit_main_loop(session) was called *)
  (* struct app_data *)
  data_node_id : Z;               (* data->node_id *)
  loop : bool;                    (* data->loop != NULL *)
  context : bool;                 (* data->context != NULL *)
  core : bool;                    (* data->core != NULL *)
  stream : bool;                  (* data->stream != NULL *)
  stream_ready : bool;
  portal_ready : bool;
  pw_loop_quit : bool             (* pw_main_loop_quit(data->loop) was called *)
}.

(** What [g_dbus_proxy_call_with_unix_fd_list_sync] and
    [g_unix_fd_list_get] give [portal_open_pipewire_remote]. *)
Inductive open_result :=
| OpenError                 (* the call set error *)
| OpenNoFdList              (* !(result && fd_list) *)
| OpenFdError               (* g_unix_fd_list_get set error and returned -1 *)
| OpenFd (fd : Z).

(** One [Response] signal: its parameters and the results of the calls
    made while it is handled (each is used only if the call is reached). *)
Record response := {
  code : Z;                       (* response *)
  streams : option (option Z);    (* no "streams" entry; Some None: an empty array;
                                     Some (Some id): the node id of its first stream *)
  select_sources_ok : bool;       (* the SelectSources call set no error *)
  start_ok : bool;                (* the Start call set no error *)
  open_remote : open_result;
  loop_new_ok : bool;             (* pw_main_loop_new != NULL *)
  context_new_ok : bool;          (* pw_context_new != NULL *)
  connect_fd_ok : bool;           (* pw_context_connect_fd != NULL *)
  stream_new_ok : bool;           (* pw_stream_new != NULL *)
  stream_connect_ok : bool        (* pw_stream_connect >= 0 *)
}.

Inductive signal :=
| Response (r : response)
| Closed.

Definition set_callbacks (st : state) (create select start : bool) : state :=
  {| create_session_callback := create; select_sources_callback := select;
     start_session_callback := start; session_handle := session_handle st;
     node_id := node_id st; pipewire_fd := pipewire_fd st;
     session_active := session_active st; main_loop_quit := main_loop_quit st;
     data_node_id := data_node_id st; loop := loop st; context := context st;
     core := core st; stream := stream st; stream_ready := stream_ready st;
     portal_ready := portal_ready st; pw_loop_quit := pw_loop_quit st |}.

Definition set_session (st : state) (id fd : Z) (active quit : bool) : state :=
  {| create_session_callback := create_session_callback st;
     select_sources_callback := select_sources_callback st;
     start_session_callback := start_session_callback st;
     session_handle := session_handle st;
     node_id := id; pipewire_fd := fd; session_active := active; main_loop_quit := quit;
     data_node_id := data_node_id st; loop := loop st; context := context st;
     core := core st; stream := stream st; stream_ready := stream_ready st;
     portal_ready := portal_ready st; pw_loop_quit := pw_loop_quit st |}.

Definition set_pipewire (st : state) (l c k s ready : bool) : state :=
  {| create_session_callback := create_session_callback st;
     select_sources_callback := select_sources_callback st;
     start_session_callback := start_session_callback st;
     session_handle := session_handle st;
     node_id := node_id st; pipewire_fd := pipewire_fd st;
     session_active := session_active st; main_loop_quit := main_loop_quit st;
     data_node_id := data_node_id st; loop := l; context := c;
     core := k; stream := s; stream_ready := ready;
     portal_ready := portal_ready st; pw_loop_quit := pw_loop_quit st |}.

Definition set_data (st : state) (id : Z) (ready pw_quit : bool) : state :=
  {| create_session_callback := create_session_callback st;
     select_sources_callback := select_sources_callback st;
     start_session_callback := start_session_callback st;
     session_handle := session_handle st;
     node_id := node_id st; pipewire_fd := pipewire_fd st;
     session_active := session_active st; main_loop_quit := main_loop_quit st;
     data_node_id := id; loop := loop st; context := context st;
     core := core st; stream := stream st; stream_ready := stream_ready st;
     portal_ready := ready; pw_loop_quit := pw_quit |}.

(** [portal_quit_main_loop(session)], called from a handler that the
    running loop dispatched. *)
Definition portal_quit_main_loop (st : state) : state :=
  set_session st (node_id st) (pipewire_fd st) (session_active st) true.

(** [setup_pipewire_stream(data, pipewire_fd, node_id) >= 0] *)
Definition setup_pipewire_stream (st : state) (r : response) : state * bool :=
  let st := set_pipewire st (loop st) (context_new_ok r) (core st) (stream st)
              (stream_ready st) in
  if negb (context st) then (st, false)
  else
    let st := set_pipewire st (loop st) (context st) (connect_fd_ok r) (stream st)
                (stream_ready st) in
    if negb (core st) then (st, false)
    else
      let st := set_pipewire st (loop st) (context st) (core st) (stream_new_ok r)
                  (stream_ready st) in
      if negb (stream st) then (st, false)
      else if negb (stream_connect_ok r) then (st, false)
      else (set_pipewire st (loop st) (context st) (core st) (stream st) true, true).

(** [on_pipewire_ready] *)
Definition on_pipewire_ready (st : state) (r : response) : state :=
  let st := set_pipewire st (loop_new_ok r) (context st) (core st) (stream st)
              (stream_ready st) in
  if negb (loop st) then portal_quit_main_loop st
  else
    let '(st, ok) := setup_pipewire_stream st r in
    if negb ok then portal_quit_main_loop st
    else
      portal_quit_main_loop (set_data st (data_node_id st) true (pw_loop_quit st)).

(** [portal_open_pipewire_remote(session, on_pipewire_ready, user_data)] *)
Definition portal_open_pipewire_remote (st : state) (r : response) : state * bool :=
  if negb (session_handle st) then (st, false)
  else
    match open_remote r with
    | OpenError => (st, false)
    | OpenNoFdList => (st, false)
    | OpenFdError =>
        (set_session st (node_id st) (-1) (session_active st) (main_loop_quit st), false)
    | OpenFd fd =>
        let st := set_session st (node_id st) fd (session_active st) (main_loop_quit st) in
        (on_pipewire_ready st r, true)
    end.

(** [on_session_started] *)
Definition on_session_started (st : state) (id : Z) (r : response) : state :=
  let st := set_data st id (portal_ready st) (pw_loop_quit st) in
  let '(st, ok) := portal_open_pipewire_remote st r in
  if negb ok then portal_quit_main_loop st else st.

(** [portal_start_session(session, on_session_started, user_data)] *)
Definition portal_start_session (st : state) (r : response) : state * bool :=
  if negb (session_handle st) then (st, false)
  else
    (set_callbacks st (create_session_callback st) (select_sources_callback st) true,
     start_ok r).

(** [on_sources_selected(session, true, user_data)] *)
Definition on_sources_selected (st : state) (r : response) : state :=
  let '(st, ok) := portal_start_session st r in
  if negb ok then portal_quit_main_loop st else st.

(** [portal_select_sources(session, on_sources_selected, user_data)] *)
Definition portal_select_sources (st : state) (r : response) : state * bool :=
  if negb (session_handle st) then (st, false)
  else
    (set_callbacks st (create_session_callback st) true (start_session_callback st),
     select_sources_ok r).

(** [on_session_created(session, true, user_data)] *)
Definition on_session_created (st : state) (r : response) : state :=
  let '(st, ok) := portal_select_sources st r in
  if negb ok then portal_quit_main_loop st else st.

(** [on_request_response] *)
Definition on_request_response (st : state) (r : response) : state :=
  if negb (code r =? 0) then portal_quit_main_loop st
  else
    match streams r with
    | Some first =>
        match first with
        | Some id =>
            let st := set_session st id (pipewire_fd st) true (main_loop_quit st) in
            if start_session_callback st then on_session_started st id r else st
        | None => st
        end
    | None =>
        if create_session_callback st then
          let st := on_session_created st r in
          set_callbacks st false (select_sources_callback st) (start_session_callback st)
        else if select_sources_callback st then
          let st := on_sources_selected st r in
          set_callbacks st (create_session_callback st) false (start_session_callback st)
        else st
    end.

(** [on_session_closed], with [on_portal_session_closed] as the callback
    that [setup_pipewire_via_portal] registered. *)
Definition on_session_closed (st : state) : state :=
  let st := set_session st (node_id st) (pipewire_fd st) false (main_loop_quit st) in
  let st := if loop st then set_data st (data_node_id st) (portal_ready st) true else st in
  portal_quit_main_loop st.

Definition handle (st : state) (s : signal) : state :=
  match s with
  | Response r => on_request_response st r
  | Closed => on_session_closed st
  end.

(** The handlers run one after the other on the loop's thread. *)
Definition handle_all (st : state) (signals : list signal) : state :=
  fold_left handle signals st.

(** The state when [setup_pipewire_via_portal] has returned 0:
    [portal_session_new] and [portal_create_session] succeeded on
    [struct app_data data = {0}]. *)
Definition created : state :=
  {| create_session_callback := true; select_sources_callback := false;
     start_session_callback := false; session_handle := true;
     node_id := 0; pipewire_fd := -1; session_active := false; main_loop_quit := false;
     data_node_id := 0; loop := false; context := false; core := false;
     stream := false; stream_ready := false; portal_ready := false;
     pw_loop_quit := false |}.

(** The number of [Response] signals with response code 0. *)
Definition granted (signals : list signal) : Z :=
  Z.of_nat (length (filter (fun s => match s with
                                     | Response r => code r =? 0
                                     | Closed => false
                                     end) signals)).

(** How far the handshake has come: the callbacks registered so far. *)
Definition stage (st : state) : Z :=
  if portal_ready st then 3
  else if start_session_callback st then 2
  else if select_sources_callback st then 1
  else 0.

(** A response with code 0 that carries one stream, while every call made
    to handle it succeeds. *)
Definition granted_response (first : option (option Z)) (fd : Z) : response :=
  {| code := 0; streams := first; select_sources_ok := true; start_ok := true;
     open_remote := OpenFd fd; loop_new_ok := true; context_new_ok := true;
     connect_fd_ok := true; stream_new_ok := true; stream_connect_ok := true |}.

(** What holds of the state between two signals, from [created] on. *)
Definition handshake_invariant (st : state) : Prop :=
  session_handle st = true /\
  (main_loop_quit st = false ->
   portal_ready st = false /\ loop st = false /\ stream_ready st = false /\
   (create_session_callback st, select_sources_callback st, start_session_callback st) =
     (stage st =? 0, stage st =? 1, stage st =? 2)) /\
  (portal_ready st = true ->
   main_loop_quit st = true /\ stream_ready st = true /\
   start_session_callback st = true /\ data_node_id st = node_id st).

End Portal.

(* ================================================================== *)
(** * Part II. Properties *)
(* ================================================================== *)

(** ** Counted loops and machine arithmetic *)

Section Loops.

Lemma for_range_nil (lo hi step : Z) :
  0 < step -> hi <= lo -> for_range lo hi step = [].
Proof.
  intros Hs Hle. unfold for_range.
  replace (Z.to_nat ((hi - lo + step - 1) / step)) with O; [reflexivity|].
  assert ((hi - lo + step - 1) / step <= 0).
  { apply Z.lt_succ_r. apply Z.div_lt_upper_bound; lia. }
  lia.
Qed.

Lemma for_range_cons (lo hi step : Z) :
  0 < step -> lo < hi ->
  for_range lo hi step = lo :: for_range (lo + step) hi step.
Proof.
  intros Hs Hlt. unfold for_range.
  replace (hi - lo + step - 1) with ((hi - (lo + step) + step - 1) + 1 * step) by lia.
  rewrite Z.div_add by lia.
  assert (0 <= (hi - (lo + step) + step - 1) / step) by (apply Z.div_pos; lia).
  rewrite Z2Nat.inj_add by lia.
  change (Z.to_nat 1) with 1%nat. rewrite Nat.add_1_r. cbn [seq map].
  f_equal; [lia|].
  rewrite <- seq_shift, map_map. apply map_ext. intros k. lia.
Qed.

Lemma for_range_length (lo hi step : Z) :
  length (for_range lo hi step) = Z.to_nat ((hi - lo + step - 1) / step).
Proof. unfold for_range. now rewrite length_map, length_seq. Qed.

Lemma for_range_nth (lo hi step : Z) (k : nat) (d : Z) :
  (k < length (for_range lo hi step))%nat ->
  nth k (for_range lo hi step) d = lo + step * Z.of_nat k.
Proof.
  rewrite for_range_length. intros Hk. unfold for_range.
  set (f := fun k => lo + step * Z.of_nat k).
  rewrite nth_indep with (d' := f O) by now rewrite length_map, length_seq.
  rewrite map_nth, seq_nth by assumption. reflexivity.
Qed.

Lemma for_range_unit (n : Z) :
  for_range 0 n 1 = map Z.of_nat (seq 0 (Z.to_nat n)).
Proof.
  unfold for_range. replace (n - 0 + 1 - 1) with n by lia. rewrite Z.div_1_r.
  apply map_ext. intros k. lia.
Qed.

Lemma for_range_In (lo hi step i : Z) :
  0 < step -> In i (for_range lo hi step) ->
  lo <= i < hi /\ (i - lo) mod step = 0.
Proof.
  intros Hs. unfold for_range. rewrite in_map_iff. intros (k & <- & Hk).
  apply in_seq in Hk.
  assert (Hlt : Z.of_nat k < (hi - lo + step - 1) / step) by lia.
  assert (Hmul : step * (Z.of_nat k + 1) <= hi - lo + step - 1).
  { transitivity (step * ((hi - lo + step - 1) / step)).
    - apply Z.mul_le_mono_nonneg_l; lia.
    - apply Z.mul_div_le. lia. }
  split; [nia|].
  replace (lo + step * Z.of_nat k - lo) with (Z.of_nat k * step) by lia.
  apply Z.mod_mul. lia.
Qed.

Lemma wrap32_small (z : Z) : 0 <= z < 2 ^ 32 -> wrap32 z = z.
Proof. intros H. unfold wrap32. now apply Z.mod_small. Qed.

Lemma wrap32_range (z : Z) : 0 <= wrap32 z < 2 ^ 32.
Proof. unfold wrap32. apply Z.mod_pos_bound. lia. Qed.

Lemma wrap32_le (z : Z) : 0 <= z -> wrap32 z <= z.
Proof. intros H. unfold wrap32. apply Z.mod_le; lia. Qed.

End Loops.

(** ** Stride resolution *)

Section StrideResolution.

Variables (w h fmt : Z) (c : spa_chunk).

Lemma bytes_per_pixel_cases :
  bytes_per_pixel fmt = 3 /\ (fmt = 15 \/ fmt = 16) \/
  bytes_per_pixel fmt = 4 /\ fmt <> 15 /\ fmt <> 16.
Proof.
  unfold bytes_per_pixel.
  destruct (Z.eqb_spec fmt 15), (Z.eqb_spec fmt 16); cbn; lia.
Qed.

Lemma actual_stride_clamped : min_stride w fmt <= actual_stride w h fmt c.
Proof.
  unfold actual_stride.
  match goal with |- context [if ?a <? ?b then _ else _] => destruct (Z.ltb_spec a b) end; lia.
Qed.

(** C5.  With the tightly packed row size [width * bytes_per_pixel]
    representable as a [uint32_t], the stride used for a delivered buffer is
    the declared chunk stride when that is positive, else
    [chunk size / height] when the height and the chunk size are positive,
    else [width * bytes_per_pixel]; in each case raised to at least
    [width * bytes_per_pixel], where [bytes_per_pixel] is 3 for the 24-bit
    formats (15 and 16) and 4 for every other format. *)
Theorem stride_resolution_order
    (Hfit : 0 <= w * bytes_per_pixel fmt < 2 ^ 32) :
  let packed_row := w * bytes_per_pixel fmt in
  bytes_per_pixel fmt = (if (fmt =? 15) || (fmt =? 16) then 3 else 4) /\
  (0 < chunk_stride c ->
     actual_stride w h fmt c = Z.max (chunk_stride c) packed_row) /\
  (chunk_stride c <= 0 -> 0 < h -> 0 < chunk_size c ->
     actual_stride w h fmt c = Z.max (chunk_size c / h) packed_row) /\
  (chunk_stride c <= 0 -> h <= 0 \/ chunk_size c <= 0 ->
     actual_stride w h fmt c = packed_row) /\
  packed_row <= actual_stride w h fmt c.
Proof.
  intros packed_row.
  assert (Hmin : min_stride w fmt = packed_row)
    by (unfold min_stride; now apply wrap32_small).
  split; [reflexivity|].
  repeat split.
  - intros Hs. unfold actual_stride. rewrite Hmin.
    destruct (Z.gtb_spec (chunk_stride c) 0); [|lia].
    destruct (Z.ltb_spec (chunk_stride c) packed_row); lia.
  - intros Hs Hh Hsz. unfold actual_stride. rewrite Hmin.
    destruct (Z.gtb_spec (chunk_stride c) 0); [lia|].
    destruct (Z.gtb_spec h 0); [|lia].
    destruct (Z.gtb_spec (chunk_size c) 0); [|lia]. cbn [andb].
    destruct (Z.ltb_spec (chunk_size c / h) packed_row); lia.
  - intros Hs Hor. unfold actual_stride. rewrite Hmin.
    destruct (Z.gtb_spec (chunk_stride c) 0); [lia|].
    destruct (Z.gtb_spec h 0), (Z.gtb_spec (chunk_size c) 0); cbn [andb];
      try lia; now rewrite Z.ltb_irrefl.
  - rewrite <- Hmin. apply actual_stride_clamped.
Qed.

End StrideResolution.

(** A 1280-pixel BGRx row with a declared stride of 5184 bytes. *)
Lemma stride_resolution_order_witness :
  actual_stride 1280 720 8 {| chunk_offset := 0; chunk_size := 3732480; chunk_stride := 5184 |}
    = Z.max 5184 (1280 * bytes_per_pixel 8).
Proof.
  refine (proj1 (proj2 (stride_resolution_order 1280 720 8
            {| chunk_offset := 0; chunk_size := 3732480; chunk_stride := 5184 |} _)) _).
  - vm_compute. split; [discriminate | reflexivity].
  - cbn. lia.
Defined.

(** ** Stores into a sized buffer *)

Section Stores.

Lemma replace_nth_length (n : nat) (v : Z) (buf : list Z) :
  length (replace_nth n v buf) = length buf.
Proof.
  revert n. induction buf as [|hd tl IH]; intros [|n]; cbn; auto.
Qed.

Lemma replace_nth_same (n : nat) (v d : Z) (buf : list Z) :
  (n < length buf)%nat -> nth n (replace_nth n v buf) d = v.
Proof.
  revert n. induction buf as [|hd tl IH]; intros [|n]; cbn; intros H; try lia; auto.
  apply IH. lia.
Qed.

Lemma replace_nth_other (n m : nat) (v d : Z) (buf : list Z) :
  n <> m -> nth m (replace_nth n v buf) d = nth m buf d.
Proof.
  revert n m. induction buf as [|hd tl IH]; intros [|n] [|m]; cbn; intros H;
    try reflexivity; try lia.
  apply IH. lia.
Qed.

Lemma store_Ok (buf buf' : list Z) (off v : Z) :
  store buf off v = Ok buf' ->
  0 <= off < Z.of_nat (length buf) /\ buf' = replace_nth (Z.to_nat off) v buf.
Proof.
  unfold store.
  destruct (Z.leb_spec 0 off), (Z.ltb_spec off (Z.of_nat (length buf)));
    cbn; intros E; inversion E; subst; auto.
Qed.

Lemma store_in_bounds (buf : list Z) (off v : Z) :
  0 <= off < Z.of_nat (length buf) ->
  store buf off v = Ok (replace_nth (Z.to_nat off) v buf).
Proof.
  intros H. unfold store.
  destruct (Z.leb_spec 0 off), (Z.ltb_spec off (Z.of_nat (length buf))); cbn; auto; lia.
Qed.

Lemma store_all_length (ws : list (Z * Z)) (buf buf' : list Z) :
  store_all buf ws = Ok buf' -> length buf' = length buf.
Proof.
  revert buf. induction ws as [|[off v] ws IH]; cbn; intros buf E.
  - now inversion E.
  - destruct (store buf off v) as [b1|] eqn:E1; cbn in E; [|discriminate].
    apply store_Ok in E1 as [_ ->].
    rewrite (IH _ E). apply replace_nth_length.
Qed.

(** Stores that all fall inside the buffer succeed. *)
Lemma store_all_in_bounds (ws : list (Z * Z)) (buf : list Z) :
  (forall off v, In (off, v) ws -> 0 <= off < Z.of_nat (length buf)) ->
  exists buf', store_all buf ws = Ok buf'.
Proof.
  revert buf. induction ws as [|[off v] ws IH]; cbn; intros buf H.
  - eauto.
  - rewrite store_in_bounds by eauto. cbn.
    apply IH. intros off' v' Hin. rewrite replace_nth_length. eauto.
Qed.

(** One store outside the buffer makes the whole sequence fail. *)
Lemma store_all_out_of_bounds (ws : list (Z * Z)) (buf : list Z) (off v : Z) :
  In (off, v) ws -> Z.of_nat (length buf) <= off ->
  store_all buf ws = OutOfBounds.
Proof.
  revert buf. induction ws as [|[off1 v1] ws IH]; cbn; intros buf Hin Hle; [easy|].
  destruct (store buf off1 v1) as [b1|] eqn:E1; cbn; [|reflexivity].
  destruct Hin as [Heq|Hin].
  - inversion Heq; subst. apply store_Ok in E1. lia.
  - apply store_Ok in E1 as [_ ->]. apply IH; [assumption|].
    now rewrite replace_nth_length.
Qed.

(** A byte no store addresses keeps its value. *)
Lemma store_all_untouched (ws : list (Z * Z)) (buf buf' : list Z) (off d : Z) :
  store_all buf ws = Ok buf' -> 0 <= off ->
  ~ In off (map fst ws) ->
  nth (Z.to_nat off) buf' d = nth (Z.to_nat off) buf d.
Proof.
  revert buf. induction ws as [|[off1 v1] ws IH]; cbn; intros buf E Hoff Hnot.
  - now inversion E.
  - destruct (store buf off1 v1) as [b1|] eqn:E1; cbn in E; [|discriminate].
    apply store_Ok in E1 as [Hb ->].
    rewrite (IH _ E) by tauto.
    apply replace_nth_other. intros Heq. apply Hnot. left. lia.
Qed.

(** When every store to an offset carries the same byte, the buffer holds
    that byte there afterwards. *)
Lemma store_all_content (ws : list (Z * Z)) (buf buf' : list Z) (off v d : Z) :
  store_all buf ws = Ok buf' ->
  In (off, v) ws ->
  (forall v', In (off, v') ws -> v' = v) ->
  nth (Z.to_nat off) buf' d = v.
Proof.
  revert buf. induction ws as [|[off1 v1] ws IH]; cbn; intros buf E Hin Hfun; [easy|].
  destruct (store buf off1 v1) as [b1|] eqn:E1; cbn in E; [|discriminate].
  destruct (in_dec Z.eq_dec off (map fst ws)) as [Hlater|Hnot].
  - apply in_map_iff in Hlater as ([o' v'] & Ho & Hin'). cbn in Ho. subst o'.
    assert (v' = v) by (apply Hfun; now right). subst v'.
    apply (IH b1); auto.
  - destruct Hin as [Heq|Hin].
    + inversion Heq; subst off1 v1.
      apply store_Ok in E1 as [Hb ->].
      rewrite (store_all_untouched _ _ _ _ d E) by (lia || assumption).
      apply replace_nth_same. lia.
    + exfalso. apply Hnot. apply in_map_iff. now exists (off, v).
Qed.

End Stores.

(** ** Stride depadding *)

Section Depadding.

Lemma for_range_unit_In (n i : Z) : In i (for_range 0 n 1) <-> 0 <= i < n.
Proof.
  rewrite for_range_unit, in_map_iff. split.
  - intros (k & <- & Hk). apply in_seq in Hk. lia.
  - intros Hi. exists (Z.to_nat i). split; [lia|]. apply in_seq. lia.
Qed.

Variables (src : pointer) (w h stride bpp : Z).
Hypothesis Hw : 0 <= w.
Hypothesis Hbpp : 0 <= bpp.
Hypothesis Hh : 0 <= h.
Hypothesis Hpad : w * bpp < stride.
Hypothesis Hfit : h * stride < 2 ^ 32.

(** The stores of the row loop, once no product wraps. *)
Lemma packed_writes_In (off v : Z) :
  In (off, v)
     (flat_map (fun y => memcpy_writes src (wrap32 (y * wrap32 (w * bpp)))
                                       (wrap32 (y * stride)) (wrap32 (w * bpp)))
               (for_range 0 h 1)) <->
  exists y i, 0 <= y < h /\ 0 <= i < w * bpp /\
              off = y * (w * bpp) + i /\ v = src (y * stride + i).
Proof.
  assert (Hps : 0 <= w * bpp) by nia.
  rewrite in_flat_map. split.
  - intros (y & Hy & Hin). apply for_range_unit_In in Hy.
    assert (Hstride : stride < 2 ^ 32) by nia.
    rewrite (wrap32_small (w * bpp)) in Hin by lia.
    rewrite (wrap32_small (y * (w * bpp))), (wrap32_small (y * stride)) in Hin by nia.
    unfold memcpy_writes in Hin. apply in_map_iff in Hin as (i & Heq & Hi).
    apply for_range_unit_In in Hi. inversion Heq; subst.
    exists y, i. auto.
  - intros (y & i & Hy & Hi & -> & ->). exists y. split; [now apply for_range_unit_In|].
    assert (Hstride : stride < 2 ^ 32) by nia.
    rewrite (wrap32_small (w * bpp)) by lia.
    rewrite (wrap32_small (y * (w * bpp))), (wrap32_small (y * stride)) by nia.
    unfold memcpy_writes. apply in_map_iff. exists i. split; [reflexivity|].
    now apply for_range_unit_In.
Qed.

(** C9.  For a source whose row stride strictly exceeds
    [width * bytes_per_pixel] (the condition under which [on_stream_process]
    calls [create_packed_buffer]), with [height * stride] representable as
    a [uint32_t] and the allocation succeeding, [create_packed_buffer]
    returns a buffer of exactly [width * height * bytes_per_pixel] bytes
    whose byte at [y * (width * bytes_per_pixel) + i] is the source byte at
    [y * stride + i], for every row [y] and every [i] below
    [width * bytes_per_pixel]. *)
Theorem packed_buffer_depadding :
  exists packed,
    create_packed_buffer true src w h stride bpp = Ok (Some packed) /\
    Z.of_nat (length packed) = w * h * bpp /\
    forall y i, 0 <= y < h -> 0 <= i < w * bpp ->
      nth (Z.to_nat (y * (w * bpp) + i)) packed 0 = src (y * stride + i).
Proof.
  assert (Hps : 0 <= w * bpp) by nia.
  unfold create_packed_buffer. cbn [negb].
  set (ws := flat_map _ _).
  assert (Hsize : wrap32 (wrap32 (w * bpp) * h) = w * bpp * h).
  { destruct (Z.eq_dec h 0) as [->|Hnz].
    - now rewrite !Z.mul_0_r.
    - assert (stride < 2 ^ 32) by nia.
      rewrite (wrap32_small (w * bpp)) by lia. apply wrap32_small. nia. }
  rewrite Hsize.
  destruct (store_all_in_bounds ws (repeat 0 (Z.to_nat (w * bpp * h)))) as [packed Hp].
  { intros off v Hin. apply packed_writes_In in Hin as (y & i & Hy & Hi & -> & _).
    rewrite repeat_length. nia. }
  exists packed. rewrite Hp. cbn. split; [reflexivity|]. split.
  - rewrite (store_all_length _ _ _ Hp), repeat_length. nia.
  - intros y i Hy Hi.
    apply (store_all_content ws _ _ _ _ 0 Hp).
    + apply packed_writes_In. exists y, i. auto.
    + intros v' Hin. apply packed_writes_In in Hin as (y' & i' & Hy' & Hi' & Heq & ->).
      assert (y' = y) by nia. subst y'. f_equal. lia.
Qed.

End Depadding.

(** Two rows of two BGRx pixels with four bytes of padding after each row. *)
Lemma packed_buffer_depadding_witness :
  exists packed,
    create_packed_buffer true (fun off => off) 2 2 12 4 = Ok (Some packed) /\
    Z.of_nat (length packed) = 2 * 2 * 4 /\
    forall y i, 0 <= y < 2 -> 0 <= i < 2 * 4 ->
      nth (Z.to_nat (y * (2 * 4) + i)) packed 0 = (fun off => off) (y * 12 + i).
Proof.
  apply (packed_buffer_depadding (fun off => off) 2 2 12 4); lia.
Defined.

(** ** BGRx to YUYV *)

Section BgrxPair.

Lemma u8_clamp255 (v : Z) : u8 (clamp255 v) = clamp_byte v.
Proof.
  unfold u8, clamp255, clamp_byte.
  destruct (Z.ltb_spec v 0); [rewrite Z.mod_small; lia|].
  destruct (Z.gtb_spec v 255); rewrite Z.mod_small; lia.
Qed.

Lemma clamp_byte_range (v : Z) : 0 <= clamp_byte v <= 255.
Proof. unfold clamp_byte. lia. Qed.

Lemma load_in_bounds (src : list Z) (off : Z) :
  0 <= off < Z.of_nat (length src) -> load src off = Ok (byte_at src off).
Proof.
  intros H. unfold load, byte_at.
  destruct (Z.ltb_spec off 0); [lia|].
  destruct (nth_error src (Z.to_nat off)) as [v|] eqn:E.
  - now rewrite (nth_error_nth _ _ _ E).
  - apply nth_error_None in E. lia.
Qed.

Variable src : list Z.
Hypothesis Hbytes : Forall (fun b => 0 <= b <= 255) src.

Lemma byte_at_range (off : Z) : 0 <= byte_at src off <= 255.
Proof.
  unfold byte_at. destruct (Nat.lt_ge_cases (Z.to_nat off) (length src)) as [Hlt|Hge].
  - rewrite Forall_forall in Hbytes. apply Hbytes. now apply nth_In.
  - rewrite nth_overflow by assumption. lia.
Qed.

Lemma load_bgr_in_bounds (row_start x : Z) :
  0 <= row_start -> 0 <= x ->
  row_start + 4 * x + 2 < Z.of_nat (length src) ->
  load_bgr src (row_start + x * 4) = Ok (bgr_sample src row_start x).
Proof.
  intros Hr Hx Hlen. unfold load_bgr, bgr_sample.
  replace (row_start + x * 4) with (row_start + 4 * x) by lia.
  rewrite !load_in_bounds by lia. reflexivity.
Qed.

(** One iteration of the inner loop computes what the specification says,
    from the sample at [x] and the one at [x + 1], or twice the one at [x]
    when [x] is the last column. *)
Lemma bgrx_pair_spec (row_start x width : Z) :
  0 <= row_start -> 0 <= x < width ->
  row_start + 4 * width <= Z.of_nat (length src) ->
  bgrx_pair src row_start x width =
    Ok (yuyv_of_pair (bgr_sample src row_start x)
          (if x + 1 <? width then bgr_sample src row_start (x + 1)
           else bgr_sample src row_start x)).
Proof.
  intros Hr Hx Hlen. unfold bgrx_pair.
  rewrite load_bgr_in_bounds by lia. cbn [obind].
  assert (Hq : forall a b, 0 <= a <= 255 -> 0 <= b <= 255 -> Z.quot (a + b) 2 = (a + b) / 2)
    by (intros; apply Z.quot_div_nonneg; lia).
  destruct (Z.ltb_spec (x + 1) width) as [Hlt|Hge].
  - rewrite load_bgr_in_bounds by lia.
    unfold bgr_sample, yuyv_of_pair. cbn [obind].
    rewrite !u8_clamp255, !Hq by apply byte_at_range. reflexivity.
  - unfold bgr_sample, yuyv_of_pair. cbn [obind].
    rewrite !u8_clamp255, !Hq by apply byte_at_range. reflexivity.
Qed.

End BgrxPair.

Section BgrxFrame.

Variable src : list Z.
Hypothesis Hbytes : Forall (fun b => 0 <= b <= 255) src.

Variables (width row_start : Z).
Hypothesis Hrow : 0 <= row_start.
Hypothesis Hlen : row_start + 4 * width <= Z.of_nat (length src).

(** The inner loop, from pair [a] on for [n] pairs. *)
Lemma bgrx_cols_spec (dst_row : Z) (n a : nat) :
  2 * Z.of_nat (a + n) <= width + 1 ->
  bgrx_cols src row_start width
    (map (fun k => 0 + 2 * Z.of_nat k) (seq a n)) (dst_row + 4 * Z.of_nat a) =
  Ok (flat_map (yuyv_pair_stores src width row_start dst_row)
               (map Z.of_nat (seq a n))).
Proof.
  revert a. induction n as [|n IH]; intros a Hn; [reflexivity|].
  cbn [seq map bgrx_cols flat_map].
  replace (0 + 2 * Z.of_nat a) with (2 * Z.of_nat a) by lia.
  rewrite (bgrx_pair_spec src Hbytes) by lia. cbn [obind].
  unfold yuyv_pair_stores at 1.
  destruct (yuyv_of_pair _ _) as [[[y0 u] y1] v].
  replace (dst_row + 4 * Z.of_nat a + 4) with (dst_row + 4 * Z.of_nat (S a)) by lia.
  rewrite IH by lia. cbn [obind app]. reflexivity.
Qed.

End BgrxFrame.

Section BgrxRows.

Variable src : list Z.
Hypothesis Hbytes : Forall (fun b => 0 <= b <= 255) src.

Variables (width height src_stride : Z).
Hypothesis Hwidth : 0 <= width.
Hypothesis Hstride : 0 <= src_stride.
Hypothesis Hwrap : height * src_stride < 2 ^ 32.
Hypothesis Hfits : (height - 1) * src_stride + 4 * width <= Z.of_nat (length src).

(** The body of the outer loop. *)
Lemma bgrx_row_spec (y : Z) :
  0 <= y < height ->
  bgrx_row src width src_stride y = Ok (yuyv_row_stores src width src_stride y).
Proof.
  intros Hy. unfold bgrx_row, yuyv_row_stores.
  rewrite wrap32_small by nia.
  rewrite for_range_unit. unfold for_range.
  replace (width - 0 + 2 - 1) with (width + 1) by lia.
  assert (Hnp : 0 <= (width + 1) / 2) by (apply Z.div_pos; lia).
  assert (Hnp2 : 2 * ((width + 1) / 2) <= width + 1) by (apply Z.mul_div_le; lia).
  pose proof (bgrx_cols_spec src Hbytes width (y * src_stride)) as Hcols.
  specialize (Hcols ltac:(nia) ltac:(nia) (y * width * 2) (Z.to_nat ((width + 1) / 2)) O).
  rewrite Z.add_0_r in Hcols. apply Hcols. lia.
Qed.

Lemma bgrx_rows_spec (ys : list Z) :
  (forall y, In y ys -> 0 <= y < height) ->
  bgrx_rows src width src_stride ys =
    Ok (flat_map (yuyv_row_stores src width src_stride) ys).
Proof.
  induction ys as [|y ys IH]; intros Hys; [reflexivity|].
  cbn [bgrx_rows flat_map].
  rewrite bgrx_row_spec by (apply Hys; now left). cbn [obind].
  rewrite IH by (intros; apply Hys; now right). reflexivity.
Qed.

(** The stores of [convert_bgrx_to_yuyv] on a frame that lies inside [src]:
    no read falls outside [src], and the stores are those the specification
    asks for, row after row. *)
Lemma bgrx_stores_spec :
  bgrx_stores src width height src_stride =
    Ok (flat_map (yuyv_row_stores src width src_stride) (for_range 0 height 1)).
Proof.
  unfold bgrx_stores. apply bgrx_rows_spec.
  intros y Hy. now apply for_range_unit_In.
Qed.

End BgrxRows.

Section BgrxClaims.

Variable src : list Z.
Hypothesis Hbytes : Forall (fun b => 0 <= b <= 255) src.

Variables (width height src_stride : Z).
Hypothesis Hwidth : 0 <= width.
Hypothesis Hstride : 0 <= src_stride.
Hypothesis Hwrap : height * src_stride < 2 ^ 32.
Hypothesis Hfits : (height - 1) * src_stride + 4 * width <= Z.of_nat (length src).

(** C7.  On a BGRx frame of bytes that lies inside the source buffer (row
    offsets representable as [uint32_t]), the conversion stores, for every
    row [y] and every horizontal pixel pair [k] in order, the four bytes
    [Y0, U, Y1, V] at destination offsets [y * width * 2 + 4k ..], where
    [Y = (77R + 150G + 29B) >> 8] for each pixel of the pair,
    [U = ((-38 Ravg - 74 Gavg + 112 Bavg) >> 8) + 128] and
    [V = ((112 Ravg - 94 Gavg - 18 Bavg) >> 8) + 128] for the averages of
    the pair, each clamped to [0, 255]; the second pixel of the pair is the
    first again when the pair starts at the last column. *)
Theorem bgrx_pair_formulas :
  bgrx_stores src width height src_stride =
  Ok (flat_map (fun y =>
        flat_map (fun k =>
          let px0 := y * src_stride + 8 * k in
          let px1 := if 2 * k + 1 <? width then px0 + 4 else px0 in
          let b0 := byte_at src px0 in
          let g0 := byte_at src (px0 + 1) in
          let r0 := byte_at src (px0 + 2) in
          let b1 := byte_at src px1 in
          let g1 := byte_at src (px1 + 1) in
          let r1 := byte_at src (px1 + 2) in
          let ravg := (r0 + r1) / 2 in
          let gavg := (g0 + g1) / 2 in
          let bavg := (b0 + b1) / 2 in
          let Y0 := Z.max 0 (Z.min 255 (Z.shiftr (77 * r0 + 150 * g0 + 29 * b0) 8)) in
          let Y1 := Z.max 0 (Z.min 255 (Z.shiftr (77 * r1 + 150 * g1 + 29 * b1) 8)) in
          let U := Z.max 0 (Z.min 255
                     (Z.shiftr (-38 * ravg - 74 * gavg + 112 * bavg) 8 + 128)) in
          let V := Z.max 0 (Z.min 255
                     (Z.shiftr (112 * ravg - 94 * gavg - 18 * bavg) 8 + 128)) in
          let d := y * width * 2 + 4 * k in
          [(d, Y0); (d + 1, U); (d + 2, Y1); (d + 3, V)])
          (for_range 0 ((width + 1) / 2) 1))
        (for_range 0 height 1)).
Proof.
  rewrite (bgrx_stores_spec src Hbytes) by assumption.
  f_equal. apply flat_map_ext. intros y. unfold yuyv_row_stores.
  apply flat_map_ext. intros k.
  unfold yuyv_pair_stores, yuyv_of_pair, bgr_sample, clamp_byte.
  replace (y * src_stride + 4 * (2 * k)) with (y * src_stride + 8 * k) by lia.
  replace (y * src_stride + 4 * (2 * k + 1)) with (y * src_stride + 8 * k + 4) by lia.
  destruct (2 * k + 1 <? width); reflexivity.
Qed.

Lemma for_range_unit_snoc (n : Z) :
  0 <= n -> for_range 0 (n + 1) 1 = for_range 0 n 1 ++ [n].
Proof.
  intros Hn. rewrite !for_range_unit.
  replace (Z.to_nat (n + 1)) with (S (Z.to_nat n)) by lia.
  rewrite seq_S, map_app. cbn. f_equal. f_equal. lia.
Qed.

Hypothesis Hodd : width mod 2 = 1.

Lemma odd_width_pairs : (width + 1) / 2 = (width - 1) / 2 + 1 /\ 2 * ((width - 1) / 2) = width - 1.
Proof.
  pose proof (Z.div_mod width 2 ltac:(lia)) as Hdm. rewrite Hodd in Hdm.
  replace (width + 1) with ((width / 2 + 1) * 2) by lia.
  replace (width - 1) with ((width / 2) * 2) by lia.
  rewrite !Z.div_mul by lia. lia.
Qed.

(** The stores for an odd width, before they reach the destination: on a
    BGRx frame that lies inside the source buffer (which may end with the
    frame's last pixel), every read of the conversion falls inside the
    buffer, and in every row the four stores for the last column carry
    [Y, U, Y, V] computed from that column's own (B, G, R) sample.  What the
    destination holds afterwards is another matter, see
    [bgrx_odd_width_last_pair_overwritten]. *)
Lemma bgrx_odd_width_last_column :
  bgrx_stores src width height src_stride =
  Ok (flat_map (fun y =>
        flat_map (yuyv_pair_stores src width (y * src_stride) (y * width * 2))
                 (for_range 0 ((width - 1) / 2) 1) ++
        (let px := y * src_stride + 4 * (width - 1) in
         let b := byte_at src px in
         let g := byte_at src (px + 1) in
         let r := byte_at src (px + 2) in
         let Y := clamp_byte (Z.shiftr (77 * r + 150 * g + 29 * b) 8) in
         let U := clamp_byte (Z.shiftr (-38 * r - 74 * g + 112 * b) 8 + 128) in
         let V := clamp_byte (Z.shiftr (112 * r - 94 * g - 18 * b) 8 + 128) in
         let d := y * width * 2 + 2 * (width - 1) in
         [(d, Y); (d + 1, U); (d + 2, Y); (d + 3, V)]))
        (for_range 0 height 1)).
Proof.
  rewrite (bgrx_stores_spec src Hbytes) by assumption.
  destruct odd_width_pairs as [Hnp Hlast].
  assert (0 <= (width - 1) / 2) by lia.
  f_equal. apply flat_map_ext. intros y. unfold yuyv_row_stores.
  rewrite Hnp, for_range_unit_snoc, flat_map_app by assumption.
  f_equal. cbn [flat_map]. rewrite app_nil_r.
  unfold yuyv_pair_stores, yuyv_of_pair, bgr_sample.
  rewrite Hlast.
  destruct (Z.ltb_spec (width - 1 + 1) width); [lia|].
  replace (4 * ((width - 1) / 2)) with (2 * (width - 1)) by lia.
  assert (Hhalf : forall a, (a + a) / 2 = a)
    by (intros a; replace (a + a) with (a * 2) by lia; apply Z.div_mul; lia).
  rewrite !Hhalf. reflexivity.
Qed.

End BgrxClaims.

Section BgrxDestination.

Variable src : list Z.
Variables (width row_start dst_row : Z).

(** The stores of [n] pairs address [4 * n] consecutive bytes from
    [dst_row] on. *)
Lemma yuyv_pair_stores_offsets (n : nat) :
  map fst (flat_map (yuyv_pair_stores src width row_start dst_row)
                    (map Z.of_nat (seq 0 n))) =
  map (fun j => dst_row + Z.of_nat j) (seq 0 (4 * n)).
Proof.
  induction n as [|n IH]; [reflexivity|].
  rewrite seq_S, map_app, flat_map_app, map_app, IH.
  replace (4 * S n)%nat with (4 * n + 4)%nat by lia.
  rewrite seq_app, map_app. f_equal.
  cbn [map flat_map app Nat.add]. unfold yuyv_pair_stores.
  destruct (yuyv_of_pair _ _) as [[[y0 u] y1] v]. cbn [map fst app seq].
  repeat (f_equal; try lia).
Qed.

End BgrxDestination.

(** The stores of a row address [4 * ((width + 1) / 2)] consecutive bytes
    from [y * width * 2] on. *)
Lemma yuyv_row_stores_span (src : list Z) (width src_stride y : Z) :
  0 <= width ->
  map fst (yuyv_row_stores src width src_stride y) =
  map (fun j => y * width * 2 + j) (for_range 0 (4 * ((width + 1) / 2)) 1).
Proof.
  intros Hw. unfold yuyv_row_stores. rewrite !for_range_unit, yuyv_pair_stores_offsets.
  rewrite map_map.
  assert (0 <= (width + 1) / 2) by (apply Z.div_pos; lia).
  replace (4 * Z.to_nat ((width + 1) / 2))%nat with (Z.to_nat (4 * ((width + 1) / 2)))
    by lia.
  reflexivity.
Qed.

Section BgrxOverrun.

Variable src : list Z.
Hypothesis Hbytes : Forall (fun b => 0 <= b <= 255) src.

Variables (width height src_stride : Z).
Hypothesis Hwidth : 0 < width.
Hypothesis Hheight : 0 < height.
Hypothesis Hstride : 0 <= src_stride.
Hypothesis Hwrap : height * src_stride < 2 ^ 32.
Hypothesis Hfits : (height - 1) * src_stride + 4 * width <= Z.of_nat (length src).
Hypothesis Hodd : width mod 2 = 1.

Lemma odd_width_row_bytes : 4 * ((width + 1) / 2) = 2 * (width + 1).
Proof.
  pose proof (Z.div_mod width 2 ltac:(lia)) as Hdm. rewrite Hodd in Hdm.
  replace (width + 1) with ((width / 2 + 1) * 2) at 1 by lia.
  rewrite Z.div_mul by lia. lia.
Qed.

Lemma yuyv_row_stores_offsets (y : Z) :
  map fst (yuyv_row_stores src width src_stride y) =
  map (fun j => y * width * 2 + j) (for_range 0 (2 * (width + 1)) 1).
Proof.
  rewrite yuyv_row_stores_span by lia. rewrite odd_width_row_bytes. reflexivity.
Qed.

(** C10.  On a BGRx frame of odd width that lies inside the source buffer,
    the stores of every row [y] address [4 * ((width + 1) / 2) = 2 * (width + 1)]
    consecutive bytes from offset [y * width * 2] on, two more than the
    [2 * width] bytes between that row's start and the next; the last two
    stores of the final row address offsets [width * height * 2] and
    [width * height * 2 + 1], so that on a destination of
    [width * height * 2] bytes the conversion stores outside the buffer. *)
Theorem bgrx_odd_width_overruns_destination :
  exists ws,
    bgrx_stores src width height src_stride = Ok ws /\
    map fst ws =
      flat_map (fun y => map (fun j => y * width * 2 + j)
                             (for_range 0 (2 * (width + 1)) 1))
               (for_range 0 height 1) /\
    4 * ((width + 1) / 2) = 2 * (width + 1) /\
    2 * width < 2 * (width + 1) /\
    In (width * height * 2) (map fst ws) /\
    In (width * height * 2 + 1) (map fst ws) /\
    forall dst, Z.of_nat (length dst) = width * height * 2 ->
      convert_bgrx_to_yuyv src dst width height src_stride = OutOfBounds.
Proof.
  eexists. split; [apply (bgrx_stores_spec src Hbytes); (assumption || lia)|].
  assert (Hoffs :
    map fst (flat_map (yuyv_row_stores src width src_stride) (for_range 0 height 1)) =
    flat_map (fun y => map (fun j => y * width * 2 + j)
                           (for_range 0 (2 * (width + 1)) 1))
             (for_range 0 height 1)).
  { induction (for_range 0 height 1) as [|y ys IH]; [reflexivity|].
    cbn [flat_map]. now rewrite map_app, yuyv_row_stores_offsets, IH. }
  assert (Hlast : forall j, 0 <= j < 2 * (width + 1) ->
    In ((height - 1) * width * 2 + j)
       (map fst (flat_map (yuyv_row_stores src width src_stride) (for_range 0 height 1)))).
  { intros j Hj. rewrite Hoffs. apply in_flat_map. exists (height - 1).
    split; [apply for_range_unit_In; lia|].
    apply in_map_iff. exists j. split; [reflexivity|]. now apply for_range_unit_In. }
  split; [exact Hoffs|].
  split; [apply odd_width_row_bytes|].
  split; [lia|].
  split; [|split].
  - replace (width * height * 2) with ((height - 1) * width * 2 + 2 * width) by lia.
    apply Hlast. lia.
  - replace (width * height * 2 + 1) with ((height - 1) * width * 2 + (2 * width + 1)) by lia.
    apply Hlast. lia.
  - intros dst Hdst. unfold convert_bgrx_to_yuyv.
    rewrite (bgrx_stores_spec src Hbytes) by (assumption || lia). cbn [obind].
    specialize (Hlast (2 * width) ltac:(lia)).
    apply in_map_iff in Hlast as ([off v] & Hoff & Hin). cbn [fst] in Hoff. subst off.
    apply (store_all_out_of_bounds _ _ _ _ Hin). nia.
Qed.

End BgrxOverrun.

Section BgrxEvenWidth.

Variable src : list Z.
Hypothesis Hbytes : Forall (fun b => 0 <= b <= 255) src.

Variables (width height src_stride : Z).
Hypothesis Hwidth : 0 <= width.
Hypothesis Hstride : 0 <= src_stride.
Hypothesis Hwrap : height * src_stride < 2 ^ 32.
Hypothesis Hfits : (height - 1) * src_stride + 4 * width <= Z.of_nat (length src).
Hypothesis Heven : width mod 2 = 0.

(** For an even width every row stays within its [2 * width] bytes, and the
    conversion into a destination of [width * height * 2] bytes succeeds. *)
Lemma bgrx_even_width_in_bounds (dst : list Z) :
  Z.of_nat (length dst) = width * height * 2 ->
  exists dst', convert_bgrx_to_yuyv src dst width height src_stride = Ok dst' /\
               length dst' = length dst.
Proof.
  intros Hdst. unfold convert_bgrx_to_yuyv.
  rewrite (bgrx_stores_spec src Hbytes) by assumption. cbn [obind].
  assert (Hspan : 4 * ((width + 1) / 2) = 2 * width).
  { pose proof (Z.div_mod width 2 ltac:(lia)) as Hdm. rewrite Heven in Hdm.
    replace (width + 1) with (1 + (width / 2) * 2) by lia.
    rewrite Z.div_add by lia. change (1 / 2) with 0. lia. }
  destruct (store_all_in_bounds
              (flat_map (yuyv_row_stores src width src_stride) (for_range 0 height 1)) dst)
    as [dst' Hstore].
  - intros off v Hin. apply in_flat_map in Hin as (y & Hy & Hin).
    apply for_range_unit_In in Hy.
    assert (Hoff : In off (map fst (yuyv_row_stores src width src_stride y)))
      by (apply in_map_iff; now exists (off, v)).
    rewrite yuyv_row_stores_span, Hspan in Hoff by assumption.
    apply in_map_iff in Hoff as (j & <- & Hj). apply for_range_unit_In in Hj. nia.
  - exists dst'. split; [assumption|]. eapply store_all_length; eassumption.
Qed.

End BgrxEvenWidth.

(** One row of two pixels, pure blue then pure red. *)
Lemma bgrx_pair_formulas_witness :
  bgrx_stores [255; 0; 0; 255; 0; 0; 255; 255] 2 1 8 =
    Ok [(0, 28); (1, 164); (2, 76); (3, 174)].
Proof.
  refine (bgrx_pair_formulas [255; 0; 0; 255; 0; 0; 255; 255] _ 2 1 8 _ _ _ _).
  - repeat constructor; lia.
  - lia.
  - lia.
  - reflexivity.
  - cbn. lia.
Defined.

(** Two rows of one pixel each, eight bytes apart, in a buffer that ends
    with the second pixel: offsets 2 and 3 are stored twice. *)
Lemma bgrx_odd_width_last_column_example :
  bgrx_stores [10; 20; 30; 0; 0; 0; 0; 0; 200; 100; 50; 0] 1 2 8 =
    Ok [(0, 21); (1, 122); (2, 21); (3, 133); (2, 96); (3, 179); (4, 96); (5, 99)].
Proof.
  refine (bgrx_odd_width_last_column
            [10; 20; 30; 0; 0; 0; 0; 0; 200; 100; 50; 0] _ 1 2 8 _ _ _ _ _).
  - repeat constructor; lia.
  - lia.
  - lia.
  - reflexivity.
  - cbn. lia.
  - reflexivity.
Defined.

(** The same two rows, converted into a destination of 1 * 2 * 2 bytes. *)
Lemma bgrx_odd_width_overruns_destination_witness :
  convert_bgrx_to_yuyv [10; 20; 30; 0; 0; 0; 0; 0; 200; 100; 50; 0] [0; 0; 0; 0] 1 2 8
    = OutOfBounds.
Proof.
  destruct (bgrx_odd_width_overruns_destination
              [10; 20; 30; 0; 0; 0; 0; 0; 200; 100; 50; 0]
              ltac:(repeat constructor; lia) 1 2 8
              ltac:(lia) ltac:(lia) ltac:(lia) ltac:(reflexivity) ltac:(cbn; lia)
              ltac:(reflexivity))
    as (ws & _ & _ & _ & _ & _ & _ & Hover).
  apply Hover. reflexivity.
Defined.

(** ** Frame validity filter *)

Section ValidityLoops.

Variables (data : pointer) (stride bpp : Z).

Lemma is_non_black_at (x y : Z) :
  is_non_black data stride bpp (x, y) = non_black_at data (pixel_offset stride bpp x y).
Proof.
  unfold is_non_black, non_black_at. cbn [existsb fst snd].
  rewrite Z.add_0_r, orb_false_r, orb_assoc. reflexivity.
Qed.

(** The inner loop counts the first pixels of its row, as many as the
    budget of 1000 checked pixels still allows. *)
Lemma validate_cols_spec (y : Z) (xs : list Z) (n : nat) (non_black total : Z) :
  total = 1000 - Z.of_nat n ->
  validate_cols data stride bpp y xs non_black total =
    (non_black + non_black_pixels data stride bpp (firstn n (map (fun x => (x, y)) xs)),
     total + Z.of_nat (length (firstn n (map (fun x => (x, y)) xs)))).
Proof.
  revert n non_black total. induction xs as [|x xs IH]; intros n nb total Ht.
  - cbn. rewrite firstn_nil. unfold non_black_pixels. cbn. f_equal; lia.
  - cbn [validate_cols map]. destruct (Z.ltb_spec total 1000) as [Hlt|Hge].
    + destruct n as [|n]; [lia|].
      rewrite (IH n) by lia. cbn [firstn length].
      unfold non_black_pixels. cbn [filter].
      rewrite is_non_black_at.
      destruct (non_black_at data (pixel_offset stride bpp x y)); cbn [length];
        f_equal; lia.
    + destruct n as [|n]; [|lia].
      unfold non_black_pixels. cbn. f_equal; lia.
Qed.

Lemma non_black_pixels_app (ps qs : list (Z * Z)) :
  non_black_pixels data stride bpp (ps ++ qs) =
  non_black_pixels data stride bpp ps + non_black_pixels data stride bpp qs.
Proof. unfold non_black_pixels. rewrite filter_app, length_app. lia. Qed.

(** The outer loop counts the first pixels of the grid, row by row, as many
    as the budget allows. *)
Lemma validate_rows_spec (xs ys : list Z) (n : nat) (non_black total : Z) :
  total = 1000 - Z.of_nat n ->
  let grid := flat_map (fun y => map (fun x => (x, y)) xs) ys in
  validate_rows data stride bpp xs ys non_black total =
    (non_black + non_black_pixels data stride bpp (firstn n grid),
     total + Z.of_nat (length (firstn n grid))).
Proof.
  revert n non_black total. induction ys as [|y ys IH]; intros n nb total Ht grid.
  - subst grid. cbn. rewrite firstn_nil. unfold non_black_pixels. cbn. f_equal; lia.
  - subst grid. cbn [validate_rows flat_map].
    destruct (Z.ltb_spec total 1000) as [Hlt|Hge].
    + rewrite (validate_cols_spec y xs n) by assumption.
      set (row := map (fun x => (x, y)) xs).
      rewrite firstn_app, non_black_pixels_app, length_app.
      pose proof (firstn_le_length n row) as Hle.
      destruct (Nat.le_gt_cases (length row) n) as [Hfull|Hcut].
      * rewrite (IH (n - length row)%nat).
        2:{ rewrite firstn_all2 by assumption. lia. }
        rewrite firstn_all2 by assumption. f_equal; lia.
      * replace (n - length row)%nat with O by lia.
        rewrite (IH O).
        2:{ rewrite length_firstn. lia. }
        f_equal; lia.
    + destruct n as [|n]; [|lia].
      unfold non_black_pixels. cbn. f_equal; lia.
Qed.

End ValidityLoops.

Section ValidityDecision.

Lemma ratio_table_checked : ratio_table counter_values = true.
Proof. vm_compute. reflexivity. Qed.

Lemma counter_values_In (z : Z) : 0 <= z <= 1000 -> In z counter_values.
Proof.
  intros Hz. unfold counter_values. apply in_map_iff. exists (Z.to_nat z).
  split; [lia|]. apply in_seq. lia.
Qed.

Lemma ratio_table_sound (values : list Z) (non_black total : Z) :
  ratio_table values = true ->
  In non_black values -> In total values -> non_black <= total ->
  ratio_above_one_percent non_black total = (total <? 100 * non_black).
Proof.
  unfold ratio_table. intros Htab Hn Ht Hle.
  rewrite forallb_forall in Htab. specialize (Htab total Ht).
  rewrite forallb_forall in Htab. specialize (Htab non_black Hn).
  apply orb_true_iff in Htab as [Hlt|Heq].
  - apply Z.ltb_lt in Hlt. lia.
  - now apply Bool.eqb_prop in Heq.
Qed.

(** Rounding never changes the verdict: for counters within the budget, the
    binary64 ratio exceeds the binary64 0.01 exactly when the exact ratio
    exceeds 1/100. *)
Lemma ratio_above_one_percent_exact (non_black total : Z) :
  0 <= non_black <= total -> total <= 1000 ->
  ratio_above_one_percent non_black total = (total <? 100 * non_black).
Proof.
  intros Hn Ht.
  apply (ratio_table_sound counter_values); try (apply counter_values_In); try lia.
  exact ratio_table_checked.
Qed.

Variables (data : pointer) (width height spa_format stride : Z).

Lemma x_step_spec : x_step width = (if 10 <? width then width / 10 else 1).
Proof.
  unfold x_step. rewrite Z.gtb_ltb.
  destruct (Z.ltb_spec 10 width); [|reflexivity]. apply Z.quot_div_nonneg; lia.
Qed.

Lemma y_step_spec : y_step height = (if 100 <? height then height / 100 else 1).
Proof.
  unfold y_step. rewrite Z.gtb_ltb.
  destruct (Z.ltb_spec 100 height); [|reflexivity]. apply Z.quot_div_nonneg; lia.
Qed.

Lemma non_black_pixels_bound (bpp : Z) (ps : list (Z * Z)) :
  0 <= non_black_pixels data stride bpp ps <= Z.of_nat (length ps).
Proof.
  unfold non_black_pixels.
  pose proof (filter_length_le (is_non_black data stride bpp) ps). lia.
Qed.

(** The counters of the code are those of the sampled pixels. *)
Lemma validate_counts_spec :
  validate_counts data width height spa_format stride =
    (non_black_pixels data stride (bytes_per_pixel spa_format) (sampled_pixels width height),
     Z.of_nat (length (sampled_pixels width height))).
Proof.
  unfold validate_counts.
  rewrite (validate_rows_spec _ _ _ _ _ 1000) by reflexivity.
  unfold sampled_pixels, sample_grid. rewrite x_step_spec, y_step_spec. reflexivity.
Qed.

(** C6.  The filter looks at the first 1000 (at most) positions of the
    regular grid with row step [height / 100] when [height > 100], else 1,
    and column step [width / 10] when [width > 10], else 1; a position
    counts as non-black exactly when one of its first three bytes is not
    zero; the frame is judged valid exactly when the non-black positions
    are strictly more than 1% of the positions looked at, so that a frame
    with at least 99% of them black is rejected. *)
Theorem validity_filter_one_percent :
  let bpp := bytes_per_pixel spa_format in
  let sampled := sampled_pixels width height in
  let non_black := non_black_pixels data stride bpp sampled in
  let total := Z.of_nat (length sampled) in
  total <= 1000 /\
  sampled = firstn 1000 (sample_grid width height) /\
  (forall x y, is_non_black data stride bpp (x, y) = true <->
     exists i, 0 <= i < 3 /\ data (pixel_offset stride bpp x y + i) <> 0) /\
  validate_counts data width height spa_format stride = (non_black, total) /\
  (validate_frame_data data width height spa_format stride = true <->
     total < 100 * non_black) /\
  (99 * total <= 100 * (total - non_black) ->
     validate_frame_data data width height spa_format stride = false).
Proof.
  intros bpp sampled non_black total.
  assert (Htotal : total <= 1000).
  { subst total sampled. unfold sampled_pixels. rewrite length_firstn. lia. }
  pose proof (non_black_pixels_bound bpp sampled) as Hnb. fold non_black total in Hnb.
  assert (Hvalid : validate_frame_data data width height spa_format stride =
                   (total <? 100 * non_black)).
  { unfold validate_frame_data. rewrite validate_counts_spec.
    apply ratio_above_one_percent_exact; assumption. }
  split; [exact Htotal|].
  split; [reflexivity|].
  split.
  { intros x y. unfold is_non_black. rewrite existsb_exists. cbn [fst snd]. split.
    - intros (i & Hi & Hnz). exists i. split.
      + cbn in Hi. lia.
      + apply negb_true_iff, Z.eqb_neq in Hnz. exact Hnz.
    - intros (i & Hi & Hnz). exists i. split.
      + cbn. lia.
      + apply negb_true_iff, Z.eqb_neq. exact Hnz. }
  split; [apply validate_counts_spec|].
  split.
  - rewrite Hvalid. apply Z.ltb_lt.
  - intros Hblack. rewrite Hvalid. apply Z.ltb_ge. lia.
Qed.

End ValidityDecision.

(** ** The stream callbacks *)

Section Callbacks.

Lemma same_stream_refl (d : app_data) : same_stream d d.
Proof. unfold same_stream. tauto. Qed.

Lemma same_stream_trans (d1 d2 d3 : app_data) :
  same_stream d1 d2 -> same_stream d2 d3 -> same_stream d1 d3.
Proof. unfold same_stream. intuition congruence. Qed.

Lemma acquire_same_stream (d : app_data) (f : frame) :
  same_stream d (fst (acquire d f)) /\
  frame_skip_count (fst (acquire d f)) = frame_skip_count d /\
  conversion_buffer (fst (acquire d f)) = conversion_buffer d.
Proof.
  unfold acquire, same_stream.
  destruct (d_type f); cbn; try tauto.
  destruct (gl_import d); cbn; try tauto.
  destruct (negb (gl_buffer d) || (gl_buffer_size d <? _)); cbn;
    destruct (gl_realloc_ok f); cbn; destruct (gl_import_ok f); cbn; tauto.
Qed.

(** The handling of [written] reads the loop and the session only. *)
Lemma handle_written_same_stream (d d' : app_data) (count written : Z) :
  same_stream d d' -> handle_written d' count written = handle_written d count written.
Proof.
  intros (Hl & Hs & _). unfold handle_written. now rewrite Hl, Hs.
Qed.

Lemma convert_and_write_spec (d : app_data) (count s : Z) (f : frame) :
  let written := match select_converter (spa_format d) with
                 | Some _ => write_result f
                 | None => -1
                 end in
  let r := convert_and_write d count s f in
  data (fst r) = d /\
  (write_error_count (fst r), quit (snd r)) = handle_written d count written /\
  match select_converter (spa_format d) with
  | Some c => wrote (snd r) = true /\ exists packed cs, ended (snd r) = Converted c packed cs
  | None => wrote (snd r) = false /\ ended (snd r) = Unsupported
  end.
Proof.
  cbv zeta. unfold convert_and_write.
  destruct (handle_written d count _) as [count' q]. cbn.
  destruct (select_converter (spa_format d)); eauto 6.
Qed.

(** A conversion reads the packed copy, with the packed row size as its
    stride, exactly when the stride exceeds that size and the copy could be
    allocated; otherwise it reads the frame with its own stride. *)
Lemma convert_and_write_packing (d : app_data) (count s : Z) (f : frame)
    (c : converter) (packed : bool) (cs : Z) :
  ended (snd (convert_and_write d count s f)) = Converted c packed cs ->
  let expected_stride := wrap32 (width d * bytes_per_pixel (spa_format d)) in
  packed = (s >? expected_stride) && packed_malloc_ok f /\
  cs = (if packed then expected_stride else s).
Proof.
  unfold convert_and_write.
  destruct (handle_written d count _) as [count' q]. cbn.
  destruct (select_converter (spa_format d)); [|discriminate].
  intros E. inversion E; subst. auto.
Qed.

(** The three ways the body of [if (data->v4l2_fd >= 0)] can go. *)
Lemma to_sink_cases (d : app_data) (count s : Z) (f : frame) :
  exists d', same_stream d d' /\ frame_skip_count d' = frame_skip_count d /\
    ((exists e, (e = NoConversionBuffer \/ e = Invalid) /\
                to_sink d count s f = let_go d' count e)
     \/ (color_bars_mode d = true /\
         to_sink d count s f =
           ({| data := d'; write_error_count := count |},
            {| ended := ColorBars; wrote := true; quit := false |}))
     \/ (color_bars_mode d = false /\
         validate_frame_data (pixels f) (int_of_uint32 (width d)) (int_of_uint32 (height d))
           (spa_format d) s = true /\
         to_sink d count s f = convert_and_write d' count s f)).
Proof.
  unfold to_sink.
  set (on_demand := negb (conversion_buffer d) && negb (color_bars_mode d)).
  set (d1 := if on_demand then set_conversion_buffer d _ _ else d).
  assert (Hsame : same_stream d d1 /\ frame_skip_count d1 = frame_skip_count d).
  { subst d1. destruct on_demand; cbn; unfold same_stream; tauto. }
  destruct Hsame as [Hsame Hskip].
  assert (Hw : width d1 = width d /\ height d1 = height d /\ spa_format d1 = spa_format d /\
               color_bars_mode d1 = color_bars_mode d) by (unfold same_stream in Hsame; tauto).
  destruct Hw as (-> & -> & -> & ->).
  exists d1. split; [assumption|]. split; [assumption|].
  destruct (on_demand && negb (conv_malloc_ok f)); [left; eauto|].
  destruct (color_bars_mode d); [right; left; auto|].
  destruct (validate_frame_data _ _ _ _ _); cbn [negb]; [right; right; auto|left; eauto].
Qed.

(** The ways one call of [on_stream_process] can go. *)
Lemma on_stream_process_cases (p : pipeline) (f : frame) :
  exists d', same_stream (data p) d' /\
    ((exists e, on_stream_process p f = let_go d' (write_error_count p) e /\
        ((e = NoBuffer \/ e = Dropped) /\
           frame_skip_count d' = frame_skip_count (data p)
         \/ e = Skipped /\ frame_skip_count (data p) < 5 /\
            frame_skip_count d' = frame_skip_count (data p) + 1
         \/ (e = NoSink \/ e = NoConversionBuffer \/ e = Invalid) /\
            5 <= frame_skip_count (data p) /\
            frame_skip_count d' = frame_skip_count (data p)))
     \/ (color_bars_mode (data p) = true /\
         5 <= frame_skip_count (data p) /\
         frame_skip_count d' = frame_skip_count (data p) /\
         on_stream_process p f =
           ({| data := d'; write_error_count := write_error_count p |},
            {| ended := ColorBars; wrote := true; quit := false |}))
     \/ (color_bars_mode (data p) = false /\
         5 <= frame_skip_count (data p) /\
         frame_skip_count d' = frame_skip_count (data p) /\
         exists s, on_stream_process p f = convert_and_write d' (write_error_count p) s f)).
Proof.
  unfold on_stream_process.
  destruct (dequeued f); cbn [negb].
  2:{ exists (data p). split; [apply same_stream_refl|]. left. eauto 6. }
  pose proof (acquire_same_stream (data p) f) as (Hsame & Hskip & _).
  destruct (acquire (data p) f) as [d have_frame]. cbn [fst] in Hsame, Hskip.
  destruct have_frame; cbn [negb].
  2:{ exists d. split; [assumption|]. left. eauto 6. }
  set (s := actual_stride _ _ _ _).
  assert (Hs : same_stream (data p) (set_stride d s))
    by (unfold same_stream in *; cbn; tauto).
  change (frame_skip_count (set_stride d s)) with (frame_skip_count d).
  change (v4l2_fd (set_stride d s)) with (v4l2_fd d).
  destruct (Z.ltb_spec (frame_skip_count d) 5) as [Hlt|Hge].
  { eexists. split; [|left; eexists; split; [reflexivity|]].
    - unfold same_stream in *; cbn; tauto.
    - right. left. cbn. repeat split; (reflexivity || lia). }
  destruct (v4l2_fd d >=? 0); cbn [negb].
  2:{ exists (set_stride d s). split; [assumption|]. left.
      eexists. split; [reflexivity|]. right. right. cbn. split; [tauto|lia]. }
  destruct (to_sink_cases (set_stride d s) (write_error_count p) s f)
    as (d' & Hsame' & Hskip' & Hcases).
  cbn [frame_skip_count set_stride] in Hskip'.
  exists d'. split; [eapply same_stream_trans; eassumption|].
  assert (Hbars : color_bars_mode (set_stride d s) = color_bars_mode (data p))
    by (unfold same_stream in Hs; tauto).
  destruct Hcases as [(e & He & ->)|[(Hb & ->)|(Hb & _ & ->)]].
  - left. exists e. split; [reflexivity|]. right. right. split; [tauto|lia].
  - right. left. repeat split; (congruence || lia).
  - right. right. repeat split; try (congruence || lia). eauto.
Qed.

End Callbacks.

(** ** Sink failure escalation *)

Section SinkEscalation.

(** A call that wrote a converted frame handled the result of that write. *)
Lemma on_stream_process_written (p : pipeline) (f : frame) :
  color_bars_mode (data p) = false ->
  wrote (snd (on_stream_process p f)) = true ->
  same_stream (data p) (data (fst (on_stream_process p f))) /\
  (write_error_count (fst (on_stream_process p f)), quit (snd (on_stream_process p f))) =
    handle_written (data p) (write_error_count p) (write_result f).
Proof.
  intros Hbars Hwrote.
  destruct (on_stream_process_cases p f)
    as (d' & Hsame & [(e & Heq & _)|[(Hb & _)|(_ & _ & _ & s & Heq)]]).
  - rewrite Heq in Hwrote. discriminate.
  - congruence.
  - rewrite Heq in *.
    pose proof (convert_and_write_spec d' (write_error_count p) s f) as (Hd & Hh & Hc).
    cbv zeta in Hd, Hh, Hc.
    destruct (select_converter (spa_format d')).
    + rewrite Hd, Hh. split; [assumption|]. now apply handle_written_same_stream.
    + destruct Hc as [Hc _]. congruence.
Qed.

Lemma handle_all_written_same_stream (d d' : app_data) (count : Z) (ws : list Z) :
  same_stream d d' -> handle_all_written d' count ws = handle_all_written d count ws.
Proof.
  intros Hsame. revert count. induction ws as [|w ws IH]; intros count; [reflexivity|].
  cbn. rewrite (handle_written_same_stream d d') by assumption.
  destruct (handle_written d count w) as [c q]. now rewrite IH.
Qed.

(** Over any run of frames that were all written to the sink, the error
    counter and the shutdown requests are those of the handling of
    [written], iterated over the results of the writes. *)
Lemma process_all_written (fs : list frame) (p : pipeline) :
  color_bars_mode (data p) = false ->
  Forall (fun fx => wrote fx = true) (snd (process_all p fs)) ->
  (write_error_count (fst (process_all p fs)), map quit (snd (process_all p fs))) =
    handle_all_written (data p) (write_error_count p) (map write_result fs).
Proof.
  revert p. induction fs as [|f fs IH]; intros p Hbars Hall; [reflexivity|].
  cbn [process_all map handle_all_written] in *.
  pose proof (on_stream_process_written p f Hbars) as Hstep.
  destruct (on_stream_process p f) as [p1 fx] eqn:E1. cbn [fst snd] in Hstep.
  specialize (IH p1).
  destruct (process_all p1 fs) as [p2 fxs] eqn:E2. cbn [fst snd map] in *.
  inversion Hall as [|? ? Hfx Hfxs]; subst.
  destruct (Hstep Hfx) as [Hsame Hh]. rewrite <- Hh.
  assert (Hbars1 : color_bars_mode (data p1) = false)
    by (unfold same_stream in Hsame; intuition congruence).
  rewrite <- (handle_all_written_same_stream (data p) (data p1)) by assumption.
  rewrite <- (IH Hbars1 Hfxs). reflexivity.
Qed.

(** C1.  In screen-capture mode with the loop running: (1) a call that
    wrote a frame to the sink and whose write failed increments the
    consecutive-failure counter, requests shutdown at once when the session
    reports inactive, and otherwise requests it exactly when the
    incremented counter is 5 or more, which from a counter below 5 means
    exactly when it reaches 5; a call whose write succeeded resets the
    counter to 0 and requests nothing; (2) over every sequence of sink
    writes, the counter and the requests are those rules iterated over the
    write results; (3) from a counter of 0 with the session active, five
    consecutive failed writes request shutdown on the fifth and not before;
    (4) four failed writes followed by a successful one request no shutdown
    and leave the counter at 0. *)
Theorem sink_failure_escalation :
  (forall p f,
     color_bars_mode (data p) = false -> loop (data p) = true ->
     wrote (snd (on_stream_process p f)) = true ->
     let p' := fst (on_stream_process p f) in
     let fx := snd (on_stream_process p f) in
     (write_result f < 0 ->
        write_error_count p' = write_error_count p + 1 /\
        (portal_session (data p) = Some false -> quit fx = true) /\
        (portal_session (data p) <> Some false ->
           (quit fx = true <-> 5 <= write_error_count p + 1) /\
           (write_error_count p < 5 ->
              (quit fx = true <-> write_error_count p + 1 = 5)))) /\
     (0 < write_result f -> write_error_count p' = 0 /\ quit fx = false)) /\
  (forall p fs,
     color_bars_mode (data p) = false ->
     Forall (fun fx => wrote fx = true) (snd (process_all p fs)) ->
     (write_error_count (fst (process_all p fs)), map quit (snd (process_all p fs))) =
       handle_all_written (data p) (write_error_count p) (map write_result fs)) /\
  (forall p f1 f2 f3 f4 f5,
     color_bars_mode (data p) = false -> loop (data p) = true ->
     portal_session (data p) <> Some false -> write_error_count p = 0 ->
     Forall (fun fx => wrote fx = true) (snd (process_all p [f1; f2; f3; f4; f5])) ->
     Forall (fun f => write_result f < 0) [f1; f2; f3; f4; f5] ->
     map quit (snd (process_all p [f1; f2; f3; f4; f5])) = [false; false; false; false; true]) /\
  (forall p f1 f2 f3 f4 f5,
     color_bars_mode (data p) = false -> loop (data p) = true ->
     portal_session (data p) <> Some false -> write_error_count p = 0 ->
     Forall (fun fx => wrote fx = true) (snd (process_all p [f1; f2; f3; f4; f5])) ->
     Forall (fun f => write_result f < 0) [f1; f2; f3; f4] ->
     0 < write_result f5 ->
     map quit (snd (process_all p [f1; f2; f3; f4; f5])) =
       [false; false; false; false; false] /\
     write_error_count (fst (process_all p [f1; f2; f3; f4; f5])) = 0).
Proof.
  split; [|split; [|split]].
  - intros p f Hbars Hloop Hwrote p' fx.
    destruct (on_stream_process_written p f Hbars Hwrote) as [_ Hh].
    fold p' fx in Hh. unfold handle_written in Hh. rewrite Hloop in Hh. split.
    + intros Hfail. destruct (Z.ltb_spec (write_result f) 0); [|lia].
      cbv zeta in Hh.
      assert (Hc : write_error_count p' = write_error_count p + 1).
      { destruct (portal_session (data p)) as [[|]|];
          destruct (write_error_count p + 1 >=? 5); now inversion Hh. }
      split; [exact Hc|]. split.
      * intros Hs. rewrite Hs in Hh. now inversion Hh.
      * intros Hs.
        assert (Hq : quit fx = (write_error_count p + 1 >=? 5)).
        { destruct (portal_session (data p)) as [[|]|]; try congruence;
            destruct (write_error_count p + 1 >=? 5); now inversion Hh. }
        rewrite Hq.
        destruct (Z.geb_spec (write_error_count p + 1) 5);
          (split; [|intros Hbelow]); split; intros; (lia || discriminate || reflexivity).
    + intros Hok. destruct (Z.ltb_spec (write_result f) 0); [lia|].
      destruct (Z.gtb_spec (write_result f) 0); [|lia].
      inversion Hh. auto.
  - intros p fs. apply process_all_written.
  - intros p f1 f2 f3 f4 f5 Hbars Hloop Hact Hzero Hall Hfail.
    pose proof (process_all_written _ p Hbars Hall) as Hrun.
    destruct (process_all p [f1; f2; f3; f4; f5]) as [p' fxs]. cbn [fst snd] in *.
    repeat match goal with H : Forall _ (_ :: _) |- _ => inversion H; clear H; subst end.
    cbn [map handle_all_written] in Hrun. unfold handle_written in Hrun.
    rewrite Hloop, Hzero in Hrun.
    repeat match type of Hrun with
           | context [?w <? 0] => destruct (Z.ltb_spec w 0); [|lia]
           end.
    destruct (portal_session (data p)) as [[|]|]; try congruence;
      cbn in Hrun; inversion Hrun; reflexivity.
  - intros p f1 f2 f3 f4 f5 Hbars Hloop Hact Hzero Hall Hfail Hok.
    pose proof (process_all_written _ p Hbars Hall) as Hrun.
    destruct (process_all p [f1; f2; f3; f4; f5]) as [p' fxs]. cbn [fst snd] in *.
    repeat match goal with H : Forall _ (_ :: _) |- _ => inversion H; clear H; subst end.
    cbn [map handle_all_written] in Hrun. unfold handle_written in Hrun.
    rewrite Hloop, Hzero in Hrun.
    destruct (Z.ltb_spec (write_result f5) 0); [lia|].
    destruct (Z.gtb_spec (write_result f5) 0); [|lia].
    repeat match type of Hrun with
           | context [?w <? 0] => destruct (Z.ltb_spec w 0); [|lia]
           end.
    destruct (portal_session (data p)) as [[|]|]; try congruence;
      cbn in Hrun; inversion Hrun; auto.
Qed.

End SinkEscalation.

(** Five failed writes of white 4 x 2 BGRx frames after the warm-up, on a
    session that stays active. *)
Lemma sink_failure_escalation_witness :
  map quit (snd (process_all
                   (fst (run (started 3 false)
                           (Param (negotiate 4 2 8) :: repeat (Process (plain_frame 255 16)) 5)))
                   (repeat (plain_frame 255 (-1)) 5))) =
    [false; false; false; false; true].
Proof.
  refine (proj1 (proj2 (proj2 sink_failure_escalation)) _ _ _ _ _ _ _ _ _ _ _ _).
  - reflexivity.
  - reflexivity.
  - discriminate.
  - reflexivity.
  - vm_compute. repeat constructor.
  - repeat constructor.
Defined.

(** ** Unsupported layouts *)

Section UnsupportedLayout.

(** A frame that reaches the [default:] of the [switch] is handled as a
    failed write, although no write was attempted. *)
Lemma unsupported_layout_counts_as_failure (p : pipeline) (f : frame) :
  ended (snd (on_stream_process p f)) = Unsupported ->
  wrote (snd (on_stream_process p f)) = false /\
  (write_error_count (fst (on_stream_process p f)), quit (snd (on_stream_process p f))) =
    handle_written (data p) (write_error_count p) (-1).
Proof.
  intros Hend.
  destruct (on_stream_process_cases p f)
    as (d' & Hsame & [(e & Heq & He)|[(_ & _ & _ & Heq)|(_ & _ & _ & s & Heq)]]).
  - rewrite Heq in *. cbn in Hend. subst e. intuition discriminate.
  - rewrite Heq in Hend. discriminate.
  - rewrite Heq in *.
    pose proof (convert_and_write_spec d' (write_error_count p) s f) as (Hd & Hh & Hc).
    cbv zeta in Hd, Hh, Hc.
    destruct (select_converter (spa_format d')).
    + destruct Hc as (_ & pk & cs & Hc). congruence.
    + destruct Hc as [Hw _]. split; [assumption|].
      rewrite Hh. now apply handle_written_same_stream.
Qed.

(** C2 (the code departs from the claim).  A stream negotiated as 4 x 2 in
    format 2 (a layout outside the ten the [switch] handles), on an active
    session: after the five warm-up frames, each further non-black frame
    ends in [default:] without a write, yet counts as a failed write, and
    the fifth of them requests shutdown. *)
Theorem unsupported_layout_requests_shutdown :
  let r := run (started 3 false)
               (Param (negotiate 4 2 2) :: repeat (Process (plain_frame 255 16)) 10) in
  map (option_map summary) (snd r) =
    None :: repeat (Some (Skipped, false, false)) 5 ++
    repeat (Some (Unsupported, false, false)) 4 ++ [Some (Unsupported, false, true)] /\
  write_error_count (fst r) = 5.
Proof. vm_compute. split; reflexivity. Qed.

End UnsupportedLayout.

(** ** Frame skipping after negotiation *)

Section FrameSkip.

(** While the skip counter leaves room for them, delivered buffers are let
    go before the sink is touched. *)
Lemma process_all_skips (fs : list frame) (p : pipeline) :
  frame_skip_count (data p) + Z.of_nat (length fs) <= 5 ->
  Forall (fun fx => wrote fx = false /\ quit fx = false /\
                    (ended fx = Skipped \/ ended fx = Dropped \/ ended fx = NoBuffer))
         (snd (process_all p fs)) /\
  write_error_count (fst (process_all p fs)) = write_error_count p.
Proof.
  revert p. induction fs as [|f fs IH]; intros p Hroom; [cbn; auto|].
  cbn [process_all length] in *.
  destruct (on_stream_process_cases p f)
    as (d' & Hsame & [(e & Heq & He)|[(_ & Hge & _)|(_ & Hge & _)]]); try lia.
  rewrite Heq. unfold let_go.
  match goal with |- context [process_all ?q fs] =>
    specialize (IH q); destruct (process_all q fs) as [p2 fxs] end.
  cbn [fst snd data write_error_count] in *.
  destruct IH as [IH1 IH2]; [intuition lia|].
  split; [|assumption].
  constructor; [|assumption]. cbn.
  intuition (subst; auto; lia).
Qed.

(** C3, as the code has it.  A format event that parses is applied to the
    sink when it is the first one or when its width or height differs from
    the stored geometry; if the sink is open and accepts the format, the
    frame-skip counter is reset to 0 and each of the next five delivered
    buffers is let go before conversion, whatever it holds: skipped by the
    counter, or dropped earlier for want of frame data.  A format event
    that repeats the stored width and height of a format already set
    leaves the counter as it is. *)
Theorem format_change_resets_frame_skip (d : app_data) (e : param_event)
    (info : spa_video_info_raw) :
  id e = SPA_PARAM_Format ->
  param e = Some (Some info) ->
  let d' := on_stream_param_changed d e in
  ((format_set d = false \/ width d <> info_width info \/ height d <> info_height info) ->
   0 <= v4l2_fd d -> ioctl_ok e = true ->
   frame_skip_count d' = 0 /\
   forall count fs, (length fs <= 5)%nat ->
     Forall (fun fx => wrote fx = false /\ quit fx = false /\
                       (ended fx = Skipped \/ ended fx = Dropped \/ ended fx = NoBuffer))
            (snd (process_all {| data := d'; write_error_count := count |} fs))) /\
  (format_set d = true -> width d = info_width info -> height d = info_height info ->
   frame_skip_count d' = frame_skip_count d).
Proof.
  intros Hid Hparam d'. subst d'. unfold on_stream_param_changed.
  rewrite Hid, Hparam. split.
  - intros Hchange Hfd Hioctl.
    assert (Hcond : (negb (format_set d) ||
                     (negb (width d =? info_width info) ||
                      negb (height d =? info_height info))) && (v4l2_fd d >=? 0) = true).
    { apply andb_true_iff. split; [|apply Z.geb_le; lia].
      destruct (format_set d); cbn [negb orb]; [|reflexivity].
      destruct (Z.eqb_spec (width d) (info_width info)),
               (Z.eqb_spec (height d) (info_height info)); cbn; intuition congruence. }
    rewrite Hcond, Hioctl. cbn [negb frame_skip_count].
    split; [reflexivity|].
    intros count fs Hlen. apply process_all_skips. cbn. lia.
  - intros Hset Hw Hh.
    rewrite Hset, Hw, Hh, !Z.eqb_refl. reflexivity.
Qed.

End FrameSkip.

(** The first negotiation of a freshly opened sink, then a black, a white
    and an absent buffer. *)
Lemma format_change_resets_frame_skip_witness :
  frame_skip_count (on_stream_param_changed (data (started 3 false)) (negotiate 4 2 8)) = 0 /\
  Forall (fun fx => wrote fx = false /\ quit fx = false /\
                    (ended fx = Skipped \/ ended fx = Dropped \/ ended fx = NoBuffer))
    (snd (process_all
            {| data := on_stream_param_changed (data (started 3 false)) (negotiate 4 2 8);
               write_error_count := 0 |}
            [plain_frame 0 16; plain_frame 255 16; plain_frame 255 (-1)])).
Proof.
  pose proof (proj1 (format_change_resets_frame_skip (data (started 3 false)) (negotiate 4 2 8)
                {| info_format := 8; info_width := 4; info_height := 2 |}
                eq_refl eq_refl)) as H.
  cbv zeta in H. destruct H as [Hzero Hskip].
  - left. reflexivity.
  - cbn. lia.
  - reflexivity.
  - split; [exact Hzero|]. apply Hskip. cbn. lia.
Defined.

(** C3 as stated fails: a format event that repeats the negotiated 4 x 2
    geometry, after the five warm-up frames, is parsed and stored, but the
    counter stays at 5 and the very next frame is converted and written. *)
Lemma renegotiation_same_geometry_keeps_counter :
  let p5 := fst (run (started 3 false)
                     (Param (negotiate 4 2 8) :: repeat (Process (plain_frame 255 16)) 5)) in
  let p6 := fst (step p5 (Param (negotiate 4 2 8))) in
  frame_skip_count (data p5) = 5 /\
  frame_skip_count (data p6) = 5 /\
  summary (snd (on_stream_process p6 (plain_frame 255 16))) =
    (Converted bgrx_to_yuyv false 16, true, false).
Proof. vm_compute. repeat split; reflexivity. Qed.

(** ** Exit codes *)

Section ExitCodes.

(** The argument loop returns 0 or 1 when it returns. *)
Lemma parse_args_codes (args : list string) (o : options) (code : Z) :
  parse_args args o = inr code -> code = 0 \/ code = 1.
Proof.
  revert o. induction args as [|arg rest IH]; intros o; cbn; [discriminate|].
  repeat match goal with
         | |- context [if ?b then _ else _] => destruct b
         end; try (apply IH); intros E; inversion E; auto.
Qed.

(** A help flag returns 0 as soon as the loop reads it. *)
Lemma parse_args_help (rest : list string) (o : options) :
  parse_args ("--help"%string :: rest) o = inr 0 /\
  parse_args ("-h"%string :: rest) o = inr 0.
Proof. split; reflexivity. Qed.

(** An argument that starts with a dash and is no known flag returns 1 as
    soon as the loop reads it. *)
Lemma parse_args_unknown (arg : string) (rest : list string) (o : options) :
  not_dash_first arg = false ->
  ~ In arg ["--color-bars"; "-c"; "--debug"; "-v"; "--help"; "-h"]%string ->
  parse_args (arg :: rest) o = inr 1.
Proof.
  intros Hdash Hnot. cbn [parse_args].
  repeat match goal with
         | |- context [String.eqb arg ?s] =>
             destruct (String.eqb_spec arg s); [exfalso; apply Hnot; subst; cbn; tauto|]
         end.
  cbn. now rewrite Hdash.
Qed.

(** Whatever happens after the argument loop, [main] returns 0. *)
Lemma main_returns_zero_after_arguments (argv : list string) (env : startup) :
  fst (main argv env) <> ReturnInArguments -> snd (main argv env) = 0.
Proof.
  unfold main. destruct (parse_args _ _); cbn; [reflexivity|congruence].
Qed.

(** C4 (the code departs from the claim).  When the sink device cannot be
    opened, [main] reports the failure, runs its cleanup and returns 0;
    so does every other startup failure, all of which leave through the
    same [return 0;]. *)
Theorem main_sink_open_failure_exit_code :
  let env := {| getenv_debug := false; open_fd := -1; querycap_ok := true;
                bars_malloc_ok := true; portal_setup := 0; portal_ready := true |} in
  main ["gnome-to-v4l2loopback"; "/dev/video9"]%string env = (SinkOpenFailed, 0) /\
  main ["gnome-to-v4l2loopback"; "--help"]%string env = (ReturnInArguments, 0) /\
  main ["gnome-to-v4l2loopback"; "--frobnicate"]%string env = (ReturnInArguments, 1).
Proof. repeat split; reflexivity. Qed.

End ExitCodes.

(* ================================================================== *)
(** * Part III. Further properties of the code *)
(* ================================================================== *)

(** ** BGRx to YUYV: value ranges *)

Section BgrxValues.

Variable src : list Z.
Hypothesis Hbytes : Forall (fun b => 0 <= b <= 255) src.

Variables (row_start x width : Z).
Hypothesis Hrow : 0 <= row_start.
Hypothesis Hx : 0 <= x < width.
Hypothesis Hlen : row_start + 4 * width <= Z.of_nat (length src).

Lemma shiftr8_bounds (e lo hi : Z) :
  256 * lo <= e -> e < 256 * (hi + 1) -> lo <= Z.shiftr e 8 <= hi.
Proof.
  intros Hlo Hhi. rewrite Z.shiftr_div_pow2 by lia. change (2 ^ 8) with 256.
  pose proof (Z.div_mod e 256 ltac:(lia)) as Hdm.
  pose proof (Z.mod_pos_bound e 256 ltac:(lia)) as Hm. lia.
Qed.

Lemma half_sum_range (a b : Z) :
  0 <= a <= 255 -> 0 <= b <= 255 -> 0 <= (a + b) / 2 <= 255.
Proof.
  intros Ha Hb. split; [apply Z.div_pos; lia|].
  apply Z.lt_succ_r. apply Z.div_lt_upper_bound; lia.
Qed.

(** The values [convert_bgrx_to_yuyv] stores for a pair of byte-valued
    pixels need no clamping: both lumas lie in [0, 255] and both chromas
    in [16, 239], and they are the unclamped integer formulas. *)
Theorem bgrx_pair_never_clamps :
  let p0 := bgr_sample src row_start x in
  let p1 := if x + 1 <? width then bgr_sample src row_start (x + 1) else p0 in
  let '(b0, g0, r0) := p0 in
  let '(b1, g1, r1) := p1 in
  let ravg := (r0 + r1) / 2 in
  let gavg := (g0 + g1) / 2 in
  let bavg := (b0 + b1) / 2 in
  let y0 := Z.shiftr (77 * r0 + 150 * g0 + 29 * b0) 8 in
  let y1 := Z.shiftr (77 * r1 + 150 * g1 + 29 * b1) 8 in
  let u := Z.shiftr (-38 * ravg - 74 * gavg + 112 * bavg) 8 + 128 in
  let v := Z.shiftr (112 * ravg - 94 * gavg - 18 * bavg) 8 + 128 in
  bgrx_pair src row_start x width = Ok (y0, u, y1, v) /\
  0 <= y0 <= 255 /\ 0 <= y1 <= 255 /\ 16 <= u <= 239 /\ 16 <= v <= 239.
Proof.
  cbv zeta. rewrite (bgrx_pair_spec src Hbytes) by assumption.
  set (p1 := if x + 1 <? width then _ else _).
  assert (Hp1 : p1 = bgr_sample src row_start (x + 1) \/ p1 = bgr_sample src row_start x)
    by (subst p1; destruct (x + 1 <? width); auto).
  assert (Hr1 : let '(b1, g1, r1) := p1 in
                0 <= b1 <= 255 /\ 0 <= g1 <= 255 /\ 0 <= r1 <= 255).
  { destruct Hp1 as [-> | ->]; unfold bgr_sample;
      repeat split; apply (byte_at_range src Hbytes). }
  clearbody p1. destruct p1 as [[b1 g1] r1].
  unfold bgr_sample, yuyv_of_pair.
  pose proof (byte_at_range src Hbytes (row_start + 4 * x)) as Hb0.
  pose proof (byte_at_range src Hbytes (row_start + 4 * x + 1)) as Hg0.
  pose proof (byte_at_range src Hbytes (row_start + 4 * x + 2)) as Hr0.
  set (b0 := byte_at src (row_start + 4 * x)) in *.
  set (g0 := byte_at src (row_start + 4 * x + 1)) in *.
  set (r0 := byte_at src (row_start + 4 * x + 2)) in *.
  destruct Hr1 as (Hb1 & Hg1 & Hr1).
  pose proof (half_sum_range r0 r1 Hr0 Hr1) as Hra.
  pose proof (half_sum_range g0 g1 Hg0 Hg1) as Hga.
  pose proof (half_sum_range b0 b1 Hb0 Hb1) as Hba.
  set (ravg := (r0 + r1) / 2) in *.
  set (gavg := (g0 + g1) / 2) in *.
  set (bavg := (b0 + b1) / 2) in *.
  assert (Hy0 : 0 <= Z.shiftr (77 * r0 + 150 * g0 + 29 * b0) 8 <= 255)
    by (apply shiftr8_bounds; lia).
  assert (Hy1 : 0 <= Z.shiftr (77 * r1 + 150 * g1 + 29 * b1) 8 <= 255)
    by (apply shiftr8_bounds; lia).
  assert (Hu : -112 <= Z.shiftr (-38 * ravg - 74 * gavg + 112 * bavg) 8 <= 111)
    by (apply shiftr8_bounds; lia).
  assert (Hv : -112 <= Z.shiftr (112 * ravg - 94 * gavg - 18 * bavg) 8 <= 111)
    by (apply shiftr8_bounds; lia).
  unfold clamp_byte.
  rewrite !Z.min_r, !Z.max_r by lia.
  repeat split; (reflexivity || lia).
Qed.

(** A pair of gray pixels keeps its gray levels as lumas and gets the
    neutral chroma 128. *)
Theorem bgrx_pair_gray (v0 v1 : Z) :
  x + 1 < width ->
  bgr_sample src row_start x = (v0, v0, v0) ->
  bgr_sample src row_start (x + 1) = (v1, v1, v1) ->
  bgrx_pair src row_start x width = Ok (v0, 128, v1, 128).
Proof.
  intros Hnext H0 H1.
  rewrite (bgrx_pair_spec src Hbytes) by assumption.
  destruct (Z.ltb_spec (x + 1) width); [|lia].
  pose proof (byte_at_range src Hbytes (row_start + 4 * x)) as Hb0.
  pose proof (byte_at_range src Hbytes (row_start + 4 * (x + 1))) as Hb1.
  assert (E0 : byte_at src (row_start + 4 * x) = v0)
    by (unfold bgr_sample in H0; congruence).
  assert (E1 : byte_at src (row_start + 4 * (x + 1)) = v1)
    by (unfold bgr_sample in H1; congruence).
  rewrite H0, H1. rewrite E0 in Hb0. rewrite E1 in Hb1.
  unfold yuyv_of_pair, clamp_byte.
  set (a := (v0 + v1) / 2).
  replace (77 * v0 + 150 * v0 + 29 * v0) with (v0 * 2 ^ 8) by lia.
  replace (77 * v1 + 150 * v1 + 29 * v1) with (v1 * 2 ^ 8) by lia.
  replace (-38 * a - 74 * a + 112 * a) with 0 by lia.
  replace (112 * a - 94 * a - 18 * a) with 0 by lia.
  rewrite !Z.shiftr_div_pow2, !Z.div_mul by lia.
  change (0 / 2 ^ 8 + 128) with 128.
  rewrite !Z.min_r, !Z.max_r by lia. reflexivity.
Qed.

End BgrxValues.

(** A dark and a light gray pixel side by side. *)
Lemma bgrx_pair_never_clamps_witness :
  bgrx_pair [40; 40; 40; 255; 200; 200; 200; 255] 0 0 2 = Ok (40, 128, 200, 128).
Proof.
  refine (proj1 (bgrx_pair_never_clamps [40; 40; 40; 255; 200; 200; 200; 255] _ 0 0 2 _ _ _)).
  - repeat constructor; lia.
  - lia.
  - lia.
  - cbn. lia.
Defined.

Lemma bgrx_pair_gray_witness :
  bgrx_pair [40; 40; 40; 255; 200; 200; 200; 255] 0 0 2 = Ok (40, 128, 200, 128).
Proof.
  apply (bgrx_pair_gray [40; 40; 40; 255; 200; 200; 200; 255]
           ltac:(repeat constructor; lia) 0 0 2 ltac:(lia) ltac:(lia) ltac:(cbn; lia) 40 200);
    (lia || reflexivity).
Defined.

(** ** BGRx to YUYV: the converted buffer for even widths *)

Section BgrxEvenBuffer.

Lemma yuyv_pair_stores_In (src : list Z) (width row_start dst_row k off v : Z) :
  In (off, v) (yuyv_pair_stores src width row_start dst_row k) <->
  exists j, 0 <= j < 4 /\ off = dst_row + 4 * k + j /\
    v = yuyv_byte (yuyv_of_pair (bgr_sample src row_start (2 * k))
                     (if 2 * k + 1 <? width then bgr_sample src row_start (2 * k + 1)
                      else bgr_sample src row_start (2 * k))) j.
Proof.
  unfold yuyv_pair_stores.
  destruct (yuyv_of_pair _ _) as [[[y0 u] y1] v0]. cbn [In yuyv_byte]. split.
  - intros [E|[E|[E|[E|[]]]]]; apply pair_equal_spec in E as [<- <-].
    + exists 0. repeat split; (lia || reflexivity).
    + exists 1. repeat split; (lia || reflexivity).
    + exists 2. repeat split; (lia || reflexivity).
    + exists 3. repeat split; (lia || reflexivity).
  - intros (j & Hj & -> & ->).
    assert (Hcases : j = 0 \/ j = 1 \/ j = 2 \/ j = 3) by lia.
    destruct Hcases as [ -> | [ -> | [ -> | -> ] ] ]; cbn [yuyv_byte Z.eqb];
      rewrite ?Z.add_0_r; auto 6.
Qed.

Variable src : list Z.
Hypothesis Hbytes : Forall (fun b => 0 <= b <= 255) src.

Variables (width height src_stride : Z).
Hypothesis Hwidth : 0 <= width.
Hypothesis Hstride : 0 <= src_stride.
Hypothesis Hwrap : height * src_stride < 2 ^ 32.
Hypothesis Hfits : (height - 1) * src_stride + 4 * width <= Z.of_nat (length src).
Hypothesis Heven : width mod 2 = 0.

Lemma even_width_pairs : 2 * ((width + 1) / 2) = width.
Proof.
  pose proof (Z.div_mod width 2 ltac:(lia)) as Hdm. rewrite Heven in Hdm.
  replace (width + 1) with (1 + (width / 2) * 2) by lia.
  rewrite Z.div_add by lia. change (1 / 2) with 0. lia.
Qed.

(** Where every store of the conversion goes, and what it carries. *)
Lemma yuyv_frame_stores_In (off v : Z) :
  In (off, v) (flat_map (yuyv_row_stores src width src_stride) (for_range 0 height 1)) <->
  exists y k j, 0 <= y < height /\ 0 <= k /\ 2 * k < width /\ 0 <= j < 4 /\
    off = y * width * 2 + 4 * k + j /\
    v = yuyv_byte (yuyv_of_pair (bgr_sample src (y * src_stride) (2 * k))
                                (bgr_sample src (y * src_stride) (2 * k + 1))) j.
Proof.
  pose proof even_width_pairs as Hnp.
  rewrite in_flat_map. split.
  - intros (y & Hy & Hin). apply for_range_unit_In in Hy.
    unfold yuyv_row_stores in Hin. apply in_flat_map in Hin as (k & Hk & Hin).
    apply for_range_unit_In in Hk.
    apply yuyv_pair_stores_In in Hin as (j & Hj & -> & ->).
    destruct (Z.ltb_spec (2 * k + 1) width); [|lia].
    exists y, k, j. repeat split; (lia || reflexivity).
  - intros (y & k & j & Hy & Hk & Hkw & Hj & -> & ->).
    exists y. split; [now apply for_range_unit_In|].
    unfold yuyv_row_stores. apply in_flat_map. exists k.
    split; [apply for_range_unit_In; lia|].
    apply yuyv_pair_stores_In. exists j.
    destruct (Z.ltb_spec (2 * k + 1) width); [|lia]. auto.
Qed.

(** For an even width and a destination of [width * height * 2] bytes that
    the frame's source lies inside of, [convert_bgrx_to_yuyv] stays inside
    both buffers and leaves, for every row [y] and pair [k], the bytes
    [Y0, U, Y1, V] of columns [2k] and [2k + 1] at offsets
    [y * width * 2 + 4k] to [+ 3]: every byte of the destination is
    determined by the source. *)
Theorem bgrx_even_width_buffer (dst : list Z) :
  Z.of_nat (length dst) = width * height * 2 ->
  exists dst',
    convert_bgrx_to_yuyv src dst width height src_stride = Ok dst' /\
    length dst' = length dst /\
    forall y k j, 0 <= y < height -> 0 <= k -> 2 * k < width -> 0 <= j < 4 ->
      byte_at dst' (y * width * 2 + 4 * k + j) =
      yuyv_byte (yuyv_of_pair (bgr_sample src (y * src_stride) (2 * k))
                              (bgr_sample src (y * src_stride) (2 * k + 1))) j.
Proof.
  intros Hdst. unfold convert_bgrx_to_yuyv.
  rewrite (bgrx_stores_spec src Hbytes) by assumption. cbn [obind].
  set (ws := flat_map _ _).
  assert (Hpair : forall k, 2 * k < width -> 2 * k + 2 <= width).
  { intros k Hk. pose proof (Z.div_mod width 2 ltac:(lia)) as Hdm.
    rewrite Heven in Hdm. lia. }
  destruct (store_all_in_bounds ws dst) as [dst' Hstore].
  { intros off v Hin. apply yuyv_frame_stores_In in Hin
      as (y & k & j & Hy & Hk & Hkw & Hj & -> & _).
    apply Hpair in Hkw. nia. }
  exists dst'. split; [assumption|].
  split; [eapply store_all_length; eassumption|].
  intros y k j Hy Hk Hkw Hj. unfold byte_at.
  apply (store_all_content ws dst dst' _ _ 0 Hstore).
  - apply yuyv_frame_stores_In. exists y, k, j. auto 8.
  - intros v' Hin. apply yuyv_frame_stores_In in Hin
      as (y' & k' & j' & Hy' & Hk' & Hkw' & Hj' & Hoff & ->).
    pose proof (Hpair k Hkw). pose proof (Hpair k' Hkw').
    assert (y' = y) by nia. subst y'.
    assert (k' = k) by lia. subst k'.
    assert (j' = j) by lia. subst j'. reflexivity.
Qed.

End BgrxEvenBuffer.

(** One row of two pixels, pure blue then pure red, into four bytes. *)
Lemma bgrx_even_width_buffer_witness :
  exists dst',
    convert_bgrx_to_yuyv [255; 0; 0; 255; 0; 0; 255; 255] [0; 0; 0; 0] 2 1 8 = Ok dst' /\
    length dst' = 4%nat /\
    byte_at dst' 0 = 28 /\ byte_at dst' 1 = 164 /\ byte_at dst' 2 = 76 /\ byte_at dst' 3 = 174.
Proof.
  destruct (bgrx_even_width_buffer [255; 0; 0; 255; 0; 0; 255; 255]
              ltac:(repeat constructor; lia) 2 1 8
              ltac:(lia) ltac:(lia) ltac:(reflexivity) ltac:(cbn; lia) ltac:(reflexivity)
              [0; 0; 0; 0] ltac:(reflexivity))
    as (dst' & Hok & Hlen & Hbytes).
  exists dst'. split; [exact Hok|]. split; [exact Hlen|].
  repeat split.
  - apply (Hbytes 0 0 0); lia.
  - apply (Hbytes 0 0 1); lia.
  - apply (Hbytes 0 0 2); lia.
  - apply (Hbytes 0 0 3); lia.
Defined.

(** ** BGRx to YUYV: the converted buffer for odd widths *)

Section BgrxOddBuffer.

Lemma seq_from (a n : nat) : seq a n = map (Nat.add a) (seq 0 n).
Proof.
  induction n as [|n IH]; [reflexivity|].
  rewrite !seq_S, map_app, IH. reflexivity.
Qed.

(** The values of a counted loop, split at its [m]-th iteration. *)
Lemma for_range_unit_split (n m : Z) :
  0 <= m <= n ->
  for_range 0 n 1 = for_range 0 m 1 ++ map (Z.add m) (for_range 0 (n - m) 1).
Proof.
  intros Hm. rewrite !for_range_unit.
  replace (Z.to_nat n) with (Z.to_nat m + Z.to_nat (n - m))%nat by lia.
  rewrite seq_app, map_app. f_equal. cbn [Nat.add].
  rewrite seq_from, !map_map. apply map_ext. intros k. lia.
Qed.

Lemma store_all_app (ws1 ws2 : list (Z * Z)) (buf buf' : list Z) :
  store_all buf (ws1 ++ ws2) = Ok buf' ->
  exists mid, store_all buf ws1 = Ok mid /\ store_all mid ws2 = Ok buf'.
Proof.
  revert buf. induction ws1 as [|[off v] ws1 IH]; cbn [app store_all]; intros buf E.
  - eauto.
  - destruct (store buf off v) as [b1|]; cbn [obind] in *; [|discriminate].
    apply IH. exact E.
Qed.

(** Of the stores to one offset, the last decides what the buffer holds. *)
Lemma store_all_last_wins (ws1 ws2 : list (Z * Z)) (buf buf' : list Z) (off v d : Z) :
  store_all buf (ws1 ++ ws2) = Ok buf' ->
  In (off, v) ws2 ->
  (forall v', In (off, v') ws2 -> v' = v) ->
  nth (Z.to_nat off) buf' d = v.
Proof.
  intros E Hin Hfun. apply store_all_app in E as (mid & _ & E2).
  exact (store_all_content ws2 mid buf' off v d E2 Hin Hfun).
Qed.

Variable src : list Z.
Hypothesis Hbytes : Forall (fun b => 0 <= b <= 255) src.

Variables (width height src_stride : Z).
Hypothesis Hwidth : 0 < width.
Hypothesis Hheight : 0 < height.
Hypothesis Hstride : 0 <= src_stride.
Hypothesis Hwrap : height * src_stride < 2 ^ 32.
Hypothesis Hfits : (height - 1) * src_stride + 4 * width <= Z.of_nat (length src).
Hypothesis Hodd : width mod 2 = 1.

(** The [Y0, U, Y1, V] that the loop body computes for pair [k] of row [y]. *)
Let pair_bytes (y k : Z) : Z * Z * Z * Z :=
  yuyv_of_pair (bgr_sample src (y * src_stride) (2 * k))
    (if 2 * k + 1 <? width then bgr_sample src (y * src_stride) (2 * k + 1)
     else bgr_sample src (y * src_stride) (2 * k)).

Lemma odd_width_half : 2 * ((width + 1) / 2) = width + 1.
Proof.
  pose proof (Z.div_mod width 2 ltac:(lia)) as Hdm. rewrite Hodd in Hdm.
  replace (width + 1) with ((width / 2 + 1) * 2) at 1 by lia.
  rewrite Z.div_mul by lia. lia.
Qed.

Lemma yuyv_row_stores_In (y off v : Z) :
  In (off, v) (yuyv_row_stores src width src_stride y) <->
  exists k j, 0 <= k /\ 2 * k < width + 1 /\ 0 <= j < 4 /\
    off = y * width * 2 + 4 * k + j /\ v = yuyv_byte (pair_bytes y k) j.
Proof.
  pose proof odd_width_half as Hhalf.
  unfold yuyv_row_stores. rewrite in_flat_map. split.
  - intros (k & Hk & Hin). apply for_range_unit_In in Hk.
    apply yuyv_pair_stores_In in Hin as (j & Hj & -> & ->).
    exists k, j. repeat split; (lia || reflexivity).
  - intros (k & j & Hk & Hkw & Hj & -> & ->). exists k.
    split; [apply for_range_unit_In; lia|].
    apply yuyv_pair_stores_In. exists j. auto.
Qed.

(** In a destination that takes every store, a byte stored for row [y]
    stays as that row stored it when it lies before the start of the next
    row, or when there is no next row. *)
Lemma odd_width_row_wins (dst dst' : list Z) (y k j : Z) :
  store_all dst
    (flat_map (yuyv_row_stores src width src_stride) (for_range 0 height 1)) = Ok dst' ->
  0 <= y < height -> 0 <= k -> 2 * k < width + 1 -> 0 <= j < 4 ->
  4 * k + j < 2 * width \/ y = height - 1 ->
  byte_at dst' (y * width * 2 + 4 * k + j) = yuyv_byte (pair_bytes y k) j.
Proof.
  intros Hstore Hy Hk Hkw Hj Hown. unfold byte_at.
  rewrite (for_range_unit_split height y), flat_map_app in Hstore by lia.
  apply (store_all_last_wins _ _ _ _ _ _ 0 Hstore).
  - apply in_flat_map. exists y. split.
    + apply in_map_iff. exists 0. split; [lia|]. apply for_range_unit_In. lia.
    + apply yuyv_row_stores_In. exists k, j. auto.
  - intros v' Hin. apply in_flat_map in Hin as (y' & Hy' & Hin).
    apply in_map_iff in Hy' as (i & <- & Hi). apply for_range_unit_In in Hi.
    apply yuyv_row_stores_In in Hin as (k' & j' & Hk' & Hkw' & Hj' & Hoff & ->).
    assert (Hrow : i = 0) by nia.
    subst i. replace (y + 0) with y in * by lia.
    assert (k' = k) by lia. subst k'.
    assert (j' = j) by lia. subst j'. reflexivity.
Qed.

(** C8 (the code departs from the claim).  On a BGRx frame of odd width
    that lies inside the source buffer, no read of the conversion falls
    outside the source, and the loop body pairs the last column with
    itself.  But the four bytes [Y, U, Y, V] of that pair do not survive in
    the output: row [y + 1] starts [2 * width] bytes after row [y], two
    bytes before the end of row [y]'s last pair.  Into the destination the
    pipeline provides, of [width * height * 2] bytes, the conversion stores
    out of bounds.  In a destination with two bytes more, every row but the
    final one ends up with [Y] and [U] of its last column followed by the
    first luma and the [U] of the next row, where the claim has the last
    column's second [Y] and its [V]; only the final row's last pair is
    whole, and it lies across the end of the [width * height * 2] bytes. *)
Theorem bgrx_odd_width_last_pair_overwritten (dst : list Z) :
  Z.of_nat (length dst) = width * height * 2 + 2 ->
  (exists ws, bgrx_stores src width height src_stride = Ok ws) /\
  (forall dst0, Z.of_nat (length dst0) = width * height * 2 ->
     convert_bgrx_to_yuyv src dst0 width height src_stride = OutOfBounds) /\
  exists dst',
    convert_bgrx_to_yuyv src dst width height src_stride = Ok dst' /\
    forall y, 0 <= y < height ->
      let last := bgr_sample src (y * src_stride) (width - 1) in
      let own := yuyv_of_pair last last in
      let next := pair_bytes (y + 1) 0 in
      let d := y * width * 2 + 2 * (width - 1) in
      byte_at dst' d = yuyv_byte own 0 /\
      byte_at dst' (d + 1) = yuyv_byte own 1 /\
      (y < height - 1 ->
       byte_at dst' (d + 2) = yuyv_byte next 0 /\
       byte_at dst' (d + 3) = yuyv_byte next 1) /\
      (y = height - 1 ->
       d + 2 = width * height * 2 /\
       byte_at dst' (d + 2) = yuyv_byte own 2 /\
       byte_at dst' (d + 3) = yuyv_byte own 3).
Proof.
  intros Hdst. pose proof odd_width_half as Hhalf.
  assert (Hspec : bgrx_stores src width height src_stride =
            Ok (flat_map (yuyv_row_stores src width src_stride) (for_range 0 height 1)))
    by (apply (bgrx_stores_spec src Hbytes); (assumption || lia)).
  set (ws := flat_map _ _) in Hspec.
  assert (Hin : forall y k j, 0 <= y < height -> 0 <= k -> 2 * k < width + 1 -> 0 <= j < 4 ->
            In (y * width * 2 + 4 * k + j, yuyv_byte (pair_bytes y k) j) ws).
  { intros y k j Hy Hk Hkw Hj. apply in_flat_map. exists y.
    split; [now apply for_range_unit_In|].
    apply yuyv_row_stores_In. exists k, j. auto. }
  assert (Hlast : 4 * ((width - 1) / 2) = 2 * (width - 1)).
  { replace (width - 1) with (width + 1 + (-1) * 2) at 1 by lia.
    rewrite Z.div_add by lia. lia. }
  assert (Hk : 0 <= (width - 1) / 2) by (apply Z.div_pos; lia).
  split; [eauto|]. split.
  { intros dst0 Hdst0. unfold convert_bgrx_to_yuyv. rewrite Hspec. cbn [obind].
    apply (store_all_out_of_bounds ws dst0 _ _
             (Hin (height - 1) ((width - 1) / 2) 2 ltac:(lia) Hk ltac:(lia) ltac:(lia))).
    nia. }
  unfold convert_bgrx_to_yuyv. rewrite Hspec. cbn [obind].
  destruct (store_all_in_bounds ws dst) as [dst' Hstore].
  { intros off v Hoff. apply in_flat_map in Hoff as (y & Hy & Hoff).
    apply for_range_unit_In in Hy.
    apply yuyv_row_stores_In in Hoff as (k & j & Hk0 & Hkw & Hj & -> & _). nia. }
  exists dst'. split; [exact Hstore|].
  intros y Hy. cbv zeta.
  assert (Hown : pair_bytes y ((width - 1) / 2) =
                 yuyv_of_pair (bgr_sample src (y * src_stride) (width - 1))
                              (bgr_sample src (y * src_stride) (width - 1))).
  { unfold pair_bytes. replace (2 * ((width - 1) / 2)) with (width - 1) by lia.
    destruct (Z.ltb_spec (width - 1 + 1) width); [lia|reflexivity]. }
  rewrite <- Hown, <- Hlast.
  pose proof (odd_width_row_wins dst dst' y ((width - 1) / 2) 0 Hstore
                Hy Hk ltac:(lia) ltac:(lia) ltac:(lia)) as H0.
  pose proof (odd_width_row_wins dst dst' y ((width - 1) / 2) 1 Hstore
                Hy Hk ltac:(lia) ltac:(lia) ltac:(lia)) as H1.
  rewrite Z.add_0_r in H0.
  split; [exact H0|]. split; [exact H1|]. split.
  - intros Hnext.
    pose proof (odd_width_row_wins dst dst' (y + 1) 0 0 Hstore
                  ltac:(lia) ltac:(lia) ltac:(lia) ltac:(lia) ltac:(lia)) as H2.
    pose proof (odd_width_row_wins dst dst' (y + 1) 0 1 Hstore
                  ltac:(lia) ltac:(lia) ltac:(lia) ltac:(lia) ltac:(lia)) as H3.
    replace ((y + 1) * width * 2 + 4 * 0 + 0)
      with (y * width * 2 + 4 * ((width - 1) / 2) + 2) in H2 by lia.
    replace ((y + 1) * width * 2 + 4 * 0 + 1)
      with (y * width * 2 + 4 * ((width - 1) / 2) + 3) in H3 by lia.
    split; assumption.
  - intros Hfinal.
    pose proof (odd_width_row_wins dst dst' y ((width - 1) / 2) 2 Hstore
                  Hy Hk ltac:(lia) ltac:(lia) ltac:(lia)) as H2.
    pose proof (odd_width_row_wins dst dst' y ((width - 1) / 2) 3 Hstore
                  Hy Hk ltac:(lia) ltac:(lia) ltac:(lia)) as H3.
    replace (y * width * 2 + 4 * ((width - 1) / 2) + 2 + 1)
      with (y * width * 2 + 4 * ((width - 1) / 2) + 3) by lia.
    split; [nia|]. split; assumption.
Qed.

End BgrxOddBuffer.

(** Two rows of one pixel each, eight bytes apart: the loop body computes
    (21, 122, 21, 133) for the first row's pixel paired with itself, and
    the destination ends up with 96 and 179, the second row's luma and [U],
    where that pair's second luma and its [V] were stored. *)
Lemma bgrx_odd_width_last_pair_overwritten_witness :
  let src := [10; 20; 30; 0; 0; 0; 0; 0; 200; 100; 50; 0] in
  yuyv_of_pair (bgr_sample src 0 0) (bgr_sample src 0 0) = (21, 122, 21, 133) /\
  convert_bgrx_to_yuyv src [0; 0; 0; 0] 1 2 8 = OutOfBounds /\
  exists dst',
    convert_bgrx_to_yuyv src [0; 0; 0; 0; 0; 0] 1 2 8 = Ok dst' /\
    byte_at dst' 0 = 21 /\ byte_at dst' 1 = 122 /\
    byte_at dst' 2 = 96 /\ byte_at dst' 3 = 179.
Proof.
  cbv zeta.
  destruct (bgrx_odd_width_last_pair_overwritten
              [10; 20; 30; 0; 0; 0; 0; 0; 200; 100; 50; 0]
              ltac:(repeat constructor; lia) 1 2 8
              ltac:(lia) ltac:(lia) ltac:(lia) ltac:(reflexivity) ltac:(cbn; lia)
              ltac:(reflexivity) [0; 0; 0; 0; 0; 0] ltac:(reflexivity))
    as (_ & Hover & dst' & Hok & Hrows).
  split; [reflexivity|]. split; [apply Hover; reflexivity|].
  exists dst'. split; [exact Hok|].
  destruct (Hrows 0 ltac:(lia)) as (H0 & H1 & Hnext & _).
  destruct (Hnext ltac:(lia)) as (H2 & H3).
  repeat split; assumption.
Defined.


(** ** Test pattern *)

Section ColorBars.

Lemma for_range_step2_In (width x : Z) :
  In x (for_range 0 width 2) <-> exists k, 0 <= k /\ x = 2 * k /\ 2 * k < width.
Proof.
  unfold for_range. replace (width - 0 + 2 - 1) with (width + 1) by lia.
  rewrite in_map_iff. split.
  - intros (n & <- & Hn). apply in_seq in Hn. exists (Z.of_nat n).
    split; [lia|]. split; [lia|].
    assert (Hlt : Z.of_nat n + 1 <= (width + 1) / 2) by lia.
    pose proof (Z.mul_div_le (width + 1) 2 ltac:(lia)). lia.
  - intros (k & Hk & -> & Hlt). exists (Z.to_nat k). split; [lia|].
    apply in_seq.
    assert (k + 1 <= (width + 1) / 2) by (apply Z.div_le_lower_bound; lia).
    lia.
Qed.

Lemma bar_of_min (bar_width x : Z) :
  0 < bar_width -> 0 <= x -> bar_of bar_width x = Z.min 7 (x / bar_width).
Proof.
  intros Hb Hx. unfold bar_of. rewrite Z.quot_div_nonneg by lia.
  destruct (Z.geb_spec (x / bar_width) 8); lia.
Qed.

Lemma bars_cols_yuyv_In (bar_width width y : Z) (xs : list Z) :
  bar_width <> 0 ->
  exists ws, bars_cols_yuyv bar_width width y xs = Some ws /\
    forall off v, In (off, v) ws <->
      exists x j, In x xs /\ 0 <= j < 4 /\ off = (y * width + x) * 2 + j /\
        v = yuyv_byte (nth (Z.to_nat (bar_of bar_width x)) colors_yuyv (0, 0, 0, 0)) j.
Proof.
  intros Hbw. induction xs as [|x xs (rest & Hrest & IH)].
  - exists []. split; [reflexivity|]. intros off v. split; [intros []|].
    intros (x & j & [] & _).
  - cbn [bars_cols_yuyv]. unfold bars_pair_yuyv.
    destruct (Z.eqb_spec bar_width 0); [contradiction|].
    rewrite Hrest.
    destruct (nth (Z.to_nat (bar_of bar_width x)) colors_yuyv (0, 0, 0, 0))
      as [[[c0 c1] c2] c3] eqn:Eq.
    eexists. split; [reflexivity|].
    intros off v. rewrite in_app_iff, IH. split.
    + intros [Hin|(x' & j & Hx' & Hj & -> & ->)].
      * cbn [In] in Hin.
        destruct Hin as [E|[E|[E|[E|[]]]]]; apply pair_equal_spec in E as [<- <-].
        -- exists x, 0. rewrite Eq. split; [now left|]. split; [lia|]. split; [lia|reflexivity].
        -- exists x, 1. rewrite Eq. split; [now left|]. split; [lia|]. split; [lia|reflexivity].
        -- exists x, 2. rewrite Eq. split; [now left|]. split; [lia|]. split; [lia|reflexivity].
        -- exists x, 3. rewrite Eq. split; [now left|]. split; [lia|]. split; [lia|reflexivity].
      * exists x', j. cbn [In]. auto 6.
    + intros (x' & j & [->|Hx'] & Hj & -> & ->).
      * left. rewrite Eq.
        assert (Hc : j = 0 \/ j = 1 \/ j = 2 \/ j = 3) by lia.
        destruct Hc as [ -> | [ -> | [ -> | -> ] ] ]; cbn; auto 6.
      * right. exists x', j. auto.
Qed.

Lemma bars_rows_yuyv_In (bar_width width : Z) (xs ys : list Z) :
  bar_width <> 0 ->
  exists ws, bars_rows_yuyv bar_width width xs ys = Some ws /\
    forall off v, In (off, v) ws <->
      exists y x j, In y ys /\ In x xs /\ 0 <= j < 4 /\ off = (y * width + x) * 2 + j /\
        v = yuyv_byte (nth (Z.to_nat (bar_of bar_width x)) colors_yuyv (0, 0, 0, 0)) j.
Proof.
  intros Hbw. induction ys as [|y ys (rest & Hrest & IH)].
  - exists []. split; [reflexivity|]. intros off v. split; [intros []|].
    intros (y & x & j & [] & _).
  - cbn [bars_rows_yuyv].
    destruct (bars_cols_yuyv_In bar_width width y xs Hbw) as (row & Hrow & Hin).
    rewrite Hrow, Hrest. eexists. split; [reflexivity|].
    intros off v. rewrite in_app_iff, Hin, IH. split.
    + intros [(x & j & H)|(y' & x & j & Hy' & H)].
      * exists y, x, j. cbn [In]. tauto.
      * exists y', x, j. cbn [In]. tauto.
    + intros (y' & x & j & [->|Hy'] & H).
      * left. exists x, j. tauto.
      * right. exists y', x, j. tauto.
Qed.

(** For an even width of at least 8 and a destination of
    [width * height * 2] bytes, [generate_color_bars_yuyv] neither divides
    by zero nor stores outside the buffer, and fills every pixel pair of
    every row with (Y, U, Y, V) of bar [min 7 (x / (width / 8))], [x] being
    the pair's first column. *)
Theorem color_bars_yuyv_buffer (dst : list Z) (width height : Z) :
  8 <= width -> width mod 2 = 0 -> 0 <= height ->
  Z.of_nat (length dst) = width * height * 2 ->
  exists dst',
    generate_color_bars_yuyv dst width height = Some (Ok dst') /\
    length dst' = length dst /\
    forall y k j, 0 <= y < height -> 0 <= k -> 2 * k < width -> 0 <= j < 4 ->
      byte_at dst' ((y * width + 2 * k) * 2 + j) =
      yuyv_byte (nth (Z.to_nat (Z.min 7 (2 * k / (width / 8)))) colors_yuyv (0, 0, 0, 0)) j.
Proof.
  intros Hw Heven Hh Hdst. unfold generate_color_bars_yuyv.
  assert (Hbw : 0 < Z.quot width 8).
  { rewrite Z.quot_div_nonneg by lia. apply Z.div_str_pos. lia. }
  destruct (bars_rows_yuyv_In (Z.quot width 8) width
              (for_range 0 width 2) (for_range 0 height 1) ltac:(lia))
    as (ws & -> & Hin).
  assert (Hpair : forall k, 2 * k < width -> 2 * k + 2 <= width).
  { intros k Hk. pose proof (Z.div_mod width 2 ltac:(lia)) as Hdm.
    rewrite Heven in Hdm. lia. }
  destruct (store_all_in_bounds ws dst) as [dst' Hstore].
  { intros off v Hoff. apply Hin in Hoff as (y & x & j & Hy & Hx & Hj & -> & _).
    apply for_range_unit_In in Hy.
    apply for_range_step2_In in Hx as (k & Hk & -> & Hlt). apply Hpair in Hlt. nia. }
  exists dst'. split; [now rewrite Hstore|].
  split; [eapply store_all_length; eassumption|].
  intros y k j Hy Hk Hkw Hj. unfold byte_at.
  apply (store_all_content ws dst dst' _ _ 0 Hstore).
  - apply Hin. exists y, (2 * k), j.
    split; [now apply for_range_unit_In|].
    split; [apply for_range_step2_In; eauto|].
    split; [assumption|]. split; [reflexivity|].
    rewrite bar_of_min by lia. now rewrite Z.quot_div_nonneg by lia.
  - intros v' Hv'. apply Hin in Hv' as (y' & x' & j' & Hy' & Hx' & Hj' & Hoff & ->).
    apply for_range_unit_In in Hy'.
    apply for_range_step2_In in Hx' as (k' & Hk' & -> & Hlt').
    pose proof (Hpair k Hkw). pose proof (Hpair k' Hlt').
    assert (y' = y) by nia. subst y'.
    assert (k' = k) by lia. subst k'.
    assert (j' = j) by lia. subst j'.
    rewrite bar_of_min by lia. now rewrite Z.quot_div_nonneg by lia.
Qed.

(** Outside that domain: a positive width below 8 makes
    [generate_color_bars_yuyv] divide by a [bar_width] of 0 as soon as
    there is a row, and an odd width of 9 or more makes its last pair of
    the last row store past a destination of [width * height * 2] bytes. *)
Theorem color_bars_yuyv_edges (dst : list Z) (width height : Z) :
  0 < height ->
  (0 < width < 8 -> generate_color_bars_yuyv dst width height = None) /\
  (9 <= width -> width mod 2 = 1 -> Z.of_nat (length dst) = width * height * 2 ->
   generate_color_bars_yuyv dst width height = Some OutOfBounds).
Proof.
  intros Hh. split.
  - intros Hw. unfold generate_color_bars_yuyv.
    replace (Z.quot width 8) with 0 by (symmetry; apply Z.quot_small; lia).
    rewrite (for_range_cons 0 height 1), (for_range_cons 0 width 2) by lia.
    reflexivity.
  - intros Hw Hodd Hdst. unfold generate_color_bars_yuyv.
    assert (Hbw : 0 < Z.quot width 8).
    { rewrite Z.quot_div_nonneg by lia. apply Z.div_str_pos. lia. }
    destruct (bars_rows_yuyv_In (Z.quot width 8) width
                (for_range 0 width 2) (for_range 0 height 1) ltac:(lia))
      as (ws & -> & Hin).
    f_equal.
    pose proof (Z.div_mod width 2 ltac:(lia)) as Hdm. rewrite Hodd in Hdm.
    assert (Hlast : In (width * height * 2,
                        yuyv_byte (nth (Z.to_nat (bar_of (Z.quot width 8) (width - 1)))
                                       colors_yuyv (0, 0, 0, 0)) 2) ws).
    { apply Hin. exists (height - 1), (width - 1), 2.
      split; [apply for_range_unit_In; lia|].
      split; [apply for_range_step2_In; exists (width / 2); lia|].
      split; [lia|]. split; [lia|reflexivity]. }
    apply (store_all_out_of_bounds _ _ _ _ Hlast). lia.
Qed.

End ColorBars.

(** The geometry [main] uses in color-bars mode. *)
Lemma color_bars_yuyv_buffer_witness :
  exists dst',
    generate_color_bars_yuyv (repeat 0 (Z.to_nat (1280 * 720 * 2))) 1280 720 = Some (Ok dst') /\
    length dst' = length (repeat 0 (Z.to_nat (1280 * 720 * 2))) /\
    byte_at dst' ((719 * 1280 + 2 * 639) * 2 + 1) = 128.
Proof.
  destruct (color_bars_yuyv_buffer (repeat 0 (Z.to_nat (1280 * 720 * 2))) 1280 720
              ltac:(lia) ltac:(reflexivity) ltac:(lia)
              ltac:(rewrite repeat_length; lia))
    as (dst' & Hok & Hlen & Hbytes).
  exists dst'. split; [exact Hok|]. split; [exact Hlen|].
  apply (Hbytes 719 639 1); lia.
Defined.

(** A 4 x 1 pattern, and a 9 x 1 pattern into 18 bytes. *)
Lemma color_bars_yuyv_edges_witness :
  generate_color_bars_yuyv (repeat 0 8) 4 1 = None /\
  generate_color_bars_yuyv (repeat 0 18) 9 1 = Some OutOfBounds.
Proof.
  split.
  - apply (proj1 (color_bars_yuyv_edges (repeat 0 8) 4 1 ltac:(lia))). lia.
  - apply (proj2 (color_bars_yuyv_edges (repeat 0 18) 9 1 ltac:(lia)));
      [lia | reflexivity | reflexivity].
Defined.

Section ColorBarsXrgb.

Lemma bars_cols_xrgb32_In (bar_width width y : Z) (xs : list Z) :
  bar_width <> 0 ->
  exists ws, bars_cols_xrgb32 bar_width width y xs = Some ws /\
    forall off v, In (off, v) ws <->
      exists x, In x xs /\ off = y * width + x /\
        v = nth (Z.to_nat (bar_of bar_width x)) colors_xrgb32 0.
Proof.
  intros Hbw. induction xs as [|x xs (rest & Hrest & IH)].
  - exists []. split; [reflexivity|]. intros off v. split; [intros []|].
    intros (x & [] & _).
  - cbn [bars_cols_xrgb32]. destruct (Z.eqb_spec bar_width 0); [contradiction|].
    rewrite Hrest. eexists. split; [reflexivity|].
    intros off v. cbn [In]. rewrite IH. split.
    + intros [E|(x' & Hx' & H)].
      * apply pair_equal_spec in E as [<- <-]. exists x. auto.
      * exists x'. auto.
    + intros (x' & [->|Hx'] & -> & ->); [now left|].
      right. exists x'. auto.
Qed.

Lemma bars_rows_xrgb32_In (bar_width width : Z) (xs ys : list Z) :
  bar_width <> 0 ->
  exists ws, bars_rows_xrgb32 bar_width width xs ys = Some ws /\
    forall off v, In (off, v) ws <->
      exists y x, In y ys /\ In x xs /\ off = y * width + x /\
        v = nth (Z.to_nat (bar_of bar_width x)) colors_xrgb32 0.
Proof.
  intros Hbw. induction ys as [|y ys (rest & Hrest & IH)].
  - exists []. split; [reflexivity|]. intros off v. split; [intros []|].
    intros (y & x & [] & _).
  - cbn [bars_rows_xrgb32].
    destruct (bars_cols_xrgb32_In bar_width width y xs Hbw) as (row & Hrow & Hin).
    rewrite Hrow, Hrest. eexists. split; [reflexivity|].
    intros off v. rewrite in_app_iff, Hin, IH. split.
    + intros [(x & H)|(y' & x & Hy' & H)].
      * exists y, x. cbn [In]. tauto.
      * exists y', x. cbn [In]. tauto.
    + intros (y' & x & [->|Hy'] & H).
      * left. exists x. tauto.
      * right. exists y', x. tauto.
Qed.

(** For a width of at least 8 and a destination of [width * height]
    32-bit pixels, [generate_color_bars_xrgb32] neither divides by zero
    nor stores outside the buffer, and sets every pixel (x, y) to the
    colour of bar [min 7 (x / (width / 8))]; when the width is a multiple
    of 8 the eight bars are [width / 8] pixels wide each.  A positive
    width below 8 divides by zero as soon as there is a row. *)
Theorem color_bars_xrgb32_buffer (dst : list Z) (width height : Z) :
  0 <= height ->
  (8 <= width -> Z.of_nat (length dst) = width * height ->
   exists dst',
     generate_color_bars_xrgb32 dst width height = Some (Ok dst') /\
     length dst' = length dst /\
     (forall x y, 0 <= x < width -> 0 <= y < height ->
        byte_at dst' (y * width + x) =
        nth (Z.to_nat (Z.min 7 (x / (width / 8)))) colors_xrgb32 0) /\
     (width mod 8 = 0 -> forall x, 0 <= x < width -> x / (width / 8) <= 7)) /\
  (0 < width < 8 -> 0 < height -> generate_color_bars_xrgb32 dst width height = None).
Proof.
  intros Hh. split.
  - intros Hw Hdst. unfold generate_color_bars_xrgb32.
    assert (Hbw : 0 < Z.quot width 8).
    { rewrite Z.quot_div_nonneg by lia. apply Z.div_str_pos. lia. }
    destruct (bars_rows_xrgb32_In (Z.quot width 8) width
                (for_range 0 width 1) (for_range 0 height 1) ltac:(lia))
      as (ws & -> & Hin).
    destruct (store_all_in_bounds ws dst) as [dst' Hstore].
    { intros off v Hoff. apply Hin in Hoff as (y & x & Hy & Hx & -> & _).
      apply for_range_unit_In in Hy, Hx. nia. }
    exists dst'. split; [now rewrite Hstore|].
    split; [eapply store_all_length; eassumption|]. split.
    + intros x y Hx Hy. unfold byte_at.
      apply (store_all_content ws dst dst' _ _ 0 Hstore).
      * apply Hin. exists y, x. rewrite !for_range_unit_In.
        repeat split; try lia.
        rewrite bar_of_min by lia. now rewrite Z.quot_div_nonneg by lia.
      * intros v' Hv'. apply Hin in Hv' as (y' & x' & Hy' & Hx' & Hoff & ->).
        apply for_range_unit_In in Hy', Hx'.
        assert (y' = y) by nia. subst y'.
        assert (x' = x) by lia. subst x'.
        rewrite bar_of_min by lia. now rewrite Z.quot_div_nonneg by lia.
    + intros Hmult x Hx.
      pose proof (Z.div_mod width 8 ltac:(lia)) as Hdm. rewrite Hmult in Hdm.
      assert (0 < width / 8) by (apply Z.div_str_pos; lia).
      apply Z.lt_succ_r. apply Z.div_lt_upper_bound; lia.
  - intros Hw Hpos. unfold generate_color_bars_xrgb32.
    replace (Z.quot width 8) with 0 by (symmetry; apply Z.quot_small; lia).
    rewrite (for_range_cons 0 height 1), (for_range_cons 0 width 1) by lia.
    reflexivity.
Qed.

End ColorBarsXrgb.

(** The fallback geometry of [main], and a 4 x 1 pattern. *)
Lemma color_bars_xrgb32_buffer_witness :
  (exists dst',
     generate_color_bars_xrgb32 (repeat 0 (Z.to_nat (1280 * 720))) 1280 720 = Some (Ok dst') /\
     byte_at dst' (719 * 1280 + 160) = 0xFFFFFF00) /\
  generate_color_bars_xrgb32 [0; 0; 0; 0] 4 1 = None.
Proof.
  destruct (color_bars_xrgb32_buffer (repeat 0 (Z.to_nat (1280 * 720))) 1280 720 ltac:(lia))
    as [Hfill _].
  destruct (Hfill ltac:(lia) ltac:(rewrite repeat_length; lia))
    as (dst' & Hok & _ & Hpix & _).
  split.
  - exists dst'. split; [exact Hok|]. apply (Hpix 160 719); lia.
  - apply (proj2 (color_bars_xrgb32_buffer [0; 0; 0; 0] 4 1 ltac:(lia))); lia.
Defined.

(** ** Stride depadding: sizes that do not fit 32 bits *)

Section PackedOverflow.

Variables (src : pointer) (width height src_stride bpp : Z).

(** When the packed size [width * bytes_per_pixel * height] does not fit a
    [uint32_t], [create_packed_buffer] allocates the wrapped size and then
    copies past the end of that allocation. *)
Theorem packed_buffer_size_overflow :
  0 < wrap32 (width * bpp) ->
  0 <= height ->
  2 ^ 32 <= wrap32 (width * bpp) * height ->
  create_packed_buffer true src width height src_stride bpp = OutOfBounds.
Proof.
  intros Hps Hh Hbig. unfold create_packed_buffer. cbn [negb].
  set (ps := wrap32 (width * bpp)) in *.
  set (y0 := (2 ^ 32 - 1) / ps).
  assert (Hy0 : y0 * ps <= 2 ^ 32 - 1 < (y0 + 1) * ps).
  { pose proof (Z.div_mod (2 ^ 32 - 1) ps ltac:(lia)) as Hdm.
    pose proof (Z.mod_pos_bound (2 ^ 32 - 1) ps Hps) as Hm. fold y0 in Hdm. nia. }
  assert (Hy0h : 0 <= y0 < height).
  { split; [apply Z.div_pos; lia|]. nia. }
  pose proof (wrap32_range (ps * height)) as Hsize.
  match goal with |- obind ?m _ = _ => assert (Hout : m = OutOfBounds) end.
  { apply (store_all_out_of_bounds _ _ (y0 * ps + (ps - 1)) (src (wrap32 (y0 * src_stride) + (ps - 1)))).
    - apply in_flat_map. exists y0. split; [now apply for_range_unit_In|].
      rewrite (wrap32_small (y0 * ps)) by lia.
      unfold memcpy_writes. apply in_map_iff. exists (ps - 1).
      split; [reflexivity|]. apply for_range_unit_In. lia.
    - rewrite repeat_length. lia. }
  now rewrite Hout.
Qed.

End PackedOverflow.

(** A 32768 x 32768 frame of 4-byte pixels: the packed size is 2^32. *)
Lemma packed_buffer_size_overflow_witness :
  create_packed_buffer true (fun _ => 0) 32768 32768 131200 4 = OutOfBounds.
Proof.
  apply packed_buffer_size_overflow; [reflexivity | lia | discriminate].
Defined.

(** ** Strided copy *)

Section StridedCopy.

Variables (dst : list Z) (src : pointer) (width height src_stride dst_stride : Z).
Hypothesis Hwidth : 0 <= width.
Hypothesis Hheight : 0 <= height.
Hypothesis Hsrc : 0 <= src_stride.
Hypothesis Hdst : 0 <= dst_stride.
Hypothesis Hsrc_fit : height * src_stride < 2 ^ 32.
Hypothesis Hdst_fit : height * dst_stride < 2 ^ 32.
Hypothesis Hlen : Z.of_nat (length dst) = height * dst_stride.

Lemma strided_copy_In (off v : Z) :
  In (off, v)
     (flat_map (fun y => memcpy_writes src (wrap32 (y * dst_stride))
                                       (wrap32 (y * src_stride)) (Z.min width dst_stride))
               (for_range 0 height 1)) <->
  exists y i, 0 <= y < height /\ 0 <= i < Z.min width dst_stride /\
              off = y * dst_stride + i /\ v = src (y * src_stride + i).
Proof.
  rewrite in_flat_map. split.
  - intros (y & Hy & Hin). apply for_range_unit_In in Hy.
    rewrite (wrap32_small (y * dst_stride)), (wrap32_small (y * src_stride)) in Hin by nia.
    unfold memcpy_writes in Hin. apply in_map_iff in Hin as (i & Heq & Hi).
    apply for_range_unit_In in Hi. apply pair_equal_spec in Heq as [<- <-].
    exists y, i. auto.
  - intros (y & i & Hy & Hi & -> & ->). exists y.
    split; [now apply for_range_unit_In|].
    rewrite (wrap32_small (y * dst_stride)), (wrap32_small (y * src_stride)) by nia.
    unfold memcpy_writes. apply in_map_iff. exists i.
    split; [reflexivity|]. now apply for_range_unit_In.
Qed.

(** With no row offset wrapping and a destination of [height * dst_stride]
    bytes, [copy_frame_data_with_stride] stays inside the destination,
    copies the first [min width dst_stride] bytes of every source row (a
    count of bytes, whatever the pixel size) to the start of the matching
    destination row, and leaves the rest of each destination row as it
    was. *)
Theorem strided_copy_rows :
  exists dst',
    copy_frame_data_with_stride dst src width height src_stride dst_stride = Ok dst' /\
    length dst' = length dst /\
    forall y i, 0 <= y < height -> 0 <= i < dst_stride ->
      byte_at dst' (y * dst_stride + i) =
      (if i <? Z.min width dst_stride then src (y * src_stride + i)
       else byte_at dst (y * dst_stride + i)).
Proof.
  unfold copy_frame_data_with_stride.
  replace (if width <? dst_stride then width else dst_stride) with (Z.min width dst_stride)
    by (destruct (Z.ltb_spec width dst_stride); lia).
  set (ws := flat_map _ _).
  destruct (store_all_in_bounds ws dst) as [dst' Hstore].
  { intros off v Hin. apply strided_copy_In in Hin as (y & i & Hy & Hi & -> & _). nia. }
  exists dst'. split; [assumption|].
  split; [eapply store_all_length; eassumption|].
  intros y i Hy Hi. unfold byte_at.
  destruct (Z.ltb_spec i (Z.min width dst_stride)) as [Hcopied|Hkept].
  - apply (store_all_content ws dst dst' _ _ 0 Hstore).
    + apply strided_copy_In. exists y, i. repeat split; (lia || reflexivity).
    + intros v' Hin. apply strided_copy_In in Hin as (y' & i' & Hy' & Hi' & Heq & ->).
      assert (y' = y) by nia. subst y'. f_equal. lia.
  - apply (store_all_untouched ws dst dst' _ 0 Hstore); [nia|].
    intros Hin. apply in_map_iff in Hin as ([off v] & Hoff & Hin). cbn [fst] in Hoff.
    subst off. apply strided_copy_In in Hin as (y' & i' & Hy' & Hi' & Heq & _).
    assert (y' = y) by nia. subst y'. lia.
Qed.

End StridedCopy.

(** Two rows of three bytes out of rows of five, into rows of four. *)
Lemma strided_copy_rows_witness :
  copy_frame_data_with_stride [9; 9; 9; 9; 9; 9; 9; 9] (fun off => off) 3 2 5 4 =
    Ok [0; 1; 2; 9; 5; 6; 7; 9].
Proof.
  destruct (strided_copy_rows [9; 9; 9; 9; 9; 9; 9; 9] (fun off => off) 3 2 5 4
              ltac:(lia) ltac:(lia) ltac:(lia) ltac:(lia)
              ltac:(reflexivity) ltac:(reflexivity) ltac:(reflexivity))
    as (dst' & Hok & _ & _).
  rewrite Hok. vm_compute in Hok. symmetry. exact Hok.
Defined.

(** ** The stream callbacks: what they never do *)

Section ProcessNever.

(** [on_stream_process] asks the loop to quit only from the handling of a
    failed write: with a loop to quit, in screen-capture mode, after the
    warm-up, on a frame that reached the [switch] and either had no
    converter or saw [write] return a negative value, having just
    incremented the error counter, and with the session inactive or the
    counter at 5 or more. *)
Theorem on_stream_process_quits_only_on_failure (p : pipeline) (f : frame) :
  quit (snd (on_stream_process p f)) = true ->
  loop (data p) = true /\
  color_bars_mode (data p) = false /\
  5 <= frame_skip_count (data p) /\
  write_error_count (fst (on_stream_process p f)) = write_error_count p + 1 /\
  (portal_session (data p) = Some false \/ 5 <= write_error_count p + 1) /\
  (ended (snd (on_stream_process p f)) = Unsupported \/
   write_result f < 0 /\
   exists c packed s, ended (snd (on_stream_process p f)) = Converted c packed s).
Proof.
  intros Hquit.
  destruct (on_stream_process_cases p f)
    as (d' & Hsame & [(e & Heq & _)|[(_ & _ & _ & Heq)|(Hbars & Hskip & _ & s & Heq)]]).
  - rewrite Heq in Hquit. discriminate.
  - rewrite Heq in Hquit. discriminate.
  - rewrite Heq in *.
    pose proof (convert_and_write_spec d' (write_error_count p) s f) as (_ & Hh & Hc).
    cbv zeta in Hh, Hc.
    rewrite (handle_written_same_stream (data p) d') in Hh by assumption.
    rewrite Hquit in Hh. unfold handle_written in Hh.
    set (written := match select_converter (spa_format d') with
                    | Some _ => write_result f
                    | None => -1
                    end) in *.
    destruct (Z.ltb_spec written 0) as [Hneg|Hpos].
    2:{ destruct (written >? 0); inversion Hh. }
    cbv zeta in Hh.
    assert (Hfacts : loop (data p) = true /\
                     write_error_count (fst (convert_and_write d' (write_error_count p) s f)) =
                       write_error_count p + 1 /\
                     (portal_session (data p) = Some false \/ 5 <= write_error_count p + 1)).
    { destruct (portal_session (data p)) as [[|]|];
        destruct (Z.geb_spec (write_error_count p + 1) 5);
        apply pair_equal_spec in Hh as [Hn Hq];
        repeat split; auto; try congruence; try lia. }
    destruct Hfacts as (Hloop & Hcount & Hwhy).
    repeat split; try assumption.
    subst written. destruct (select_converter (spa_format d')).
    + right. split; [assumption|]. destruct Hc as (_ & pk & cs & Hc). eauto.
    + left. tauto.
Qed.

End ProcessNever.

(** The fifth consecutive failed write on an active session. *)
Lemma on_stream_process_quits_only_on_failure_witness :
  let p := fst (process_all
                  (fst (run (started 3 false)
                          (Param (negotiate 4 2 8) :: repeat (Process (plain_frame 255 16)) 5)))
                  (repeat (plain_frame 255 (-1)) 4)) in
  write_error_count (fst (on_stream_process p (plain_frame 255 (-1)))) = write_error_count p + 1.
Proof.
  cbv zeta.
  refine (proj1 (proj2 (proj2 (proj2 (on_stream_process_quits_only_on_failure _ _ _))))).
  vm_compute. reflexivity.
Defined.

(** ** Frame skipping is bounded *)

Section SkipBound.

Lemma on_stream_process_skip_step (p : pipeline) (f : frame) :
  frame_skip_count (data (fst (on_stream_process p f))) =
    frame_skip_count (data p) + (if is_skipped (snd (on_stream_process p f)) then 1 else 0) /\
  (is_skipped (snd (on_stream_process p f)) = true -> frame_skip_count (data p) < 5).
Proof.
  destruct (on_stream_process_cases p f)
    as (d' & Hsame & [(e & Heq & He)|[(_ & _ & Hk & Heq)|(_ & _ & Hk & s & Heq)]]).
  - rewrite Heq. unfold let_go, is_skipped. cbn [fst snd data ended].
    destruct He as [[[-> | ->] Hk]|[(-> & Hlt & Hk)|[[-> | [-> | ->]] [_ Hk]]]];
      split; (lia || discriminate || auto).
  - rewrite Heq. unfold is_skipped. cbn. split; (lia || discriminate).
  - rewrite Heq.
    pose proof (convert_and_write_spec d' (write_error_count p) s f) as (Hd & _ & Hc).
    cbv zeta in Hd, Hc. rewrite Hd. unfold is_skipped.
    destruct (select_converter (spa_format d')).
    + destruct Hc as (_ & pk & cs & ->). split; (lia || discriminate).
    + destruct Hc as (_ & ->). split; (lia || discriminate).
Qed.

(** Over any run of delivered buffers, the frame-skip counter grows by
    exactly the number of frames skipped for warm-up and never passes 5:
    from a counter of [c] between 0 and 5, at most [5 - c] frames are ever
    skipped, and none once it is 5. *)
Theorem frame_skip_bounded (fs : list frame) (p : pipeline) :
  0 <= frame_skip_count (data p) <= 5 ->
  let r := process_all p fs in
  frame_skip_count (data (fst r)) =
    frame_skip_count (data p) + Z.of_nat (length (filter is_skipped (snd r))) /\
  frame_skip_count (data (fst r)) <= 5.
Proof.
  revert p. induction fs as [|f fs IH]; intros p Hc; cbn [process_all].
  - cbn. lia.
  - pose proof (on_stream_process_skip_step p f) as [Hstep Hlt].
    destruct (on_stream_process p f) as [p1 fx]. cbn [fst snd] in Hstep, Hlt.
    specialize (IH p1).
    destruct (process_all p1 fs) as [p2 fxs]. cbn [fst snd filter] in *.
    destruct (is_skipped fx).
    + specialize (Hlt eq_refl). destruct IH as [IH1 IH2]; [lia|].
      cbn [length]. lia.
    + destruct IH as [IH1 IH2]; [lia|]. lia.
Qed.

End SkipBound.

(** Eight white frames after a first negotiation: five are skipped. *)
Lemma frame_skip_bounded_witness :
  let p := fst (run (started 3 false) [Param (negotiate 4 2 8)]) in
  let r := process_all p (repeat (plain_frame 255 16) 8) in
  frame_skip_count (data (fst r)) =
    frame_skip_count (data p) + Z.of_nat (length (filter is_skipped (snd r))) /\
  frame_skip_count (data (fst r)) <= 5.
Proof.
  cbv zeta.
  apply (frame_skip_bounded (repeat (plain_frame 255 16) 8)
           (fst (run (started 3 false) [Param (negotiate 4 2 8)]))).
  vm_compute. split; discriminate.
Defined.

(** ** The scratch buffer and the negotiated geometry *)

Section ScratchBuffer.

Lemma acquire_keeps_scratch (d : app_data) (f : frame) :
  conversion_buffer_size (fst (acquire d f)) = conversion_buffer_size d.
Proof.
  unfold acquire.
  destruct (d_type f); cbn; try reflexivity.
  destruct (gl_import d); cbn; try reflexivity.
  destruct (negb (gl_buffer d) || (gl_buffer_size d <? _)); cbn;
    destruct (gl_realloc_ok f); cbn; destruct (gl_import_ok f); cbn; reflexivity.
Qed.

Lemma on_stream_param_changed_keeps_sink (d : app_data) (e : param_event) :
  v4l2_fd (on_stream_param_changed d e) = v4l2_fd d.
Proof.
  unfold on_stream_param_changed.
  destruct (param e) as [[info|]|]; destruct (id e); try reflexivity.
  destruct ((negb (format_set d) || _) && _); [destruct (ioctl_ok e)|]; reflexivity.
Qed.

Lemma on_stream_param_changed_keeps_scratch (d : app_data) (e : param_event) :
  0 <= v4l2_fd d -> ioctl_ok e = true -> realloc_ok e = true ->
  scratch_matches_geometry d ->
  scratch_matches_geometry (on_stream_param_changed d e).
Proof.
  intros Hfd Hioctl Hrealloc Hinv. unfold on_stream_param_changed.
  destruct (param e) as [[info|]|]; destruct (id e); try exact Hinv.
  destruct (Z.geb_spec (v4l2_fd d) 0) as [_|Hlt]; [|lia].
  rewrite Bool.andb_true_r, Hioctl. cbn [negb].
  destruct (format_set d) eqn:Hset; cbn [negb orb].
  - destruct (Z.eqb_spec (width d) (info_width info)) as [Hw|_]; cbn [negb orb].
    + destruct (Z.eqb_spec (height d) (info_height info)) as [Hh|_]; cbn [negb].
      * unfold scratch_matches_geometry in *. cbn. intros _.
        rewrite <- Hw, <- Hh. apply Hinv. assumption.
      * unfold scratch_matches_geometry. cbn. auto.
    + unfold scratch_matches_geometry. cbn. auto.
  - unfold scratch_matches_geometry. cbn. auto.
Qed.

Lemma on_stream_process_keeps_scratch (p : pipeline) (f : frame) :
  scratch_matches_geometry (data p) ->
  scratch_matches_geometry (data (fst (on_stream_process p f))).
Proof.
  intros Hinv. unfold on_stream_process.
  destruct (dequeued f); cbn [negb]; [|exact Hinv].
  pose proof (acquire_same_stream (data p) f) as (Hsame & _ & Hbuf).
  pose proof (acquire_keeps_scratch (data p) f) as Hsize.
  destruct (acquire (data p) f) as [d have_frame]. cbn [fst] in Hsame, Hbuf, Hsize.
  assert (Hd : scratch_matches_geometry d).
  { unfold scratch_matches_geometry, same_stream in *.
    destruct Hsame as (_ & _ & _ & -> & -> & _ & -> & _). rewrite Hbuf, Hsize. exact Hinv. }
  clear Hinv Hsame Hbuf Hsize.
  destruct have_frame; cbn [negb]; [|exact Hd].
  set (s := actual_stride _ _ _ _).
  assert (Hs : scratch_matches_geometry (set_stride d s)) by exact Hd.
  change (frame_skip_count (set_stride d s)) with (frame_skip_count d).
  destruct (frame_skip_count d <? 5); [exact Hd|].
  destruct (v4l2_fd (set_stride d s) >=? 0); cbn [negb]; [|exact Hs].
  unfold to_sink.
  set (d0 := set_stride d s) in *.
  set (on_demand := negb (conversion_buffer d0) && negb (color_bars_mode d0)).
  set (d1 := if on_demand then set_conversion_buffer d0 _ _ else d0).
  assert (H1 : scratch_matches_geometry d1).
  { subst d1 on_demand.
    destruct (negb (conversion_buffer d0) && negb (color_bars_mode d0)) eqn:E; [|exact Hs].
    unfold scratch_matches_geometry. cbn. intros Hset.
    destruct (Hs Hset) as [Hb _]. fold d0 in Hb.
    rewrite Hb in E. discriminate. }
  destruct (on_demand && negb (conv_malloc_ok f)); [exact H1|].
  destruct (color_bars_mode d1); [exact H1|].
  destruct (negb (validate_frame_data _ _ _ _ _)); [exact H1|].
  rewrite (proj1 (convert_and_write_spec d1 (write_error_count p) s f)). exact H1.
Qed.

Lemma on_stream_process_keeps_sink (p : pipeline) (f : frame) :
  v4l2_fd (data (fst (on_stream_process p f))) = v4l2_fd (data p).
Proof.
  destruct (on_stream_process_cases p f)
    as (d' & Hsame & [(e & -> & _)|[(_ & _ & _ & ->)|(_ & _ & _ & s & ->)]]).
  - cbn. unfold same_stream in Hsame. tauto.
  - cbn. unfold same_stream in Hsame. tauto.
  - rewrite (proj1 (convert_and_write_spec d' (write_error_count p) s f)).
    unfold same_stream in Hsame. tauto.
Qed.

(** While the sink takes every format it is asked to take and the scratch
    buffer can be reallocated, the scratch buffer follows the negotiated
    geometry through any interleaving of format events and delivered
    buffers: whenever a format is set, the buffer is allocated and
    [conversion_buffer_size] is [width * height * 2] for the stored width
    and height. *)
Theorem scratch_buffer_tracks_geometry (evs : list event) (p : pipeline) :
  0 <= v4l2_fd (data p) ->
  scratch_matches_geometry (data p) ->
  Forall sink_accepts evs ->
  scratch_matches_geometry (data (fst (run p evs))).
Proof.
  revert p. induction evs as [|ev evs IH]; intros p Hfd Hinv Hall; cbn [run].
  - exact Hinv.
  - inversion Hall as [|? ? Hev Hrest]; subst.
    assert (Hstep : 0 <= v4l2_fd (data (fst (step p ev))) /\
                    scratch_matches_geometry (data (fst (step p ev)))).
    { destruct ev as [e|f]; cbn [step].
      - destruct Hev as [Hi Hr]. cbn [fst data]. split.
        + rewrite on_stream_param_changed_keeps_sink. exact Hfd.
        + now apply on_stream_param_changed_keeps_scratch.
      - pose proof (on_stream_process_keeps_sink p f) as Hk.
        pose proof (on_stream_process_keeps_scratch p f Hinv) as Hs.
        destruct (on_stream_process p f) as [p1 fx]. cbn [fst] in *. split; [lia|exact Hs]. }
    destruct (step p ev) as [p1 fx]. cbn [fst] in Hstep. destruct Hstep as [Hfd1 Hinv1].
    specialize (IH p1 Hfd1 Hinv1 Hrest).
    destruct (run p1 evs) as [p2 fxs]. exact IH.
Qed.

(** When [VIDIOC_S_FMT] fails for a change of geometry on a sink that was
    configured before, [on_stream_param_changed] returns with the new width
    and height stored but the scratch buffer, its size and the frame-skip
    counter as they were; a later event with the same geometry finds no
    change of dimensions and does not call the ioctl again, whether or not
    it would succeed. *)
Theorem failed_format_update_is_not_retried (d : app_data) (e e' : param_event)
    (info info' : spa_video_info_raw) :
  id e = SPA_PARAM_Format -> param e = Some (Some info) ->
  id e' = SPA_PARAM_Format -> param e' = Some (Some info') ->
  info_width info' = info_width info -> info_height info' = info_height info ->
  format_set d = true -> 0 <= v4l2_fd d ->
  (width d <> info_width info \/ height d <> info_height info) ->
  ioctl_ok e = false ->
  let d1 := on_stream_param_changed d e in
  let d2 := on_stream_param_changed d1 e' in
  (width d1 = info_width info /\ height d1 = info_height info /\
   conversion_buffer d1 = conversion_buffer d /\
   conversion_buffer_size d1 = conversion_buffer_size d /\
   frame_skip_count d1 = frame_skip_count d) /\
  (width d2 = info_width info /\ height d2 = info_height info /\
   conversion_buffer d2 = conversion_buffer d /\
   conversion_buffer_size d2 = conversion_buffer_size d /\
   frame_skip_count d2 = frame_skip_count d).
Proof.
  intros Hid Hparam Hid' Hparam' Hw' Hh' Hset Hfd Hchanged Hioctl. cbv zeta.
  assert (E1 : on_stream_param_changed d e =
               {| loop := loop d; portal_session := portal_session d; v4l2_fd := v4l2_fd d;
                  width := info_width info; height := info_height info;
                  stride := wrap32 (info_width info * bytes_per_pixel (info_format info));
                  spa_format := info_format info; format_set := format_set d;
                  color_bars_mode := color_bars_mode d;
                  frame_skip_count := frame_skip_count d;
                  conversion_buffer := conversion_buffer d;
                  conversion_buffer_size := conversion_buffer_size d;
                  gl_import := gl_import d; gl_buffer := gl_buffer d;
                  gl_buffer_size := gl_buffer_size d |}).
  { unfold on_stream_param_changed. rewrite Hparam, Hid, Hioctl. cbn [negb].
    destruct ((negb (format_set d) || _) && _); reflexivity. }
  rewrite E1. split; [cbn; auto 6|].
  unfold on_stream_param_changed. rewrite Hparam', Hid'. cbn [format_set width height].
  rewrite Hset, Hw', Hh', !Z.eqb_refl. cbn. auto 6.
Qed.

End ScratchBuffer.

(** A first negotiation, a change of geometry and frames in between. *)
Lemma scratch_buffer_tracks_geometry_witness :
  scratch_matches_geometry
    (data (fst (run (started 3 false)
                  [Param (negotiate 4 2 8); Process (plain_frame 255 16);
                   Param (negotiate 6 2 8); Process (plain_frame 255 16)]))).
Proof.
  apply (scratch_buffer_tracks_geometry
           [Param (negotiate 4 2 8); Process (plain_frame 255 16);
            Param (negotiate 6 2 8); Process (plain_frame 255 16)]
           (started 3 false)).
  - cbn. lia.
  - intros Hset. discriminate Hset.
  - repeat constructor.
Defined.

(** A sink configured for 4 x 2 that refuses 6 x 2. *)
Lemma failed_format_update_is_not_retried_witness :
  let d := data (fst (run (started 3 false) [Param (negotiate 4 2 8)])) in
  let refused := {| id := SPA_PARAM_Format;
                    param := Some (Some {| info_format := 8; info_width := 6;
                                           info_height := 2 |});
                    ioctl_ok := false; realloc_ok := true |} in
  let d2 := on_stream_param_changed (on_stream_param_changed d refused) (negotiate 6 2 8) in
  width d2 = 6 /\ height d2 = 2 /\ conversion_buffer_size d2 = 16.
Proof.
  cbv zeta.
  pose proof (failed_format_update_is_not_retried
                (data (fst (run (started 3 false) [Param (negotiate 4 2 8)])))
                {| id := SPA_PARAM_Format;
                   param := Some (Some {| info_format := 8; info_width := 6;
                                          info_height := 2 |});
                   ioctl_ok := false; realloc_ok := true |}
                (negotiate 6 2 8)
                {| info_format := 8; info_width := 6; info_height := 2 |}
                {| info_format := 8; info_width := 6; info_height := 2 |}
                eq_refl eq_refl eq_refl eq_refl eq_refl eq_refl eq_refl
                ltac:(vm_compute; discriminate)
                ltac:(left; vm_compute; discriminate)
                eq_refl) as [_ (Hw & Hh & _ & Hsize & _)].
  cbv zeta in Hw, Hh, Hsize.
  split; [exact Hw|]. split; [exact Hh|]. rewrite Hsize. reflexivity.
Defined.

(** ** The validity filter at its extremes *)

Section ValidityExtremes.

Variables (data : pointer) (width height spa_format stride : Z).

Lemma sample_steps_positive :
  0 < (if 10 <? width then width / 10 else 1) /\
  0 < (if 100 <? height then height / 100 else 1).
Proof.
  split.
  - destruct (Z.ltb_spec 10 width); [|lia]. apply Z.div_str_pos. lia.
  - destruct (Z.ltb_spec 100 height); [|lia]. apply Z.div_str_pos. lia.
Qed.

Lemma filter_none {A : Type} (f : A -> bool) (l : list A) :
  (forall a, In a l -> f a = false) -> filter f l = [].
Proof.
  induction l as [|a l IH]; intros H; [reflexivity|].
  cbn [filter]. rewrite (H a) by now left. apply IH. intros b Hb. apply H. now right.
Qed.

Lemma filter_all {A : Type} (f : A -> bool) (l : list A) :
  (forall a, In a l -> f a = true) -> filter f l = l.
Proof.
  induction l as [|a l IH]; intros H; [reflexivity|].
  cbn [filter]. rewrite (H a) by now left. f_equal. apply IH. intros b Hb. apply H. now right.
Qed.

Lemma sampled_pixels_empty :
  width <= 0 \/ height <= 0 -> sampled_pixels width height = [].
Proof.
  intros Hempty. destruct sample_steps_positive as [Hx Hy].
  unfold sampled_pixels, sample_grid.
  destruct Hempty as [Hw|Hh].
  - rewrite (for_range_nil 0 width) by assumption. cbn [map].
    induction (for_range 0 height _) as [|y ys IH]; [reflexivity|].
    cbn [flat_map app]. exact IH.
  - rewrite (for_range_nil 0 height) by assumption. reflexivity.
Qed.

Lemma sampled_pixels_first :
  0 < width -> 0 < height ->
  exists rest, sampled_pixels width height = (0, 0) :: rest.
Proof.
  intros Hw Hh. destruct sample_steps_positive as [Hx Hy].
  unfold sampled_pixels, sample_grid.
  rewrite (for_range_cons 0 height) by assumption. cbn [flat_map].
  rewrite (for_range_cons 0 width) by assumption. cbn [map app].
  change (Z.to_nat 1000) with (S (Z.to_nat 999)) || idtac.
  eexists. reflexivity.
Qed.

(** The filter rejects a frame with no area (the ratio is 0/0, a NaN that
    the comparison refuses) and a frame whose bytes are all zero, and it
    accepts a frame of at least one pixel in which no byte is zero. *)
Theorem validate_frame_data_extremes :
  (width <= 0 \/ height <= 0 ->
   validate_frame_data data width height spa_format stride = false) /\
  ((forall offset, data offset = 0) ->
   validate_frame_data data width height spa_format stride = false) /\
  (0 < width -> 0 < height -> (forall offset, data offset <> 0) ->
   validate_frame_data data width height spa_format stride = true).
Proof.
  unfold validate_frame_data. rewrite validate_counts_spec.
  set (bpp := bytes_per_pixel spa_format).
  set (sampled := sampled_pixels width height).
  assert (Htotal : Z.of_nat (length sampled) <= 1000).
  { subst sampled. unfold sampled_pixels. rewrite length_firstn. lia. }
  pose proof (non_black_pixels_bound data stride bpp sampled) as Hnb.
  rewrite ratio_above_one_percent_exact by lia.
  split; [|split].
  - intros Hempty. subst sampled. rewrite sampled_pixels_empty by assumption.
    reflexivity.
  - intros Hblack. apply Z.ltb_ge.
    assert (E : non_black_pixels data stride bpp sampled = 0).
    { unfold non_black_pixels.
      rewrite filter_none; [reflexivity|].
      intros [x y] _. rewrite (is_non_black_at data stride bpp x y).
      unfold non_black_at. rewrite !Hblack. reflexivity. }
    lia.
  - intros Hw Hh Hlit. apply Z.ltb_lt.
    assert (E : non_black_pixels data stride bpp sampled = Z.of_nat (length sampled)).
    { unfold non_black_pixels. f_equal. f_equal.
      apply filter_all.
      intros [x y] _. rewrite (is_non_black_at data stride bpp x y).
      unfold non_black_at.
      destruct (Z.eqb_spec (data (pixel_offset stride bpp x y)) 0) as [E0|_];
        [now apply Hlit in E0|reflexivity]. }
    destruct (sampled_pixels_first Hw Hh) as (rest & Hfirst).
    fold sampled in Hfirst. rewrite E, Hfirst. cbn [length]. lia.
Qed.

End ValidityExtremes.

(** ** The argument loop, argument by argument *)

Section Arguments.

Lemma parse_args_step (arg : string) (rest : list string) (o : options) :
  parse_args (arg :: rest) o =
    match classify arg with
    | ColorBarsFlag =>
        parse_args rest {| opt_color_bars := true; opt_debug := opt_debug o;
                           v4l2_device := v4l2_device o |}
    | DebugFlag =>
        parse_args rest {| opt_color_bars := opt_color_bars o; opt_debug := true;
                           v4l2_device := v4l2_device o |}
    | HelpFlag => inr 0
    | DevicePath =>
        parse_args rest {| opt_color_bars := opt_color_bars o; opt_debug := opt_debug o;
                           v4l2_device := arg |}
    | UnknownOption => inr 1
    end.
Proof.
  cbn [parse_args]. unfold classify.
  repeat match goal with
         | |- context [if ?b then _ else _] => destruct b
         end; reflexivity.
Qed.

Lemma last_cons_default {A : Type} (a d : A) (l : list A) :
  last (a :: l) d = last l a.
Proof.
  revert a d. induction l as [|b l IH]; intros a d; [reflexivity|].
  change (last (a :: b :: l) d) with (last (b :: l) d).
  rewrite (IH b d), (IH b a). reflexivity.
Qed.

Lemma parse_args_app (pre rest : list string) (o : options) :
  Forall (fun arg => classify arg <> HelpFlag /\ classify arg <> UnknownOption) pre ->
  parse_args (pre ++ rest) o = parse_args rest (options_after pre o).
Proof.
  revert o. induction pre as [|arg pre IH]; intros o Hall.
  - cbn [app]. unfold options_after. cbn [existsb filter last].
    rewrite !orb_false_r. destruct o; reflexivity.
  - inversion Hall as [|? ? [Hhelp Hunknown] Hrest]; subst.
    cbn [app]. rewrite parse_args_step.
    unfold options_after at 1. cbn [existsb filter]. unfold is_class at 1 3 5.
    destruct (classify arg); try congruence; rewrite IH by assumption;
      unfold options_after; cbn [opt_color_bars opt_debug v4l2_device];
      rewrite ?orb_true_r, ?orb_false_l, ?last_cons_default; reflexivity.
Qed.

(** The argument loop reads left to right and stops at the first help flag
    (returning 0) or unknown option (returning 1), whatever follows.  Absent
    those it ends with each flag set if it was given anywhere, any number
    of times, and with the last device path given, or the default. *)
Theorem parse_args_left_to_right (pre rest : list string) (o : options) :
  Forall (fun arg => classify arg <> HelpFlag /\ classify arg <> UnknownOption) pre ->
  parse_args pre o = inl (options_after pre o) /\
  (forall arg, classify arg = HelpFlag -> parse_args (pre ++ arg :: rest) o = inr 0) /\
  (forall arg, classify arg = UnknownOption -> parse_args (pre ++ arg :: rest) o = inr 1).
Proof.
  intros Hall. split; [|split].
  - rewrite <- (app_nil_r pre) at 1. rewrite parse_args_app by assumption. reflexivity.
  - intros arg Hc. rewrite parse_args_app by assumption.
    rewrite parse_args_step, Hc. reflexivity.
  - intros arg Hc. rewrite parse_args_app by assumption.
    rewrite parse_args_step, Hc. reflexivity.
Qed.

End Arguments.

(** Two device paths around a flag given twice. *)
Lemma parse_args_left_to_right_witness :
  let o := {| opt_color_bars := false; opt_debug := false;
              v4l2_device := "/dev/video0"%string |} in
  let pre := ["/dev/video2"; "-c"; "--color-bars"; "/dev/video3"]%string in
  parse_args pre o =
    inl {| opt_color_bars := true; opt_debug := false; v4l2_device := "/dev/video3"%string |} /\
  parse_args (pre ++ ["-h"; "--bogus"]%string) o = inr 0 /\
  parse_args (pre ++ ["--bogus"; "-h"]%string) o = inr 1.
Proof.
  cbv zeta.
  pose proof (parse_args_left_to_right
                ["/dev/video2"; "-c"; "--color-bars"; "/dev/video3"]%string) as H.
  split; [|split].
  - apply (H [] {| opt_color_bars := false; opt_debug := false;
                   v4l2_device := "/dev/video0"%string |}).
    repeat constructor; discriminate.
  - apply (H ["--bogus"]%string); [repeat constructor; discriminate|reflexivity].
  - apply (H ["-h"]%string); [repeat constructor; discriminate|reflexivity].
Defined.

(** ** The GL import path: what is acquired is given back *)

Section GlResources.

(** [gl_context_create] either fails, returning NULL with everything it
    acquired released again, most recent first, or succeeds with every call
    having succeeded, and then [gl_context_destroy] on the context it
    returned releases everything, most recent first, so that nothing is
    held afterwards. *)
Theorem gl_context_lifecycle (env : gl_create_env) :
  match gl_context_create env with
  | (None, t) => held_after t [] = Some []
  | (Some ctx, t) =>
      held_after (t ++ gl_context_destroy (Some ctx)) [] = Some [] /\
      has_dma_buf_import ctx = dma_buf_import_ext env /\
      calloc_ok env && get_display_ok env && initialize_ok env && choose_config_ok env
        && create_surface_ok env && create_context_ok env && make_current_ok env
        && proc_addresses_ok env = true
  end.
Proof.
  unfold gl_context_create, gl_context_destroy.
  destruct (calloc_ok env); cbn [negb]; [|reflexivity].
  destruct (get_display_ok env); cbn [negb]; [|reflexivity].
  destruct (initialize_ok env); cbn [negb]; [|reflexivity].
  destruct (choose_config_ok env); cbn [negb]; [|reflexivity].
  destruct (create_surface_ok env); cbn [negb]; [|reflexivity].
  destruct (create_context_ok env); cbn [negb]; [|reflexivity].
  destruct (make_current_ok env); cbn [negb]; [|reflexivity].
  destruct (proc_addresses_ok env); cbn [negb]; [|reflexivity].
  cbn [framebuffer has_dma_buf_import].
  destruct (gen_framebuffer env =? 0); repeat split; reflexivity.
Qed.

(** On every path through [gl_import_dma_buffer], the image and the texture
    it creates are destroyed before it returns, texture first, and the
    resources held before the call are those held after it; if it bound the
    context's framebuffer, the default framebuffer is bound again.  It
    reads pixels only into a buffer of at least [width * height * 4] bytes
    as computed in 32 bits, and it returns [true] only after reading them. *)
Theorem gl_import_dma_buffer_balanced (ctx : option gl_context) (dma_fd width height : Z)
    (out_buffer : bool) (out_buffer_size : Z) (env : gl_import_env)
    (held : list gl_resource) :
  let r := gl_import_dma_buffer ctx dma_fd width height out_buffer out_buffer_size env in
  held_after (snd r) held = Some held /\
  bound_after (snd r) false = false /\
  (forall w h, In (ReadPixels w h) (snd r) ->
     w = width /\ h = height /\ wrap32 (width * height * 4) <= out_buffer_size) /\
  (fst r = true ->
   In (ReadPixels width height) (snd r) /\
   gl_has_dma_buf_import_support ctx = true /\ 0 <= dma_fd /\ out_buffer = true).
Proof.
  cbv zeta. unfold gl_import_dma_buffer, gl_has_dma_buf_import_support.
  destruct ctx as [ctx|]; [|cbn; intuition discriminate].
  destruct (has_dma_buf_import ctx); cbn [negb orb]; [|cbn; intuition discriminate].
  destruct (Z.ltb_spec dma_fd 0) as [Hfd|Hfd]; cbn [negb orb];
    [cbn; intuition discriminate|].
  destruct out_buffer; cbn [negb orb]; [|cbn; intuition discriminate].
  destruct (import_make_current_ok env); cbn [negb]; [|cbn; intuition discriminate].
  destruct (create_image_ok env); cbn [negb]; [|cbn; intuition discriminate].
  destruct (image_target_ok env); cbn [negb];
    [|cbn; repeat split; intros; intuition discriminate].
  destruct (framebuffer_complete env); cbn [negb];
    [|cbn; repeat split; intros; intuition discriminate].
  destruct (Z.ltb_spec out_buffer_size (wrap32 (width * height * 4))) as [Hsize|Hsize];
    [cbn; repeat split; intros; intuition discriminate|].
  assert (Hread : forall w h (t : list gl_call),
             In (ReadPixels w h)
                ([MakeCurrent true; Acquire EglImage; Acquire GlTexture; BindFramebuffer true;
                  ReadPixels width height; BindFramebuffer false; Release GlTexture;
                  Release EglImage]) ->
             w = width /\ h = height /\ wrap32 (width * height * 4) <= out_buffer_size).
  { intros w h _ Hin. cbn in Hin.
    repeat (destruct Hin as [Hin|Hin]; [try discriminate|]); [|contradiction].
    assert (w = width /\ h = height) as [-> ->] by (split; congruence). auto. }
  destruct (read_pixels_ok env); cbn [negb fst snd app];
    (split; [reflexivity|]); (split; [reflexivity|]);
    (split; [intros w h; apply (Hread w h [])|]).
  - intros _. cbn. auto 10.
  - discriminate.
Qed.

End GlResources.

(** ** The portal handshake *)

Section PortalHandshake.

Import Portal.

Ltac run_handlers :=
  cbv beta iota zeta delta
    [handle on_request_response on_session_started on_session_created
     on_sources_selected on_session_closed portal_open_pipewire_remote
     portal_select_sources portal_start_session on_pipewire_ready setup_pipewire_stream
     portal_quit_main_loop set_session set_callbacks set_pipewire set_data stage
     create_session_callback select_sources_callback start_session_callback
     session_handle node_id pipewire_fd session_active main_loop_quit data_node_id
     loop context core stream stream_ready portal_ready pw_loop_quit
     code streams select_sources_ok start_ok open_remote loop_new_ok context_new_ok
     connect_fd_ok stream_new_ok stream_connect_ok negb].

Lemma handle_keeps_invariant (st : state) (s : signal) :
  handshake_invariant st -> handshake_invariant (handle st s).
Proof.
  unfold handshake_invariant.
  destruct st as [cb1 cb2 cb3 sh nid fd act q dnid lp cx co sm sr pr pq].
  destruct s as [r|].
  - destruct r as [c ss sel sta opn lno cno cfo sno sco].
    destruct (c =? 0) eqn:Ec.
    2:{ run_handlers. rewrite Ec. intuition congruence. }
    destruct ss as [[id|]|].
    + destruct cb3.
      * destruct sh. 2:{ run_handlers; rewrite Ec. intuition congruence. }
        destruct opn; try (run_handlers; rewrite Ec; intuition congruence).
        destruct lno, cno, cfo, sno, sco; run_handlers; rewrite Ec; intuition congruence.
      * run_handlers. rewrite Ec. destruct pr, q, cb1, cb2; cbn; intuition congruence.
    + run_handlers; rewrite Ec. tauto.
    + destruct cb1, cb2, cb3, pr, q, sh, sel, sta; run_handlers; rewrite Ec; cbn;
        intuition congruence.
  - destruct lp; run_handlers; intuition congruence.
Qed.

Lemma handle_stage (st : state) (s : signal) :
  stage (handle st s) <= stage st + granted [s].
Proof.
  unfold granted.
  destruct st as [cb1 cb2 cb3 sh nid fd act q dnid lp cx co sm sr pr pq].
  destruct s as [r|].
  - destruct r as [c ss sel sta opn lno cno cfo sno sco]. cbn [filter code].
    destruct (c =? 0) eqn:Ec.
    2:{ run_handlers. rewrite Ec. destruct pr, cb3, cb2; cbn; lia. }
    destruct ss as [[id|]|].
    + destruct cb3.
      * destruct sh. 2:{ run_handlers; rewrite Ec. destruct pr; cbn; lia. }
        destruct opn; try (run_handlers; rewrite Ec; destruct pr; cbn; lia).
        destruct lno, cno, cfo, sno, sco; run_handlers; rewrite Ec; destruct pr; cbn; lia.
      * run_handlers. rewrite Ec. destruct pr, cb2; cbn; lia.
    + run_handlers; rewrite Ec. destruct pr, cb3, cb2; cbn; lia.
    + destruct cb1, cb2, cb3, pr, sh, sel, sta; run_handlers; rewrite Ec; cbn; lia.
  - destruct lp; run_handlers; destruct pr, cb3, cb2; cbn; lia.
Qed.

Lemma handle_all_keeps_invariant (signals : list signal) (st : state) :
  handshake_invariant st -> handshake_invariant (handle_all st signals).
Proof.
  revert st. induction signals as [|s signals IH]; intros st Hinv; [exact Hinv|].
  apply (IH (handle st s)). now apply handle_keeps_invariant.
Qed.

Lemma handle_all_stage (signals : list signal) (st : state) :
  stage (handle_all st signals) <= stage st + granted signals.
Proof.
  revert st. induction signals as [|s signals IH]; intros st.
  - unfold granted. cbn. lia.
  - specialize (IH (handle st s)). pose proof (handle_stage st s) as Hs.
    change (handle_all st (s :: signals)) with (handle_all (handle st s) signals).
    assert (Hsplit : granted (s :: signals) = granted [s] + granted signals).
    { unfold granted. cbn [filter]. destruct s as [r|]; [destruct (code r =? 0)|];
        cbn [length]; lia. }
    lia.
Qed.

(** After any sequence of signals following a successful
    [setup_pipewire_via_portal]: as long as no handler has asked the portal
    loop to quit, the handshake has not finished, no PipeWire loop exists,
    and exactly one of the three callbacks is registered, the one for the
    stage reached; every handler that does not leave the handshake waiting
    in this way asks the loop to quit.  The ready flag is raised only with
    the quit request made, the stream connected, both node ids equal, and
    after at least three responses with code 0. *)
Theorem portal_handshake_invariant (signals : list signal) :
  let st := handle_all created signals in
  (main_loop_quit st = false ->
   portal_ready st = false /\ loop st = false /\ stream_ready st = false /\
   (create_session_callback st, select_sources_callback st, start_session_callback st) =
     (stage st =? 0, stage st =? 1, stage st =? 2) /\
   stage st <= granted signals) /\
  (portal_ready st = true ->
   main_loop_quit st = true /\ stream_ready st = true /\
   data_node_id st = node_id st /\ 3 <= granted signals).
Proof.
  cbv zeta.
  assert (Hinv : handshake_invariant (handle_all created signals)).
  { apply handle_all_keeps_invariant. unfold handshake_invariant, created. cbn.
    intuition congruence. }
  pose proof (handle_all_stage signals created) as Hstage.
  change (stage created) with 0 in Hstage.
  destruct Hinv as (_ & Hrun & Hready). split.
  - intros Hq. destruct (Hrun Hq) as (H1 & H2 & H3 & H4).
    repeat split; (assumption || lia).
  - intros Hp. destruct (Hready Hp) as (H1 & H2 & _ & H4).
    unfold stage in Hstage at 1. rewrite Hp in Hstage.
    repeat split; (assumption || lia).
Qed.

(** When the three responses of the handshake arrive with code 0, the third
    with a stream for node [id], and every call made on the way succeeds,
    the handshake ends ready: the loop, the context, the core and the stream
    exist, the session is active with the node id and the descriptor the
    portal gave, and the portal loop is asked to quit.  Signals that arrive
    in between with code 0 and an empty stream list change nothing. *)
Theorem portal_handshake_completes (id fd : Z) (idle : list signal) :
  Forall (fun s => s = Response (granted_response (Some None) fd)) idle ->
  let st := handle_all created
              (Response (granted_response None fd) :: idle
               ++ Response (granted_response None fd) :: idle
               ++ [Response (granted_response (Some (Some id)) fd)]) in
  portal_ready st = true /\ main_loop_quit st = true /\
  loop st = true /\ context st = true /\ core st = true /\ stream st = true /\
  stream_ready st = true /\ session_active st = true /\
  node_id st = id /\ data_node_id st = id /\ pipewire_fd st = fd.
Proof.
  intros Hidle. cbv zeta.
  assert (Hskip : forall st rest,
             handle_all st (idle ++ rest) = handle_all st rest).
  { intros st rest. unfold handle_all. rewrite fold_left_app. f_equal.
    clear rest. revert st. induction Hidle as [|s idle' -> _ IH]; intros st; [reflexivity|].
    cbn [fold_left]. rewrite <- IH. reflexivity. }
  change (handle_all created (Response (granted_response None fd) :: ?l))
    with (handle_all (handle created (Response (granted_response None fd))) l).
  rewrite Hskip.
  change (handle_all ?s (Response (granted_response None fd) :: ?l))
    with (handle_all (handle s (Response (granted_response None fd))) l).
  rewrite Hskip. cbn. repeat split; reflexivity.
Qed.

End PortalHandshake.

(** The handshake with one stray signal after each of the first two
    responses. *)
Lemma portal_handshake_completes_witness :
  Portal.portal_ready
    (Portal.handle_all Portal.created
       (Portal.Response (Portal.granted_response None 7)
        :: [Portal.Response (Portal.granted_response (Some None) 7)]
        ++ Portal.Response (Portal.granted_response None 7)
        :: [Portal.Response (Portal.granted_response (Some None) 7)]
        ++ [Portal.Response (Portal.granted_response (Some (Some 42)) 7)])) = true.
Proof.
  apply (portal_handshake_completes 42 7
           [Portal.Response (Portal.granted_response (Some None) 7)]).
  repeat constructor.
Defined.

(** ** What reaches the sink *)

Section WritesOnly.

(** [on_stream_process] calls [write] only for a dequeued buffer, after the
    warm-up, with the sink open, and then only in color-bars mode or for a
    frame that the validity filter accepted, given the stored width and
    height as [int] and the stride resolved for this buffer, and whose
    layout has a converter. *)
Theorem on_stream_process_writes_only_validated (p : pipeline) (f : frame) :
  wrote (snd (on_stream_process p f)) = true ->
  let d := data p in
  dequeued f = true /\ 5 <= frame_skip_count d /\ 0 <= v4l2_fd d /\
  (color_bars_mode d = true \/
   validate_frame_data (pixels f) (int_of_uint32 (width d)) (int_of_uint32 (height d))
     (spa_format d)
     (actual_stride (width d) (height d) (spa_format d) (chunk f)) = true /\
   select_converter (spa_format d) <> None).
Proof.
  cbv zeta. unfold on_stream_process.
  destruct (dequeued f); cbn [negb]; [|discriminate].
  pose proof (acquire_same_stream (data p) f) as (Hsame & Hskip & _).
  destruct (acquire (data p) f) as [d have_frame]. cbn [fst] in Hsame, Hskip.
  destruct Hsame as (_ & _ & Hfd & Hw & Hh & Hfmt & _ & Hbars).
  destruct have_frame; cbn [negb]; [|discriminate].
  rewrite Hw, Hh, Hfmt.
  set (s := actual_stride _ _ _ _).
  change (frame_skip_count (set_stride d s)) with (frame_skip_count d).
  change (v4l2_fd (set_stride d s)) with (v4l2_fd d).
  rewrite Hskip, Hfd.
  destruct (Z.ltb_spec (frame_skip_count (data p)) 5) as [|Hwarm]; [discriminate|].
  destruct (Z.geb_spec (v4l2_fd (data p)) 0) as [Hopen|]; cbn [negb]; [|discriminate].
  destruct (to_sink_cases (set_stride d s) (write_error_count p) s f)
    as (d' & Hsame' & _ & [(e & _ & ->)|[(Hcb & ->)|(_ & Hvalid & ->)]]).
  - discriminate.
  - intros _. repeat split; try assumption; try lia.
    left. rewrite <- Hbars. exact Hcb.
  - intros Hwrote. repeat split; try assumption; try lia. right.
    change (width (set_stride d s)) with (width d) in Hvalid.
    change (height (set_stride d s)) with (height d) in Hvalid.
    change (spa_format (set_stride d s)) with (spa_format d) in Hvalid.
    rewrite Hw, Hh, Hfmt in Hvalid. split; [exact Hvalid|].
    pose proof (convert_and_write_spec d' (write_error_count p) s f) as (_ & _ & Hc).
    cbv zeta in Hc.
    destruct Hsame' as (_ & _ & _ & _ & _ & Hfmt' & _).
    change (spa_format (set_stride d s)) with (spa_format d) in Hfmt'.
    rewrite Hfmt', Hfmt in Hc.
    destruct (select_converter (spa_format (data p))); [discriminate|].
    destruct Hc as [Hc _]. congruence.
Qed.

End WritesOnly.

(** A white frame after the warm-up. *)
Lemma on_stream_process_writes_only_validated_witness :
  let p := fst (run (started 3 false)
                  (Param (negotiate 4 2 8) :: repeat (Process (plain_frame 255 16)) 5)) in
  5 <= frame_skip_count (data p) /\ 0 <= v4l2_fd (data p).
Proof.
  cbv zeta.
  pose proof (on_stream_process_writes_only_validated
                (fst (run (started 3 false)
                        (Param (negotiate 4 2 8) :: repeat (Process (plain_frame 255 16)) 5)))
                (plain_frame 255 16) ltac:(vm_compute; reflexivity)) as (_ & Hwarm & Hfd & _).
  split; assumption.
Defined.
